(** * Test-execution report pipeline: extraction, normalisation, aggregation

    A shallow embedding of [GoogleSheetsPivotReporterOAuth] from
    [scheduled-google-sheets-reporter.js]: the sheet walk of
    [fetchAllSheetsData] and the data preparation done by
    [generateHTMLReport] before the markup is assembled.

    Conventions.
    - A JavaScript string is the sequence of its UTF-16 code units; the
      embedding covers the code units below 256, one [ascii] each (so
      [" "], tab, line breaks and U+00A0 are the white space [trim] removes,
      and [toLowerCase] acts on A-Z and on the Latin-1 capital letters).
    - Array indices are [Z], since [findIndex] answers [-1]; reading an
      array out of range gives [undefined], written [None].
    - [Map] and [Set] keep insertion order and are association lists and
      duplicate-free lists; an object literal used as a table is the list
      of its own properties in the order they were made (that [Object.keys]
      lists index-like names first is not modelled: no statement depends on
      it), and what the literal inherits from [Object.prototype] is
      modelled where the code reads it.
    - A Number is a binary64 value, a primitive [float], where the code
      divides; the counts it divides are integers and stay [nat]. *)

From Stdlib Require Import Reals Lra Floats DecimalString.
From Stdlib Require Import ZArith List String Ascii Bool Lia Permutation.
Import ListNotations.

Local Open Scope string_scope.
Local Open Scope list_scope.

(** ** JavaScript strings *)

Module JsString.

(** [WhiteSpace] and [LineTerminator] code units below 256. *)
Definition isWhiteSpace (c : ascii) : bool :=
  let n := N_of_ascii c in
  (((9 <=? n) && (n <=? 13)) || (n =? 32) || (n =? 160))%N.

Definition toLowerChar (c : ascii) : ascii :=
  let n := N_of_ascii c in
  if (((65 <=? n) && (n <=? 90))
      || ((192 <=? n) && (n <=? 222) && negb (n =? 215)))%N
  then ascii_of_N (n + 32) else c.

Fixpoint toLowerCase (s : string) : string :=
  match s with
  | EmptyString => EmptyString
  | String c s' => String (toLowerChar c) (toLowerCase s')
  end.

Fixpoint trimStart (s : string) : string :=
  match s with
  | EmptyString => EmptyString
  | String c s' => if isWhiteSpace c then trimStart s' else s
  end.

Fixpoint trimEnd (s : string) : string :=
  match s with
  | EmptyString => EmptyString
  | String c s' =>
      match trimEnd s' with
      | EmptyString => if isWhiteSpace c then EmptyString else String c EmptyString
      | t => String c t
      end
  end.

Definition trim (s : string) : string := trimEnd (trimStart s).

(** Blank: empty, or white space only. *)
Fixpoint allWhiteSpace (s : string) : bool :=
  match s with
  | EmptyString => true
  | String c s' => isWhiteSpace c && allWhiteSpace s'
  end.

(** [s.includes(needle)] *)
Fixpoint includes (s needle : string) : bool :=
  String.prefix needle s
  || match s with
     | EmptyString => false
     | String _ s' => includes s' needle
     end.

(** A string in a boolean position: only [''] is falsy. *)
Definition truthy (s : string) : bool := negb (s =? "").

(** [v || ''] for a value that is a string or [undefined]. *)
Definition orEmpty (v : option string) : string :=
  match v with Some s => s | None => "" end.

Definition isDigit (c : ascii) : bool :=
  let n := N_of_ascii c in ((48 <=? n) && (n <=? 57))%N.

(** The class [[- ]]. *)
Definition isSep (c : ascii) : bool :=
  (Ascii.eqb c "-" || Ascii.eqb c " ")%char.


(** A pattern letter under the [i] flag (no [u] flag): a code unit above
    127 never folds onto an ASCII letter, so only the two ASCII cases
    match. *)
Definition ciLetter (lower upper c : ascii) : bool :=
  Ascii.eqb c lower || Ascii.eqb c upper.

(** [itr] at the start of [s], case-insensitively: the three code units as
    written and what follows them. *)
Definition itrAt (s : string) : option (string * string) :=
  match s with
  | String a (String b (String c rest)) =>
      if (ciLetter "i" "I" a && ciLetter "t" "T" b && ciLetter "r" "R" c)%char
      then Some (String a (String b (String c EmptyString)), rest)
      else None
  | _ => None
  end.

(** Greedy [\d*]: the digits at the start of [s]. *)
Fixpoint takeDigits (s : string) : string :=
  match s with
  | EmptyString => EmptyString
  | String c s' => if isDigit c then String c (takeDigits s') else EmptyString
  end.

(** [\d+] after the text [before] already matched. *)
Definition digitsAfter (before rest : string) : option string :=
  match takeDigits rest with
  | EmptyString => None
  | ds => Some (before ++ ds)%string
  end.

(** [/(itr[- ]?\d+)/i] tried at the start of [s]: the greedy [?] takes
    the separator first and gives it back when no digit follows. *)
Definition itrTokenAt (s : string) : option string :=
  match itrAt s with
  | None => None
  | Some (itr, rest) =>
      match rest with
      | String c rest' =>
          if isSep c then
            match digitsAfter (itr ++ String c EmptyString)%string rest' with
            | Some t => Some t
            | None => digitsAfter itr rest
            end
          else digitsAfter itr rest
      | EmptyString => digitsAfter itr rest
      end
  end.

(** [s.match(/(itr[- ]?\d+)/i)], capture group 1 of the leftmost match. *)
Fixpoint matchItrToken (s : string) : option string :=
  match itrTokenAt s with
  | Some t => Some t
  | None =>
      match s with
      | EmptyString => None
      | String _ s' => matchItrToken s'
      end
  end.

(** The optional [[- ]] at the start of [s], taken when it is there. *)
Definition dropSep (s : string) : string :=
  match s with
  | String c s' => if isSep c then s' else s
  | EmptyString => EmptyString
  end.

(** [/itr[- ]?/i] tried at the start of [s]: what is left after it. *)
Definition itrSepAt (s : string) : option string :=
  match itrAt s with
  | None => None
  | Some (_, rest) => Some (dropSep rest)
  end.

(** [s.replace(/itr[- ]?/i, '')]: the leftmost match is removed. *)
Fixpoint replaceItr (s : string) : string :=
  match itrSepAt s with
  | Some rest => rest
  | None =>
      match s with
      | EmptyString => EmptyString
      | String c s' => String c (replaceItr s')
      end
  end.

End JsString.

(** ** JavaScript arrays *)

Module JsArray.

Section Ops.
Context {A : Type}.

Fixpoint findIndexFrom (p : A -> bool) (l : list A) (i : Z) : Z :=
  match l with
  | [] => (-1)%Z
  | x :: l' => if p x then i else findIndexFrom p l' (i + 1)%Z
  end.

(** [l.findIndex(p)] *)
Definition findIndex (p : A -> bool) (l : list A) : Z :=
  findIndexFrom p l 0%Z.

(** [l[i]] *)
Definition get (l : list A) (i : Z) : option A :=
  if (i <? 0)%Z then None else nth_error l (Z.to_nat i).

(** [l.slice(i)] for [0 <= i]. *)
Definition sliceFrom (l : list A) (i : Z) : list A :=
  skipn (Z.to_nat i) l.

(** The elements posted by a loop body that pushes at most one value per
    element. *)
Fixpoint collect {B : Type} (f : A -> option B) (l : list A) : list B :=
  match l with
  | [] => []
  | x :: l' =>
      match f x with
      | Some y => y :: collect f l'
      | None => collect f l'
      end
  end.
End Ops.

End JsArray.

Import JsString JsArray.

(** ** [fetchAllSheetsData] *)

Abbreviation Row := (list string) (only parsing).
Abbreviation Grid := (list (list string)) (only parsing).

Record TestRecord := mkTestRecord {
  tester : string;
  jiraTicket : string;
  iteration : string;
  overallStatus : string;
  defect : string;
  comments : string
}.

Record SheetSummary := mkSummary {
  name : string;
  rowCount : Z;
  headerFound : bool
}.

Record HeaderColumns := mkColumns {
  testerIdx : Z;
  statusIdx : Z;
  defectIdx : Z;
  commentsIdx : Z;
  iterationIdx : Z
}.

(** [cell && cell.toLowerCase().includes(label)] *)
Definition hasLabel (label cell : string) : bool :=
  truthy cell && includes (toLowerCase cell) label.

Definition isHeaderRow (row : Row) : bool := existsb (hasLabel "tester") row.

Definition headerRowIdx (rows : Grid) : Z := findIndex isHeaderRow rows.

Definition locateColumns (header : Row) : HeaderColumns :=
  {| testerIdx := findIndex (hasLabel "tester") header;
     statusIdx := findIndex (hasLabel "overall status") header;
     defectIdx := findIndex (hasLabel "defect") header;
     commentsIdx := findIndex (hasLabel "comment") header;
     iterationIdx := findIndex (hasLabel "iteration") header |}.

(** [row[i] || ''] *)
Definition cell (row : Row) (i : Z) : string := orEmpty (get row i).

(** [idx !== -1 ? row[idx] || '' : ''] *)
Definition optionalCell (row : Row) (i : Z) : string :=
  if (i =? -1)%Z then "" else cell row i.

Definition rawIteration (sheetName : string) (cols : HeaderColumns) (row : Row) : string :=
  if negb (iterationIdx cols =? -1)%Z then cell row (iterationIdx cols)
  else orEmpty (matchItrToken sheetName).

Definition iterationLabel (raw : string) : string := trim (replaceItr raw).



Definition statusOf (rawStatus : string) : string :=
  if truthy (trim rawStatus) then trim rawStatus else "Not Started".

(** One turn of the data-row loop: [None] is the [continue]. *)
Definition processRow (sheetName : string) (cols : HeaderColumns) (row : Row)
  : option TestRecord :=
  let tester := cell row (testerIdx cols) in
  let rawStatus := cell row (statusIdx cols) in
  let status := statusOf rawStatus in
  if negb (truthy (trim tester)) then None
  else
    Some {| tester := tester;
            jiraTicket := sheetName;
            iteration := iterationLabel (rawIteration sheetName cols row);
            overallStatus := status;
            defect := optionalCell row (defectIdx cols);
            comments := optionalCell row (commentsIdx cols) |}.

(** The rows the loop [for (i = headerRowIdx + 1; i < rows.length; i++)]
    visits. *)
Definition dataRows (rows : Grid) : Grid :=
  sliceFrom rows (headerRowIdx rows + 1)%Z.

Definition headerOf (rows : Grid) : Row :=
  match get rows (headerRowIdx rows) with Some h => h | None => [] end.

(** What one non-index sheet adds: its summary and its records. *)
Definition processSheet (sheetName : string) (values : option Grid)
  : SheetSummary * list TestRecord :=
  match values with
  | None | Some [] => (mkSummary sheetName 0 false, [])
  | Some rows =>
      if (headerRowIdx rows =? -1)%Z then (mkSummary sheetName 0 false, [])
      else
        let rowCount := (Z.of_nat (List.length rows) - headerRowIdx rows - 1)%Z in
        (mkSummary sheetName rowCount true,
         collect (processRow sheetName (locateColumns (headerOf rows))) (dataRows rows))
  end.

Definition sheetSummary (sheetName : string) (values : option Grid) : SheetSummary :=
  fst (processSheet sheetName values).

Definition sheetRecords (sheetName : string) (values : option Grid) : list TestRecord :=
  snd (processSheet sheetName values).

Definition isIndexName (sheetName : string) : bool :=
  toLowerCase sheetName =? "index".

(** The reporter's fields written by the fetch. *)
Record Reporter := mkReporter {
  allData : list TestRecord;
  sheetSummaries : list SheetSummary;
  indexSheetRows : option Grid
}.

(** The body of [valueRanges.forEach]: a sheet title with the [values] of
    its range ([None] when the range came back without values). *)
Definition fetchStep (st : Reporter) (sheet : string * option Grid) : Reporter :=
  let (sheetName, values) := sheet in
  if isIndexName sheetName then
    match values with
    | Some rows =>
        if (1 <? Z.of_nat (List.length rows))%Z
        then mkReporter (allData st) (sheetSummaries st) (Some rows)
        else st
    | None => st
    end
  else
    let (summary, records) := processSheet sheetName values in
    mkReporter (allData st ++ records) (sheetSummaries st ++ [summary])
               (indexSheetRows st).

Definition fetchAllSheetsData (sheets : list (string * option Grid)) : Reporter :=
  fold_left fetchStep sheets (mkReporter [] [] None).

(** A data row the loop skips. *)
Definition blankTester (cols : HeaderColumns) (row : Row) : bool :=
  allWhiteSpace (cell row (testerIdx cols)).

(** The records and summaries of a fetch, sheet by sheet. *)
Definition recordsOf (sheet : string * option Grid) : list TestRecord :=
  if isIndexName (fst sheet) then [] else sheetRecords (fst sheet) (snd sheet).

Definition summariesOf (sheet : string * option Grid) : list SheetSummary :=
  if isIndexName (fst sheet) then [] else [sheetSummary (fst sheet) (snd sheet)].

(** ** Insertion-ordered [Set] and [Map] over strings *)

Module JsSet.
Definition t := list string.
Definition has (s : t) (x : string) : bool := existsb (String.eqb x) s.
Definition add (s : t) (x : string) : t := if has s x then s else s ++ [x].
(** [new Set(l)] *)
Definition ofList (l : list string) : t := fold_left add l [].
Definition size (s : t) : nat := List.length s.
End JsSet.

Module JsMap.
Section Values.
Context {V : Type}.
Definition t := list (string * V).

Fixpoint get (m : t) (k : string) : option V :=
  match m with
  | [] => None
  | (k', v) :: m' => if k' =? k then Some v else get m' k
  end.

Definition has (m : t) (k : string) : bool :=
  match get m k with Some _ => true | None => false end.

(** A present key keeps its place, a new one goes last. *)
Fixpoint set (m : t) (k : string) (v : V) : t :=
  match m with
  | [] => [(k, v)]
  | (k', v') :: m' => if k' =? k then (k, v) :: m' else (k', v') :: set m' k v
  end.

Definition keys (m : t) : list string := map fst m.
Definition size (m : t) : nat := List.length m.
End Values.
Arguments t : clear implicits.
End JsMap.

(** The distinct elements of a list, each at its first occurrence. *)
Fixpoint firstSeen (l : list string) : list string :=
  match l with
  | [] => []
  | x :: l' => x :: filter (fun y => negb (y =? x)) (firstSeen l')
  end.

(** ** Failure *)

Inductive Result (A : Type) : Type :=
| Ok (a : A)
| TypeError.
Arguments Ok {A} a.
Arguments TypeError {A}.

Definition bind {A B : Type} (r : Result A) (k : A -> Result B) : Result B :=
  match r with
  | Ok a => k a
  | TypeError => TypeError
  end.

Notation "x <- r ;; k" := (bind r (fun x => k))
  (at level 61, r at next level, right associativity).

Fixpoint foldM {A S : Type} (f : S -> A -> Result S) (l : list A) (s : S) : Result S :=
  match l with
  | [] => Ok s
  | x :: l' => s' <- f s x ;; foldM f l' s'
  end.

Fixpoint mapM {A B : Type} (f : A -> Result B) (l : list A) : Result (list B) :=
  match l with
  | [] => Ok []
  | x :: l' => y <- f x ;; ys <- mapM f l' ;; Ok (y :: ys)
  end.

(** The property names every object literal inherits from
    [Object.prototype]; reading one of them on [{}] gives a function (or the
    prototype itself for [__proto__]), never [undefined]. *)
Definition objectPrototypeKeys : list string :=
  ["constructor"; "__defineGetter__"; "__defineSetter__"; "hasOwnProperty";
   "__lookupGetter__"; "__lookupSetter__"; "isPrototypeOf";
   "propertyIsEnumerable"; "toString"; "valueOf"; "__proto__";
   "toLocaleString"].

Definition inherited (k : string) : bool :=
  existsb (String.eqb k) objectPrototypeKeys.

(** ** [generateHTMLReport]: status order *)

Definition statusOrder : list string :=
  ["Passed"; "Failed"; "Blocked"; "In Progress"; "Not Started"].

Definition statusSet (rows : list TestRecord) : JsSet.t :=
  JsSet.ofList (filter truthy (map overallStatus rows)).

(** [if (!statusList.includes(s)) statusList.push(s)] *)
Definition pushIfNew (statusList : list string) (s : string) : list string :=
  if negb (existsb (String.eqb s) statusList) then statusList ++ [s] else statusList.

Definition statusList (rows : list TestRecord) : list string :=
  let statusSet := statusSet rows in
  fold_left pushIfNew statusSet (filter (JsSet.has statusSet) statusOrder).

(** [statusList.map(status => allData.filter(row => row.overallStatus === status).length)] *)
Definition statusCounts (rows : list TestRecord) : list nat :=
  map (fun status =>
         List.length (filter (fun row => overallStatus row =? status) rows))
      (statusList rows).

(** The records whose status is [status]. *)
Definition countStatus (rows : list TestRecord) (status : string) : nat :=
  List.length (filter (fun row => overallStatus row =? status) rows).

(** ** [generateHTMLReport]: grouping by tester *)

Module Group.
(** A tester's group; its [statusCounts] table only feeds the rendered
    cells and is left out. *)
Record t := mk {
  tester : string;
  rows : list TestRecord;
  ticketIterations : JsMap.t JsSet.t
}.
End Group.

Definition newGroup (key : string) : Group.t := Group.mk key [] [].

(** [row.iteration || '1'] *)
Definition iterationOrOne (row : TestRecord) : string :=
  if truthy (iteration row) then iteration row else "1".

(** The ticket bookkeeping of one record: the ticket gets an empty [Set]
    when it is new, and the record's label is added to the ticket's set. *)
Definition addIteration (ticketIterations : JsMap.t JsSet.t) (row : TestRecord)
  : JsMap.t JsSet.t :=
  let ticket := jiraTicket row in
  let tickets :=
    if negb (JsMap.has ticketIterations ticket)
    then JsMap.set ticketIterations ticket []
    else ticketIterations in
  let iterations :=
    match JsMap.get tickets ticket with Some s => s | None => [] end in
  JsMap.set tickets ticket (JsSet.add iterations (iterationOrOne row)).

(** The updates of one record on its tester's group. *)
Definition addToGroup (g : Group.t) (row : TestRecord) : Group.t :=
  Group.mk (Group.tester g) (Group.rows g ++ [row])
           (addIteration (Group.ticketIterations g) row).

(** The body of [this.allData.forEach] over the object [grouped]. A key the
    object only inherits is truthy, so no group is made for it, and
    [grouped[key].rows] is then [undefined]: [push] throws. *)
Definition groupStep (grouped : JsMap.t Group.t) (row : TestRecord)
  : Result (JsMap.t Group.t) :=
  let key := trim (tester row) in
  if negb (truthy key) then Ok grouped
  else
    match JsMap.get grouped key with
    | Some g => Ok (JsMap.set grouped key (addToGroup g row))
    | None =>
        if inherited key then TypeError
        else Ok (JsMap.set grouped key (addToGroup (newGroup key) row))
    end.

Definition groupByTester (rows : list TestRecord) : Result (JsMap.t Group.t) :=
  foldM groupStep rows [].

Record TicketDetail := mkDetail {
  ticket : string;
  count : nat
}.

Record TesterEntry := mkEntry {
  testerName : string;
  total : nat;
  uniqueTicketCount : nat;
  ticketDetails : list TicketDetail
}.

Definition ticketDetailsOf (g : Group.t) : list TicketDetail :=
  map (fun kv => mkDetail (fst kv) (JsSet.size (snd kv))) (Group.ticketIterations g).

Definition entryOf (testerName : string) (group : Group.t) : TesterEntry :=
  {| testerName := testerName;
     total := List.length (Group.rows group);
     uniqueTicketCount := JsMap.size (Group.ticketIterations group);
     ticketDetails := ticketDetailsOf group |}.

(** The body of [sortedTesters.map]; a name without a group would make
    [group.ticketIterations] throw. *)
Definition testerEntry (grouped : JsMap.t Group.t) (testerName : string)
  : Result TesterEntry :=
  match JsMap.get grouped testerName with
  | Some group => Ok (entryOf testerName group)
  | None => TypeError
  end.

(** The records filed under a tester key, and those of one ticket. *)
Definition recordsOfTester (key : string) (rows : list TestRecord) : list TestRecord :=
  filter (fun r => trim (tester r) =? key) rows.

Definition recordsOfTicket (ticket : string) (rows : list TestRecord) : list TestRecord :=
  filter (fun r => jiraTicket r =? ticket) rows.

(** The group the fold leaves under a key. *)
Definition groupOf (key : string) (rows : list TestRecord) : Group.t :=
  Group.mk key (recordsOfTester key rows)
           (fold_left addIteration (recordsOfTester key rows) []).

(** ** [generateHTMLReport]: the index sheet *)

Module Index.

Record Columns := mkColumns {
  testScenarioIdx : Z;
  testExecutionIdx : Z;
  testStoryIdx : Z;
  descIdx : Z;
  statusIdx : Z
}.

Definition fallback : Columns := mkColumns 0 1 3 2 4.

(** The body of [header.forEach((cell, i) => ...)]. *)
Definition columnStep (cols : Columns) (cell : string) (i : Z) : Columns :=
  let lc := toLowerCase cell in
  let pick (label : string) (old : Z) := if includes lc label then i else old in
  {| testScenarioIdx := pick "test scenario" (testScenarioIdx cols);
     testExecutionIdx := pick "test execution" (testExecutionIdx cols);
     testStoryIdx := pick "test story" (testStoryIdx cols);
     descIdx := pick "description" (descIdx cols);
     statusIdx := pick "status" (statusIdx cols) |}.

Fixpoint columnsFrom (header : Row) (i : Z) (cols : Columns) : Columns :=
  match header with
  | [] => cols
  | cell :: header' => columnsFrom header' (i + 1)%Z (columnStep cols cell i)
  end.

Definition columns (header : Row) : Columns := columnsFrom header 0%Z fallback.

(** [rows.slice(1).filter(row => row.some(cell => cell))] *)
Definition bodyRows (rows : Grid) : Grid :=
  filter (existsb truthy) (sliceFrom rows 1).

(** A value stored in [statusCountsMap]: a count, or the text that [+ 1]
    makes of an inherited member. *)
Inductive Tally : Type :=
| Number (n : nat)
| Text.

(** [m[status] = (m[status] || 0) + 1] on the object literal [m]. An
    inherited member is truthy and [+ 1] turns it into text; the
    assignment then makes an own property, except under [__proto__],
    whose setter ignores a string. *)
Definition increment (m : JsMap.t Tally) (status : string) : JsMap.t Tally :=
  match JsMap.get m status with
  | Some (Number n) => JsMap.set m status (Number (n + 1))
  | Some Text => JsMap.set m status Text
  | None =>
      if inherited status then
        if status =? "__proto__" then m else JsMap.set m status Text
      else JsMap.set m status (Number 1)
  end.

Definition tallyStep (statusIdx : Z) (m : JsMap.t Tally) (row : Row) : JsMap.t Tally :=
  let status := cell row statusIdx in
  if truthy (trim status) then increment m status else m.

Definition statusCountsMap (statusIdx : Z) (bodyRows : Grid) : JsMap.t Tally :=
  fold_left (tallyStep statusIdx) bodyRows [].

(** The cells one table line is made of. *)
Record Entry := mkEntry {
  testScenario : string;
  testExecution : string;
  testStory : string;
  description : string;
  status : string
}.

Definition entry (cols : Columns) (row : Row) : Entry :=
  {| testScenario := cell row (testScenarioIdx cols);
     testExecution := cell row (testExecutionIdx cols);
     testStory := cell row (testStoryIdx cols);
     description := cell row (descIdx cols);
     status := cell row (statusIdx cols) |}.

Record View := mkView {
  cols : Columns;
  entries : list Entry;
  tally : JsMap.t Tally
}.

(** [if (this.indexSheetRows?.length > 1) { ... }] *)
Definition view (indexSheetRows : option Grid) : option View :=
  match indexSheetRows with
  | Some rows =>
      if (1 <? Z.of_nat (List.length rows))%Z then
        let header := match rows with h :: _ => h | [] => [] end in
        let cols := columns header in
        let body := bodyRows rows in
        Some (mkView cols (map (entry cols) body)
                     (statusCountsMap (statusIdx cols) body))
      else None
  | None => None
  end.

End Index.

(** The rows of the body whose status cell is [s]. *)
Definition rowsWithStatus (statusIdx : Z) (s : string) (body : Grid) : Grid :=
  filter (fun row => cell row statusIdx =? s) body.

(** ** [generateHTMLReport]: the data handed to the template *)

Record ReportModel := mkModel {
  modelStatusList : list string;
  modelData : list TesterEntry;
  modelIndex : option Index.View;
  modelStatusCounts : list nat
}.

Section Report.
(** [Object.keys(grouped).sort(byLowerCaseLocaleCompare)] as a function of
    the keys in insertion order. The collation is the host's; the report
    only needs the result to hold the same keys. *)
Variable sortedKeys : list string -> list string.

Definition sortedTesters (grouped : JsMap.t Group.t) : list string :=
  sortedKeys (JsMap.keys grouped).

Definition generateHTMLReport (this : Reporter) : Result ReportModel :=
  grouped <- groupByTester (allData this) ;;
  data <- mapM (testerEntry grouped) (sortedTesters grouped) ;;
  Ok {| modelStatusList := statusList (allData this);
        modelData := data;
        modelIndex := Index.view (indexSheetRows this);
        modelStatusCounts := statusCounts (allData this) |}.
End Report.

(** ** [fetchAllSheetsData]: what it names and logs *)

(** [allSheetTitles.filter(name => name.toLowerCase() !== 'index')] *)
Definition sheetNames (allSheetTitles : list string) : list string :=
  filter (fun name => negb (toLowerCase name =? "index")) allSheetTitles.

(** The two figures of the closing log line, [sheetNames.length] and
    [allData.length]. *)
Definition processedCounts (sheets : list (string * option Grid)) : nat * nat :=
  (List.length (sheetNames (map fst sheets)),
   List.length (allData (fetchAllSheetsData sheets))).

(** The grid the last index sheet with more than one row leaves in
    [indexSheetRows]. *)
Fixpoint lastIndexRows (sheets : list (string * option Grid)) : option Grid :=
  match sheets with
  | [] => None
  | (sheetName, values) :: sheets' =>
      match lastIndexRows sheets' with
      | Some rows => Some rows
      | None =>
          match values with
          | Some rows =>
              if isIndexName sheetName && (1 <? Z.of_nat (List.length rows))%Z
              then Some rows else None
          | None => None
          end
      end
  end.

(** The row counts of the summaries, added up. *)
Definition rowCountTotal (summaries : list SheetSummary) : Z :=
  fold_right (fun s acc => (rowCount s + acc)%Z) 0%Z summaries.

(** A string [trim] leaves as it is. *)
Definition trimmed (s : string) : Prop := trim s = s.

(** The object pushed to [allData] for a data row that is not skipped. *)
Definition recordOfRow (sheetName : string) (cols : HeaderColumns) (row : Row)
  : TestRecord :=
  {| tester := cell row (testerIdx cols);
     jiraTicket := sheetName;
     iteration := iterationLabel (rawIteration sheetName cols row);
     overallStatus := statusOf (cell row (statusIdx cols));
     defect := optionalCell row (defectIdx cols);
     comments := optionalCell row (commentsIdx cols) |}.

(** ** [generateHTMLReport]: the groups with their status tables *)

(** What reading [table[key]] gives on an object literal that holds counts:
    [undefined], a number, or something that is no number (a text stored
    under the key, or a member the literal inherits). *)
Inductive Value : Type :=
| Undefined
| Num (n : nat)
| NotNumber.

Definition readProperty (table : JsMap.t Index.Tally) (key : string) : Value :=
  match JsMap.get table key with
  | Some (Index.Number n) => Num n
  | Some Index.Text => NotNumber
  | None => if inherited key then NotNumber else Undefined
  end.

Definition truthyValue (v : Value) : bool :=
  match v with
  | Undefined => false
  | Num n => negb (n =? 0)%nat
  | NotNumber => true
  end.

(** [v || 0] *)
Definition orZero (v : Value) : Value := if truthyValue v then v else Num 0.

(** The number a cell shows, when it shows one. *)
Definition numberOf (v : Value) : nat :=
  match v with
  | Num n => n
  | _ => 0%nat
  end.

Module FullGroup.
(** [{ tester, rows, statusCounts, ticketIterations }] *)
Record t := mk {
  tester : string;
  rows : list TestRecord;
  statusCounts : JsMap.t Index.Tally;
  ticketIterations : JsMap.t JsSet.t
}.
End FullGroup.

Definition newFullGroup (key : string) : FullGroup.t := FullGroup.mk key [] [] [].

(** The three updates of one record on its tester's group: the row is
    pushed, its status is counted, its ticket and label are noted. *)
Definition addToFullGroup (g : FullGroup.t) (row : TestRecord) : FullGroup.t :=
  FullGroup.mk (FullGroup.tester g) (FullGroup.rows g ++ [row])
               (Index.increment (FullGroup.statusCounts g) (overallStatus row))
               (addIteration (FullGroup.ticketIterations g) row).

(** The body of [this.allData.forEach], with every field of the group. *)
Definition fullGroupStep (grouped : JsMap.t FullGroup.t) (row : TestRecord)
  : Result (JsMap.t FullGroup.t) :=
  let key := trim (tester row) in
  if negb (truthy key) then Ok grouped
  else
    match JsMap.get grouped key with
    | Some g => Ok (JsMap.set grouped key (addToFullGroup g row))
    | None =>
        if inherited key then TypeError
        else Ok (JsMap.set grouped key (addToFullGroup (newFullGroup key) row))
    end.

Definition groupFully (rows : list TestRecord) : Result (JsMap.t FullGroup.t) :=
  foldM fullGroupStep rows [].

Module Data.
(** One element of [data]: a line of the pivot table. *)
Record Row := mk {
  testerName : string;
  statusCounts : list Value;
  total : nat;
  uniqueTicketCount : nat;
  ticketDetails : list TicketDetail
}.
End Data.

(** [statusList.map(status => group.statusCounts[status] || 0)] *)
Definition pivotCells (statusList : list string) (table : JsMap.t Index.Tally)
  : list Value :=
  map (fun status => orZero (readProperty table status)) statusList.

Definition dataRowOf (statusList : list string) (testerName : string)
  (group : FullGroup.t) : Data.Row :=
  {| Data.testerName := testerName;
     Data.statusCounts := pivotCells statusList (FullGroup.statusCounts group);
     Data.total := List.length (FullGroup.rows group);
     Data.uniqueTicketCount := JsMap.size (FullGroup.ticketIterations group);
     Data.ticketDetails :=
       map (fun kv => mkDetail (fst kv) (JsSet.size (snd kv)))
           (FullGroup.ticketIterations group) |}.

Definition dataRow (statusList : list string) (grouped : JsMap.t FullGroup.t)
  (testerName : string) : Result Data.Row :=
  match JsMap.get grouped testerName with
  | Some group => Ok (dataRowOf statusList testerName group)
  | None => TypeError
  end.

(** [statusOrder.filter(s => group.statusCounts[s])], each status with the
    value shown beside it. *)
Definition statusSummary (table : JsMap.t Index.Tally) : list (string * Value) :=
  map (fun s => (s, readProperty table s))
      (filter (fun s => truthyValue (readProperty table s)) statusOrder).

(** [statusOrder.flatMap(status => group.rows.filter(r => r.overallStatus === status))] *)
Definition sortedRows (rows : list TestRecord) : list TestRecord :=
  flat_map (fun status => filter (fun r => overallStatus r =? status) rows) statusOrder.

(** [detail.count > 3 ? '#dc2626' : detail.count > 1 ? '#f59e0b' : '#10b981'] *)
Definition borderColor (count : nat) : string :=
  if (3 <? count)%nat then "#dc2626"
  else if (1 <? count)%nat then "#f59e0b"
  else "#10b981".

Module Block.
(** What one aggregate block is made of. *)
Record t := mk {
  tester : string;
  summary : list (string * Value);
  ticketBorders : list (string * string);
  tableRows : list TestRecord
}.
End Block.

(** The body of [data.map(row => ...)] that makes the aggregate blocks. *)
Definition aggregateBlock (grouped : JsMap.t FullGroup.t) (row : Data.Row)
  : Result Block.t :=
  match JsMap.get grouped (Data.testerName row) with
  | Some group =>
      Ok {| Block.tester := Data.testerName row;
            Block.summary := statusSummary (FullGroup.statusCounts group);
            Block.ticketBorders :=
              map (fun detail => (ticket detail, borderColor (count detail)))
                  (Data.ticketDetails row);
            Block.tableRows := sortedRows (FullGroup.rows group) |}
  | None => TypeError
  end.

Section FullReport.
Variable sortedKeys : list string -> list string.

(** [data] and the aggregate blocks of a report. *)
Definition reportData (rows : list TestRecord) : Result (list Data.Row) :=
  grouped <- groupFully rows ;;
  mapM (dataRow (statusList rows) grouped) (sortedKeys (JsMap.keys grouped)).

Definition aggregateBlocks (rows : list TestRecord) : Result (list Block.t) :=
  grouped <- groupFully rows ;;
  data <- mapM (dataRow (statusList rows) grouped) (sortedKeys (JsMap.keys grouped)) ;;
  mapM (aggregateBlock grouped) data.

(** [statusList.map((status, idx) => data.map(row => row.statusCounts[idx]))],
    the series of the stacked bar chart. *)
Definition barSeries (statusList : list string) (data : list Data.Row) : list (list Value) :=
  map (fun idx => map (fun row => nth idx (Data.statusCounts row) Undefined) data)
      (seq 0 (List.length statusList)).
End FullReport.

(** A full group without its status table, and a table of groups so
    stripped. *)
Definition eraseGroup (g : FullGroup.t) : Group.t :=
  Group.mk (FullGroup.tester g) (FullGroup.rows g) (FullGroup.ticketIterations g).

Definition mapValues {A B : Type} (f : A -> B) (m : JsMap.t A) : JsMap.t B :=
  map (fun kv => (fst kv, f (snd kv))) m.

(** The status table a group holds once [rows] have been filed in it. *)
Definition countsOf (rows : list TestRecord) : JsMap.t Index.Tally :=
  fold_left Index.increment (map overallStatus rows) [].

(** An entry of [grouped] whose status table is that of its rows. *)
Definition countsMatch (entry : string * FullGroup.t) : Prop :=
  FullGroup.statusCounts (snd entry) = countsOf (FullGroup.rows (snd entry)).

(** The full group the fold leaves under a key. *)
Definition fullGroupOf (key : string) (rows : list TestRecord) : FullGroup.t :=
  FullGroup.mk key (recordsOfTester key rows)
               (countsOf (recordsOfTester key rows))
               (fold_left addIteration (recordsOfTester key rows) []).

(** A line of [data] without its status cells. *)
Definition eraseRow (row : Data.Row) : TesterEntry :=
  {| testerName := Data.testerName row;
     total := Data.total row;
     uniqueTicketCount := Data.uniqueTicketCount row;
     ticketDetails := Data.ticketDetails row |}.

(** The records whose tester is not blank. *)
Definition withTester (rows : list TestRecord) : list TestRecord :=
  filter (fun r => truthy (trim (tester r))) rows.

(** A status of the canonical order. *)
Definition canonical (status : string) : bool := JsSet.has statusOrder status.

(** The border colours. *)
Definition green : string := "#10b981".
Definition amber : string := "#f59e0b".
Definition red : string := "#dc2626".

(** ** More worked inputs *)

Module ReportSamples.
Definition aliceLine : Data.Row :=
  Data.mk "Alice" [Num 2; Num 1; Num 1] 4 2 [mkDetail "NR-1" 2; mkDetail "NR-2" 1].

Definition bobLine : Data.Row :=
  Data.mk "bob" [Num 1; Num 0; Num 0] 1 1 [mkDetail "NR-1" 1].

Definition aliceBlock : Block.t :=
  Block.mk "Alice" [("Passed", Num 2); ("Failed", Num 1)]
           [("NR-1", amber); ("NR-2", green)]
           [mkTestRecord " Alice" "NR-1" "1" "Passed" "" "";
            mkTestRecord "Alice" "NR-2" "2" "Passed" "" "";
            mkTestRecord "Alice" "NR-1" "" "Failed" "" ""].
End ReportSamples.

(** ** The index sheet: what its columns and its chart come to *)

(** [idx] is the place of the last cell of [header] that contains [label],
    or [default] when no cell does. *)
Definition lastMatch (label : string) (header : Row) (default idx : Z) : Prop :=
  ((forall c, In c header -> includes (toLowerCase c) label = false) /\ idx = default)
  \/ exists before c after,
       header = before ++ c :: after
       /\ includes (toLowerCase c) label = true
       /\ (forall c', In c' after -> includes (toLowerCase c') label = false)
       /\ idx = Z.of_nat (List.length before).

Definition tallyValue (v : Index.Tally) : nat :=
  match v with
  | Index.Number n => n
  | Index.Text => 0%nat
  end.

(** The counts a tally holds, added up. *)
Definition tallyTotal (m : JsMap.t Index.Tally) : nat :=
  list_sum (map (fun kv => tallyValue (snd kv)) m).

(** A tally that holds counts only. *)
Definition countsOnly (m : JsMap.t Index.Tally) : Prop :=
  Forall (fun kv => exists n, snd kv = Index.Number n /\ (1 <= n)%nat) m.

(** ** [generateHTMLReport]: the links of the index table *)

Definition jiraBaseUrl : string :=
  "https://new-relic.atlassian.net/projects/NR?selectedItem=com.atlassian.plugins.atlassian-connect-plugin:com.xpandit.plugins.xray__testing-board#!page=test-run&testExecutionKey=NR-488556&testPlanId=725086&testKey=".

(** The class [[^\s)]]. *)
Definition isUrlChar (c : ascii) : bool :=
  negb (isWhiteSpace c) && negb (Ascii.eqb c ")").

Fixpoint allUrlChars (s : string) : bool :=
  match s with
  | EmptyString => true
  | String c s' => isUrlChar c && allUrlChars s'
  end.

(** Greedy [[^\s)]*]: the longest run at the start of [s], and the rest. *)
Fixpoint takeUrlChars (s : string) : string * string :=
  match s with
  | EmptyString => (EmptyString, EmptyString)
  | String c s' =>
      if isUrlChar c then
        let (body, rest) := takeUrlChars s' in (String c body, rest)
      else (EmptyString, s)
  end.

(** The text after the literal [p] at the start of [s]. *)
Fixpoint dropPrefix (p s : string) : option string :=
  match p, s with
  | EmptyString, _ => Some s
  | String a p', String b s' => if Ascii.eqb a b then dropPrefix p' s' else None
  | String _ _, EmptyString => None
  end.

(** [:\/\/[^\s)]+] after the text [before] already matched: the match so
    far and what follows it. *)
Definition urlBodyAfter (before rest : string) : option (string * string) :=
  match dropPrefix "://" rest with
  | Some r =>
      match takeUrlChars r with
      | (EmptyString, _) => None
      | (body, after) => Some (before ++ "://" ++ body, after)%string
      end
  | None => None
  end.

(** [/https?:\/\/[^\s)]+/] tried at the start of [s]: the greedy [?] takes
    the [s] first and gives it back when the rest does not match. *)
Definition urlAt (s : string) : option (string * string) :=
  match dropPrefix "http" s with
  | Some rest =>
      match rest with
      | String "s" rest' =>
          match urlBodyAfter "https" rest' with
          | Some m => Some m
          | None => urlBodyAfter "http" rest
          end
      | _ => urlBodyAfter "http" rest
      end
  | None => None
  end.

(** The leftmost match of [/https?:\/\/[^\s)]+/] in [s]: what precedes it,
    the match, and what follows. *)
Fixpoint findUrl (s : string) : option (string * string * string) :=
  match urlAt s with
  | Some (url, after) => Some (EmptyString, url, after)
  | None =>
      match s with
      | EmptyString => None
      | String c s' =>
          match findUrl s' with
          | Some (before, url, after) => Some (String c before, url, after)
          | None => None
          end
      end
  end.

(** [s.replace(/https?:\/\/[^\s)]+/, '')] *)
Definition removeUrl (s : string) : string :=
  match findUrl s with
  | Some (before, _, after) => (before ++ after)%string
  | None => s
  end.

(** [s.replace(/[()]/g, '')] *)
Fixpoint removeParens (s : string) : string :=
  match s with
  | EmptyString => EmptyString
  | String c s' =>
      if (Ascii.eqb c "(" || Ascii.eqb c ")")%char then removeParens s'
      else String c (removeParens s')
  end.

(** [... || 'Link'] *)
Definition linkText (testScenario : string) : string :=
  let t := removeParens (trim (removeUrl testScenario)) in
  if truthy t then t else "Link".

Definition doubleQuote : string := String (ascii_of_nat 34) EmptyString.

(** The anchor element both kinds of link are written as. *)
Definition anchor (href text : string) : string :=
  ("<a href=" ++ doubleQuote ++ href ++ doubleQuote
   ++ " target=" ++ doubleQuote ++ "_blank" ++ doubleQuote
   ++ " style=" ++ doubleQuote
   ++ "color:#1a73e8;text-decoration:none;font-weight:bold;" ++ doubleQuote
   ++ ">" ++ text ++ "</a>")%string.

Definition testScenarioCell (testScenario : string) : string :=
  if truthy testScenario && includes testScenario "http" then
    match findUrl testScenario with
    | Some (_, url, _) => anchor url (linkText testScenario)
    | None => testScenario
    end
  else if truthy testScenario && String.prefix "NR-" testScenario then
    anchor (jiraBaseUrl ++ testScenario)%string testScenario
  else testScenario.

Definition jiraLink (testStory : string) : string :=
  if truthy testStory then anchor (jiraBaseUrl ++ testStory)%string testStory
  else "".

(** What [/https?:\/\/[^\s)]+/] can match. *)
Definition isUrl (u : string) : Prop :=
  exists scheme body,
    u = (scheme ++ "://" ++ body)%string
    /\ (scheme = "http" \/ scheme = "https")
    /\ body <> "" /\ allUrlChars body = true.

(** Some match of the pattern starts at the first code unit of [s]. *)
Definition urlStarts (s : string) : Prop :=
  exists u r, s = (u ++ r)%string /\ isUrl u.

(** [s] does not go on with a code unit the pattern would still take. *)
Definition urlEndsBefore (s : string) : Prop :=
  forall c r, s = String c r -> isUrlChar c = false.

Fixpoint hasParen (s : string) : bool :=
  match s with
  | EmptyString => false
  | String c s' => (Ascii.eqb c "(" || Ascii.eqb c ")")%char || hasParen s'
  end.

(** ** The earlier reporter class of the file *)

(** The second [GoogleSheetsPivotReporterOAuth] of the file has the same
    [fetchAllSheetsData]; its [generateHTMLReport] groups without the ticket
    table and reads three columns of the index sheet. *)
Module Earlier.

(** [row.tester?.trim()] *)
Definition keyOf (row : TestRecord) : string := trim (tester row).

(** [{ tester, rows, statusCounts }] *)
Record Group := mkGroup {
  tester : string;
  rows : list TestRecord;
  statusCounts : JsMap.t Index.Tally
}.

Definition addToGroup (g : Group) (row : TestRecord) : Group :=
  mkGroup (tester g) (rows g ++ [row])
          (Index.increment (statusCounts g) (overallStatus row)).

Definition groupStep (grouped : JsMap.t Group) (row : TestRecord)
  : Result (JsMap.t Group) :=
  let key := keyOf row in
  if negb (truthy key) then Ok grouped
  else
    match JsMap.get grouped key with
    | Some g => Ok (JsMap.set grouped key (addToGroup g row))
    | None =>
        if inherited key then TypeError
        else Ok (JsMap.set grouped key (addToGroup (mkGroup key [] []) row))
    end.

(** [{ testerName, statusCounts, total }] *)
Record Line := mkLine {
  testerName : string;
  cells : list Value;
  total : nat
}.

Definition dataRow (statusList : list string) (grouped : JsMap.t Group)
  (name : string) : Result Line :=
  match JsMap.get grouped name with
  | Some group =>
      Ok (mkLine name (pivotCells statusList (statusCounts group))
                 (List.length (rows group)))
  | None => TypeError
  end.

Definition reportData (sortedKeys : list string -> list string)
  (allData : list TestRecord) : Result (list Line) :=
  grouped <- foldM groupStep allData [] ;;
  mapM (dataRow (statusList allData) grouped) (sortedKeys (JsMap.keys grouped)).

(** [let testStoryIdx = 3, descIdx = 2, statusIdx = 4] and the loop over
    the header. *)
Record Columns := mkColumns {
  testStoryIdx : Z;
  descIdx : Z;
  statusIdx : Z
}.

Definition columnStep (cols : Columns) (cell : string) (i : Z) : Columns :=
  let lc := toLowerCase cell in
  let pick (label : string) (old : Z) := if includes lc label then i else old in
  {| testStoryIdx := pick "test story" (testStoryIdx cols);
     descIdx := pick "description" (descIdx cols);
     statusIdx := pick "status" (statusIdx cols) |}.

Fixpoint columnsFrom (header : Row) (i : Z) (cols : Columns) : Columns :=
  match header with
  | [] => cols
  | cell :: header' => columnsFrom header' (i + 1)%Z (columnStep cols cell i)
  end.

Definition columns (header : Row) : Columns := columnsFrom header 0%Z (mkColumns 3 2 4).

End Earlier.

(** What the earlier class keeps of a group, of a line of [data] and of the
    columns of the index sheet. *)
Definition earlierGroup (g : FullGroup.t) : Earlier.Group :=
  Earlier.mkGroup (FullGroup.tester g) (FullGroup.rows g) (FullGroup.statusCounts g).

Definition earlierLine (row : Data.Row) : Earlier.Line :=
  Earlier.mkLine (Data.testerName row) (Data.statusCounts row) (Data.total row).

Definition earlierColumns (cols : Index.Columns) : Earlier.Columns :=
  Earlier.mkColumns (Index.testStoryIdx cols) (Index.descIdx cols) (Index.statusIdx cols).

Definition mapResult {A B : Type} (f : A -> B) (r : Result A) : Result B :=
  match r with
  | Ok a => Ok (f a)
  | TypeError => TypeError
  end.

(** ** The two entry points *)









(** ** [generateHTMLReport]: the percentages of the summary table *)

(** A count as a Number. Counts are array lengths and their sum, integers
    below [2^32], which binary64 holds exactly; the additions of
    [statusCounts.reduce((a, b) => a + b, 0)] are exact on them, so the
    total is the sum of the counts. *)
Definition numberOfNat (n : nat) : float := of_uint63 (Uint63.of_Z (Z.of_nat n)).

(** [(count / total) * 100], in binary64. *)
Definition percentValue (count total : nat) : float :=
  (numberOfNat count / numberOfNat total * 100)%float.

(** [toFixed(1)] looks for the integer [n] for which [n / 10 - x] is as close
    to zero as possible, and takes the larger one when there are two: for
    the value [m * 2^e], the floor of [10 * m * 2^e + 1/2]. *)
Definition tenths (m : positive) (e : Z) : Z :=
  let num := (Zpos m * 2 ^ Z.max e 0)%Z in
  let den := (2 ^ Z.max (- e) 0)%Z in
  ((20 * num + den) / (2 * den))%Z.

(** [m * 2^e < 10^21]: from there on [toFixed] answers as [toString]. *)
Definition below1e21 (m : positive) (e : Z) : bool :=
  (Zpos m * 2 ^ Z.max e 0 <? 10 ^ 21 * 2 ^ Z.max (- e) 0)%Z.

(** The decimal digits of a natural number. *)
Definition decimal (n : Z) : string := NilZero.string_of_uint (N.to_uint (Z.to_N n)).

(** A number of tenths written with its last digit after the point. *)
Definition fixed1 (n : Z) : string :=
  (decimal (n / 10) ++ "." ++ decimal (n mod 10))%string.

(** [x.toFixed(1)]; [None] where the embedding stops: [NaN], the infinities
    and the finite values from [10^21] on. *)
Definition toFixed1 (x : float) : option string :=
  match Prim2SF x with
  | S754_zero _ => Some (fixed1 0)
  | S754_finite s m e =>
      if below1e21 m e
      then Some ((if s then "-" else "") ++ fixed1 (tenths m e))%string
      else None
  | _ => None
  end.

(** [total > 0 ? ((count / total) * 100).toFixed(1) : 0], as the template
    writes it: the text of [toFixed], or the Number [0]. *)
Definition percentText (count total : nat) : option string :=
  if (0 <? total)%nat then toFixed1 (percentValue count total) else Some "0".

(** The percent column, one cell per status of [statusList]. *)
Definition percentCells (counts : list nat) : list (option string) :=
  let total := list_sum counts in
  map (fun count => percentText count total) counts.

(** [n] tenths is the percentage [100 * count / total] rounded to one
    decimal: an integer nearest to [1000 * count / total]. *)
Definition nearestTenths (count total : nat) (n : Z) : Prop :=
  (0 <= n /\ 2 * Z.abs (n * Z.of_nat total - 1000 * Z.of_nat count) <= Z.of_nat total)%Z.

Definition sumZ (l : list Z) : Z := fold_right Z.add 0%Z l.

(** *** Binary64 values *)

(** The record [mrs] stands for [N] counted in units of [W]: the quotient,
    and where the remainder lies with respect to half a unit. *)
Definition represents (W N : Z) (mrs : shr_record) : Prop :=
  (0 < W /\ 0 <= N
   /\ shr_m mrs = N / W
   /\ shr_r mrs = (W <=? 2 * (N mod W))
   /\ shr_s mrs = negb ((N mod W =? 0) || (2 * (N mod W) =? W)))%Z.

(** A finite positive number with a full mantissa. *)
Definition normal (f : spec_float) (m : positive) (e : Z) : Prop :=
  f = S754_finite false m e /\ Zpos (digits2_pos m) = 53%Z.

(** The real number a binary64 value stands for. *)
Definition B2R (f : spec_float) : R :=
  match f with
  | S754_finite s m e => ((if s then -1 else 1) * (IZR (Zpos m) * powerRZ 2 e))%R
  | _ => 0%R
  end.

(** ** Worked inputs *)

Module Samples.
Definition nr100 : Grid := [["Tester"; "Overall Status"]; ["Alice"; ""]].
Definition nr101 : Grid :=
  [["Tester"; "Overall Status"; "Defect"]; ["Alice"; "Failed"; "BUG-1"]].
Definition twoSheets : list (string * option Grid) :=
  [("NR-100", Some nr100); ("NR-101", Some nr101)].
Definition blankTesterSheet : Grid := [["Tester"; "Overall Status"]; [""; "Passed"]].

(** A stand-in for the host's sort: insertion sort on the lower-cased
    names, by code unit. *)
Fixpoint insertByLowerCase (x : string) (l : list string) : list string :=
  match l with
  | [] => [x]
  | y :: l' =>
      if String.leb (toLowerCase x) (toLowerCase y) then x :: l
      else y :: insertByLowerCase x l'
  end.

Definition sortByLowerCase (l : list string) : list string :=
  fold_right insertByLowerCase [] l.

Definition aliceAndBob : list TestRecord :=
  [mkTestRecord "bob" "NR-1" "1" "Passed" "" "";
   mkTestRecord "Alice" "NR-1" "" "Failed" "" "";
   mkTestRecord " Alice" "NR-1" "1" "Passed" "" "";
   mkTestRecord "Alice" "NR-2" "2" "Passed" "" "";
   mkTestRecord "Alice" "NR-1" "2" "Retest" "" ""].
End Samples.

(** * Properties *)

(** ** Strings *)

Lemma truthy_true (s : string) : truthy s = true <-> s <> "".
Proof.
  unfold truthy. rewrite negb_true_iff. split.
  - intros H E. subst s. discriminate.
  - intros H. apply String.eqb_neq. exact H.
Qed.

Lemma truthy_false (s : string) : truthy s = false <-> s = "".
Proof.
  unfold truthy. rewrite negb_false_iff. apply String.eqb_eq.
Qed.

Lemma trimEnd_blank (s : string) : trimEnd s = "" <-> allWhiteSpace s = true.
Proof.
  induction s as [|c s IH]; simpl.
  - tauto.
  - destruct (trimEnd s) eqn:E, (isWhiteSpace c); simpl; split; intros H;
      try discriminate; try reflexivity.
    + apply IH. reflexivity.
    + apply IH in H. discriminate.
Qed.

Lemma trimStart_head (s : string) :
  trimStart s = "" \/ exists c t, trimStart s = String c t /\ isWhiteSpace c = false.
Proof.
  induction s as [|c s IH]; simpl.
  - now left.
  - destruct (isWhiteSpace c) eqn:E.
    + exact IH.
    + right. now exists c, s.
Qed.

Lemma trimStart_blank (s : string) : trimStart s = "" <-> allWhiteSpace s = true.
Proof.
  induction s as [|c s IH]; simpl.
  - tauto.
  - destruct (isWhiteSpace c); simpl.
    + exact IH.
    + split; discriminate.
Qed.

Lemma trim_blank (s : string) : trim s = "" <-> allWhiteSpace s = true.
Proof.
  unfold trim. rewrite trimEnd_blank. split; intros H.
  - destruct (trimStart_head s) as [E | (c & t & E & W)].
    + now apply trimStart_blank.
    + rewrite E in H. simpl in H. rewrite W in H. discriminate.
  - apply trimStart_blank in H. now rewrite H.
Qed.

Lemma trim_not_blank (s : string) : truthy (trim s) = true <-> allWhiteSpace s = false.
Proof.
  rewrite truthy_true, trim_blank. now destruct (allWhiteSpace s).
Qed.

(** ** Arrays *)

Lemma findIndexFrom_none {A} (p : A -> bool) (l : list A) (i : Z) :
  (0 <= i)%Z ->
  findIndexFrom p l i = (-1)%Z <-> (forall x, In x l -> p x = false).
Proof.
  revert i. induction l as [|x l IH]; intros i Hi; simpl.
  - split; [intros _ y [] | reflexivity].
  - destruct (p x) eqn:E.
    + split; [lia |]. intros H. rewrite (H x) in E; [discriminate | now left].
    + rewrite IH by lia. split.
      * intros H y [<- | Hy]; auto.
      * intros H y Hy. apply H. now right.
Qed.

Lemma findIndex_none {A} (p : A -> bool) (l : list A) :
  findIndex p l = (-1)%Z <-> (forall x, In x l -> p x = false).
Proof. apply findIndexFrom_none. lia. Qed.

Lemma findIndexFrom_found {A} (p : A -> bool) (l : list A) (i : Z) :
  (0 <= i)%Z ->
  findIndexFrom p l i <> (-1)%Z ->
  exists pre x post,
    l = pre ++ x :: post /\ p x = true /\ (forall y, In y pre -> p y = false)
    /\ findIndexFrom p l i = (i + Z.of_nat (List.length pre))%Z.
Proof.
  revert i. induction l as [|x l IH]; intros i Hi; simpl.
  - intros H. now contradiction H.
  - destruct (p x) eqn:E.
    + intros _. exists [], x, l. simpl.
      split; [reflexivity | split; [exact E | split; [intros y [] | lia]]].
    + intros H. destruct (IH (i + 1)%Z ltac:(lia) H) as (pre & y & post & -> & Py & Hpre & Hi').
      exists (x :: pre), y, post. simpl.
      split; [reflexivity | split; [exact Py | split]].
      * intros z [<- | Hz]; auto.
      * rewrite Hi'. lia.
Qed.

Lemma findIndex_found {A} (p : A -> bool) (l : list A) :
  findIndex p l <> (-1)%Z ->
  exists pre x post,
    l = pre ++ x :: post /\ p x = true /\ (forall y, In y pre -> p y = false)
    /\ findIndex p l = Z.of_nat (List.length pre).
Proof.
  intros H. destruct (findIndexFrom_found p l 0%Z ltac:(lia) H)
    as (pre & x & post & E & Px & Hpre & Hi).
  exists pre, x, post. repeat split; auto.
Qed.

Lemma findIndexFrom_first {A} (p : A -> bool) (pre : list A) (x : A) (post : list A) (i : Z) :
  (forall y, In y pre -> p y = false) -> p x = true ->
  findIndexFrom p (pre ++ x :: post) i = (i + Z.of_nat (List.length pre))%Z.
Proof.
  revert i. induction pre as [|y pre IH]; intros i Hpre Px; simpl.
  - rewrite Px. lia.
  - rewrite (Hpre y) by now left. rewrite IH; auto.
    + lia.
    + intros z Hz. apply Hpre. now right.
Qed.

Lemma findIndex_first {A} (p : A -> bool) (pre : list A) (x : A) (post : list A) :
  (forall y, In y pre -> p y = false) -> p x = true ->
  findIndex p (pre ++ x :: post) = Z.of_nat (List.length pre).
Proof. intros. unfold findIndex. now rewrite findIndexFrom_first. Qed.

Lemma get_middle {A} (pre : list A) (x : A) (post : list A) :
  get (pre ++ x :: post) (Z.of_nat (List.length pre)) = Some x.
Proof.
  unfold get. destruct (Z.ltb_spec (Z.of_nat (List.length pre)) 0); [lia |].
  rewrite Nat2Z.id. rewrite nth_error_app2 by lia.
  now rewrite Nat.sub_diag.
Qed.

Lemma get_out_of_range {A} (l : list A) (i : Z) :
  (i < 0 \/ Z.of_nat (List.length l) <= i)%Z -> get l i = None.
Proof.
  intros H. unfold get. destruct (Z.ltb_spec i 0); [reflexivity |].
  apply nth_error_None. lia.
Qed.

Lemma collect_app {A B} (f : A -> option B) (l1 l2 : list A) :
  collect f (l1 ++ l2) = collect f l1 ++ collect f l2.
Proof.
  induction l1 as [|x l1 IH]; simpl; [reflexivity |].
  destruct (f x); simpl; now rewrite IH.
Qed.

Lemma collect_In {A B} (f : A -> option B) (l : list A) (y : B) :
  In y (collect f l) <-> exists x, In x l /\ f x = Some y.
Proof.
  induction l as [|x l IH]; simpl.
  - split; [intros [] | intros (x & [] & _)].
  - destruct (f x) eqn:E; simpl; rewrite IH; split.
    + intros [<- | (z & Hz & Fz)].
      * exists x. split; [now left | exact E].
      * exists z. split; [now right | exact Fz].
    + intros (z & [<- | Hz] & Fz).
      * left. congruence.
      * right. now exists z.
    + intros (z & Hz & Fz). exists z. split; [now right | exact Fz].
    + intros (z & [<- | Hz] & Fz); [congruence | now exists z].
Qed.

Lemma collect_length {A B} (f : A -> option B) (l : list A) :
  List.length l
  = (List.length (collect f l)
     + List.length (filter (fun x => match f x with None => true | Some _ => false end) l))%nat.
Proof.
  induction l as [|x l IH]; simpl; [reflexivity |].
  destruct (f x); simpl; lia.
Qed.

(** ** The sheet walk *)

Lemma cell_out_of_range (row : Row) (i : Z) :
  (i < 0 \/ Z.of_nat (List.length row) <= i)%Z -> cell row i = "".
Proof. intros H. unfold cell. now rewrite get_out_of_range. Qed.

Lemma processRow_blank (sheetName : string) (cols : HeaderColumns) (row : Row) :
  blankTester cols row = true -> processRow sheetName cols row = None.
Proof.
  unfold blankTester, processRow. intros H.
  apply trim_blank in H. rewrite H. reflexivity.
Qed.

Lemma processRow_some (sheetName : string) (cols : HeaderColumns) (row : Row) (r : TestRecord) :
  processRow sheetName cols row = Some r ->
  blankTester cols row = false
  /\ r = {| tester := cell row (testerIdx cols);
            jiraTicket := sheetName;
            iteration := iterationLabel (rawIteration sheetName cols row);
            overallStatus := statusOf (cell row (statusIdx cols));
            defect := optionalCell row (defectIdx cols);
            comments := optionalCell row (commentsIdx cols) |}.
Proof.
  unfold processRow, blankTester.
  destruct (truthy (trim (cell row (testerIdx cols)))) eqn:E; simpl; [| discriminate].
  intros [= <-]. split; [| reflexivity]. now apply trim_not_blank.
Qed.

Lemma processRow_none (sheetName : string) (cols : HeaderColumns) (row : Row) :
  processRow sheetName cols row = None <-> blankTester cols row = true.
Proof.
  split; [| apply processRow_blank].
  destruct (processRow sheetName cols row) eqn:E; [discriminate |]. intros _.
  unfold processRow in E.
  destruct (truthy (trim (cell row (testerIdx cols)))) eqn:T; simpl in E; [discriminate |].
  apply truthy_false, trim_blank in T. exact T.
Qed.

(** A grid whose header row has been found, cut at that row. *)
Lemma header_located (rows : Grid) :
  headerRowIdx rows <> (-1)%Z ->
  exists above header below,
    rows = above ++ header :: below
    /\ isHeaderRow header = true
    /\ (forall row, In row above -> isHeaderRow row = false)
    /\ headerRowIdx rows = Z.of_nat (List.length above).
Proof. apply findIndex_found. Qed.

Lemma located_parts (above : Grid) (header : Row) (below : Grid) :
  isHeaderRow header = true ->
  (forall row, In row above -> isHeaderRow row = false) ->
  let rows := above ++ header :: below in
  headerRowIdx rows = Z.of_nat (List.length above)
  /\ headerOf rows = header
  /\ dataRows rows = below.
Proof.
  intros Hh Ha rows.
  assert (E : headerRowIdx rows = Z.of_nat (List.length above))
    by (apply findIndex_first; assumption).
  split; [exact E |]. split.
  - unfold headerOf. rewrite E. unfold rows. now rewrite get_middle.
  - unfold dataRows, sliceFrom. rewrite E.
    replace (Z.to_nat (Z.of_nat (List.length above) + 1)) with (List.length above + 1)%nat by lia.
    unfold rows. rewrite skipn_app.
    rewrite skipn_all2 by lia.
    replace (List.length above + 1 - List.length above)%nat with 1%nat by lia.
    reflexivity.
Qed.

Lemma processSheet_located (sheetName : string) (above : Grid) (header : Row) (below : Grid) :
  isHeaderRow header = true ->
  (forall row, In row above -> isHeaderRow row = false) ->
  processSheet sheetName (Some (above ++ header :: below))
  = (mkSummary sheetName (Z.of_nat (List.length below)) true,
     collect (processRow sheetName (locateColumns header)) below).
Proof.
  intros Hh Ha.
  destruct (located_parts above header below Hh Ha) as (Ei & Eh & Ed).
  unfold processSheet.
  destruct (above ++ header :: below) eqn:Erows.
  - destruct above; discriminate.
  - rewrite <- Erows in *. rewrite Ei, Eh, Ed.
    destruct (Z.eqb_spec (Z.of_nat (List.length above)) (-1)); [lia |].
    f_equal. f_equal. rewrite length_app. simpl. lia.
Qed.

Lemma processSheet_no_header (sheetName : string) (values : option Grid) :
  values = None \/ values = Some []
  \/ (exists rows, values = Some rows /\ headerRowIdx rows = (-1)%Z) ->
  processSheet sheetName values = (mkSummary sheetName 0 false, []).
Proof.
  intros [-> | [-> | (rows & -> & E)]]; try reflexivity.
  unfold processSheet. destruct rows; [reflexivity |]. now rewrite E.
Qed.

(** Cutting a list at two places, the first above the second. *)
Lemma split_twice {A} (l1 : list A) (x : A) (l2 m1 : list A) (y : A) (m2 : list A) :
  l1 ++ x :: l2 = m1 ++ y :: m2 ->
  (List.length l1 < List.length m1)%nat ->
  exists mid, m1 = l1 ++ x :: mid /\ l2 = mid ++ y :: m2.
Proof.
  revert m1. induction l1 as [|a l1 IH]; intros m1 E L.
  - destruct m1 as [|b m1]; simpl in *; [lia |].
    injection E as <- ->. now exists m1.
  - destruct m1 as [|b m1]; simpl in *; [lia |].
    injection E as <- E. destruct (IH m1 E ltac:(lia)) as (mid & -> & ->).
    now exists mid.
Qed.

Lemma fetch_fold (sheets : list (string * option Grid)) (st : Reporter) :
  allData (fold_left fetchStep sheets st) = allData st ++ flat_map recordsOf sheets
  /\ sheetSummaries (fold_left fetchStep sheets st)
     = sheetSummaries st ++ flat_map summariesOf sheets.
Proof.
  revert st. induction sheets as [|[sheetName values] sheets IH]; intros st;
    cbn [fold_left flat_map].
  - now rewrite !app_nil_r.
  - destruct (IH (fetchStep st (sheetName, values))) as (-> & ->).
    unfold recordsOf, summariesOf, sheetRecords, sheetSummary, fetchStep.
    cbn [fst snd].
    destruct (isIndexName sheetName).
    + destruct values as [rows|]; [destruct (1 <? Z.of_nat (List.length rows))%Z |];
        simpl; auto.
    + destruct (processSheet sheetName values) as [summary records]. simpl.
      now rewrite <- !app_assoc.
Qed.

Lemma fetch_allData (sheets : list (string * option Grid)) :
  allData (fetchAllSheetsData sheets) = flat_map recordsOf sheets.
Proof. apply (fetch_fold sheets (mkReporter [] [] None)). Qed.

Lemma fetch_sheetSummaries (sheets : list (string * option Grid)) :
  sheetSummaries (fetchAllSheetsData sheets) = flat_map summariesOf sheets.
Proof. apply (fetch_fold sheets (mkReporter [] [] None)). Qed.

(** Where an emitted record comes from. *)
Lemma sheetRecords_origin (sheetName : string) (values : option Grid) (r : TestRecord) :
  In r (sheetRecords sheetName values) ->
  exists rows row,
    values = Some rows /\ headerRowIdx rows <> (-1)%Z /\ In row (dataRows rows)
    /\ processRow sheetName (locateColumns (headerOf rows)) row = Some r.
Proof.
  unfold sheetRecords, processSheet.
  destruct values as [[|row0 rows]|]; simpl; try tauto.
  set (grid := row0 :: rows).
  destruct (Z.eqb_spec (headerRowIdx grid) (-1)); simpl; [tauto |].
  intros H. apply collect_In in H. destruct H as (row & Hin & E).
  now exists grid, row.
Qed.

Lemma allData_origin (sheets : list (string * option Grid)) (r : TestRecord) :
  In r (allData (fetchAllSheetsData sheets)) ->
  exists sheetName rows row,
    In (sheetName, Some rows) sheets /\ isIndexName sheetName = false
    /\ headerRowIdx rows <> (-1)%Z /\ In row (dataRows rows)
    /\ processRow sheetName (locateColumns (headerOf rows)) row = Some r.
Proof.
  rewrite fetch_allData, in_flat_map. intros ([sheetName values] & Hs & Hr).
  unfold recordsOf in Hr. simpl in Hr.
  destruct (isIndexName sheetName) eqn:E; [contradiction |].
  apply sheetRecords_origin in Hr. destruct Hr as (rows & row & -> & Hh & Hd & Hp).
  now exists sheetName, rows, row.
Qed.

Lemma blankTester_cases (cols : HeaderColumns) (row : Row) :
  blankTester cols row = true
  <-> (get row (testerIdx cols) = None
       \/ exists c, get row (testerIdx cols) = Some c /\ allWhiteSpace c = true).
Proof.
  unfold blankTester, cell. destruct (get row (testerIdx cols)) as [c|]; simpl; split.
  - intros H. right. now exists c.
  - intros [H | (c' & [= <-] & H)]; [discriminate | exact H].
  - now left.
  - reflexivity.
Qed.

Lemma record_tester_not_blank (sheets : list (string * option Grid)) (r : TestRecord) :
  In r (allData (fetchAllSheetsData sheets)) -> allWhiteSpace (tester r) = false.
Proof.
  intros H. apply allData_origin in H.
  destruct H as (sheetName & rows & row & _ & _ & _ & _ & Hp).
  apply processRow_some in Hp. destruct Hp as (Hb & ->). exact Hb.
Qed.

(** C1. A data row below the header whose tester cell is out of range, empty
    or white space only produces no record: the loop turn ends in [continue],
    the sheet's records are those of the sheet without that row, and no
    record of any fetch has a blank tester. *)
Theorem blank_tester_row_skipped
  (sheetName : string) (above : Grid) (row : Row) (below : Grid) :
  let rows := above ++ row :: below in
  let cols := locateColumns (headerOf rows) in
  (0 <= headerRowIdx rows < Z.of_nat (List.length above))%Z ->
  (get row (testerIdx cols) = None
   \/ exists c, get row (testerIdx cols) = Some c /\ allWhiteSpace c = true) ->
  processRow sheetName cols row = None
  /\ sheetRecords sheetName (Some rows) = sheetRecords sheetName (Some (above ++ below))
  /\ (forall before after,
        allData (fetchAllSheetsData (before ++ (sheetName, Some rows) :: after))
        = allData (fetchAllSheetsData
                     (before ++ (sheetName, Some (above ++ below)) :: after)))
  /\ (forall sheets r,
        In r (allData (fetchAllSheetsData sheets)) -> allWhiteSpace (tester r) = false).
Proof.
  intros rows cols Hidx Hblank.
  apply blankTester_cases in Hblank.
  split; [now apply processRow_blank |].
  assert (Same : sheetRecords sheetName (Some rows)
                 = sheetRecords sheetName (Some (above ++ below)));
    [| split; [exact Same | split; [| intros sheets r; apply record_tester_not_blank]]].
  2: { intros before after. rewrite !fetch_allData, !flat_map_app. cbn [flat_map].
       unfold recordsOf. cbn [fst snd]. now rewrite Same. }
  destruct (header_located rows ltac:(lia)) as (a & h & b & E & Hh & Ha & Ei).
  destruct (split_twice a h b above row below (eq_sym E) ltac:(lia))
    as (mid & Eabove & Eb).
  assert (Ecols : cols = locateColumns h).
  { unfold cols. rewrite E.
    destruct (located_parts a h b Hh Ha) as (_ & Eh & _). now rewrite Eh. }
  unfold sheetRecords. rewrite E, Eb, Eabove.
  rewrite <- app_assoc, <- app_comm_cons.
  rewrite !(processSheet_located sheetName a h) by assumption.
  cbn [snd]. rewrite !collect_app. cbn [collect].
  rewrite <- Ecols, (processRow_blank sheetName cols row Hblank). reflexivity.
Qed.

Lemma blank_tester_row_skipped_witness :
  sheetRecords "NR-1" (Some [["Tester"; "Overall Status"]; ["  "; "Passed"]; ["Bob"; "Failed"]])
  = sheetRecords "NR-1" (Some [["Tester"; "Overall Status"]; ["Bob"; "Failed"]]).
Proof.
  apply (blank_tester_row_skipped "NR-1" [["Tester"; "Overall Status"]]
           ["  "; "Passed"] [["Bob"; "Failed"]]).
  - vm_compute. split; [discriminate | reflexivity].
  - right. exists "  ". split; reflexivity.
Defined.

Lemma statusOf_cases (raw : string) :
  statusOf raw <> ""
  /\ (allWhiteSpace raw = true -> statusOf raw = "Not Started")
  /\ (allWhiteSpace raw = false -> statusOf raw = trim raw).
Proof.
  unfold statusOf. destruct (truthy (trim raw)) eqn:E.
  - apply trim_not_blank in E as E'. rewrite E'.
    split; [now apply truthy_true |]. split; [discriminate | reflexivity].
  - apply truthy_false, trim_blank in E. rewrite E.
    split; [discriminate |]. split; [reflexivity | discriminate].
Qed.

(** C2. Every emitted record has a non-empty [overallStatus]: it comes from
    a data row whose raw status cell, when blank (empty, white space only,
    the status column not found, or the row too short), gives
    ["Not Started"], and otherwise gives the trimmed cell. *)
Theorem overallStatus_never_empty
  (sheets : list (string * option Grid)) (r : TestRecord) :
  In r (allData (fetchAllSheetsData sheets)) ->
  overallStatus r <> ""
  /\ exists sheetName rows row,
       In (sheetName, Some rows) sheets
       /\ In row (dataRows rows)
       /\ processRow sheetName (locateColumns (headerOf rows)) row = Some r
       /\ let i := statusIdx (locateColumns (headerOf rows)) in
          (allWhiteSpace (cell row i) = true -> overallStatus r = "Not Started")
          /\ (allWhiteSpace (cell row i) = false -> overallStatus r = trim (cell row i))
          /\ (i = (-1)%Z \/ (Z.of_nat (List.length row) <= i)%Z ->
              overallStatus r = "Not Started").
Proof.
  intros H. apply allData_origin in H.
  destruct H as (sheetName & rows & row & Hs & _ & _ & Hd & Hp).
  apply processRow_some in Hp as Hr. destruct Hr as (_ & Er).
  set (i := statusIdx (locateColumns (headerOf rows))) in *.
  assert (Es : overallStatus r = statusOf (cell row i)) by now rewrite Er.
  destruct (statusOf_cases (cell row i)) as (Hne & Hblank & Hfull).
  rewrite Es. split; [exact Hne |].
  exists sheetName, rows, row. repeat split; auto.
  intros Hout. apply Hblank. rewrite cell_out_of_range; [reflexivity | lia].
Qed.

Lemma overallStatus_never_empty_witness :
  overallStatus (mkTestRecord "Alice" "NR-100" "" "Not Started" "" "") <> ""
  /\ exists sheetName rows row,
       In (sheetName, Some rows) Samples.twoSheets
       /\ In row (dataRows rows)
       /\ processRow sheetName (locateColumns (headerOf rows)) row
          = Some (mkTestRecord "Alice" "NR-100" "" "Not Started" "" "")
       /\ ((allWhiteSpace (cell row (statusIdx (locateColumns (headerOf rows)))) = true ->
            overallStatus (mkTestRecord "Alice" "NR-100" "" "Not Started" "" "") = "Not Started")
           /\ (allWhiteSpace (cell row (statusIdx (locateColumns (headerOf rows)))) = false ->
               overallStatus (mkTestRecord "Alice" "NR-100" "" "Not Started" "" "")
               = trim (cell row (statusIdx (locateColumns (headerOf rows)))))
           /\ (statusIdx (locateColumns (headerOf rows)) = (-1)%Z
               \/ (Z.of_nat (List.length row) <= statusIdx (locateColumns (headerOf rows)))%Z ->
               overallStatus (mkTestRecord "Alice" "NR-100" "" "Not Started" "" "") = "Not Started")).
Proof.
  apply (overallStatus_never_empty Samples.twoSheets).
  vm_compute. left. reflexivity.
Defined.

(** C10. When no cell of the located header row contains "overall status"
    (case-insensitively), every record of the sheet has [overallStatus]
    ["Not Started"], whatever the data rows hold. *)
Theorem no_status_column_gives_not_started
  (sheetName : string) (rows : Grid) (r : TestRecord) :
  (forall c, In c (headerOf rows) -> includes (toLowerCase c) "overall status" = false) ->
  In r (sheetRecords sheetName (Some rows)) ->
  statusIdx (locateColumns (headerOf rows)) = (-1)%Z
  /\ overallStatus r = "Not Started".
Proof.
  intros Hnone Hr.
  assert (Ei : statusIdx (locateColumns (headerOf rows)) = (-1)%Z).
  { apply findIndex_none. intros c Hc. unfold hasLabel.
    rewrite (Hnone c Hc). apply andb_false_r. }
  split; [exact Ei |].
  apply sheetRecords_origin in Hr.
  destruct Hr as (rows' & row & [= <-] & _ & _ & Hp).
  apply processRow_some in Hp. destruct Hp as (_ & ->).
  cbn [overallStatus]. rewrite Ei. reflexivity.
Qed.

Lemma no_status_column_gives_not_started_witness :
  statusIdx (locateColumns (headerOf [["Tester"; "Result"]; ["Alice"; "Passed"]])) = (-1)%Z
  /\ overallStatus (mkTestRecord "Alice" "NR-7" "" "Not Started" "" "") = "Not Started".
Proof.
  apply (no_status_column_gives_not_started "NR-7" [["Tester"; "Result"]; ["Alice"; "Passed"]]).
  - intros c H. vm_compute in H. destruct H as [<- | [<- | []]]; reflexivity.
  - vm_compute. left. reflexivity.
Defined.

(** C7, as the claim states it, fails: under a header the sheet below has
    one row, skipped for its blank tester, and the summary still counts it. *)
Lemma summary_counts_skipped_row :
  sheetSummary "NR-1" (Some Samples.blankTesterSheet) = mkSummary "NR-1" 1 true
  /\ sheetRecords "NR-1" (Some Samples.blankTesterSheet) = []
  /\ rowCount (sheetSummary "NR-1" (Some Samples.blankTesterSheet))
     <> Z.of_nat (List.length (sheetRecords "NR-1" (Some Samples.blankTesterSheet))).
Proof. repeat split. discriminate. Qed.

(** C7, amended. The summary's row count is the number of rows below the
    header row, taken before any row is looked at: the records emitted plus
    the rows skipped for a blank tester. A sheet without rows or without a
    header row has count 0, [headerFound] false and no record. *)
Theorem summary_counts_rows_below_header (sheetName : string) (values : option Grid) :
  let summary := sheetSummary sheetName values in
  let records := sheetRecords sheetName values in
  name summary = sheetName
  /\ (values = None \/ values = Some []
      \/ (exists rows, values = Some rows /\ headerRowIdx rows = (-1)%Z) ->
      rowCount summary = 0%Z /\ headerFound summary = false /\ records = [])
  /\ (forall rows,
        values = Some rows -> headerRowIdx rows <> (-1)%Z ->
        headerFound summary = true
        /\ rowCount summary = Z.of_nat (List.length (dataRows rows))
        /\ rowCount summary
           = (Z.of_nat (List.length records)
              + Z.of_nat (List.length
                            (filter (blankTester (locateColumns (headerOf rows)))
                                    (dataRows rows))))%Z
        /\ (Z.of_nat (List.length records) <= rowCount summary)%Z).
Proof.
  intros summary records. unfold summary, records, sheetSummary, sheetRecords.
  split; [| split].
  - destruct values as [[|row rows]|]; simpl; try reflexivity.
    now destruct (headerRowIdx (row :: rows) =? -1)%Z.
  - intros H. now rewrite (processSheet_no_header sheetName values H).
  - intros rows -> Hh.
    destruct (header_located rows Hh) as (a & h & b & -> & Hhead & Ha & _).
    destruct (located_parts a h b Hhead Ha) as (_ & Eh & Ed).
    rewrite Eh, Ed, (processSheet_located sheetName a h b Hhead Ha).
    cbn [fst snd headerFound rowCount].
    set (f := processRow sheetName (locateColumns h)).
    assert (L := collect_length f b).
    assert (F : filter (fun x => match f x with None => true | Some _ => false end) b
                = filter (blankTester (locateColumns h)) b).
    { apply filter_ext. intros row. unfold f.
      destruct (processRow sheetName (locateColumns h) row) eqn:E.
      - apply processRow_some in E. now destruct E as (-> & _).
      - apply processRow_none in E. now rewrite E. }
    rewrite F in L. repeat split; lia.
Qed.

Lemma summary_counts_rows_below_header_witness :
  headerFound (sheetSummary "NR-1" (Some Samples.blankTesterSheet)) = true
  /\ rowCount (sheetSummary "NR-1" (Some Samples.blankTesterSheet))
     = Z.of_nat (List.length (dataRows Samples.blankTesterSheet))
  /\ rowCount (sheetSummary "NR-1" (Some Samples.blankTesterSheet))
     = (Z.of_nat (List.length (sheetRecords "NR-1" (Some Samples.blankTesterSheet)))
        + Z.of_nat (List.length
                      (filter (blankTester (locateColumns (headerOf Samples.blankTesterSheet)))
                              (dataRows Samples.blankTesterSheet))))%Z
  /\ (Z.of_nat (List.length (sheetRecords "NR-1" (Some Samples.blankTesterSheet)))
      <= rowCount (sheetSummary "NR-1" (Some Samples.blankTesterSheet)))%Z.
Proof.
  apply (summary_counts_rows_below_header "NR-1" (Some Samples.blankTesterSheet)).
  - reflexivity.
  - vm_compute. discriminate.
Defined.

(** ** The iteration label *)

Lemma string_app_assoc (a b c : string) : ((a ++ b) ++ c = a ++ (b ++ c))%string.
Proof. induction a as [|x a IH]; simpl; [reflexivity | now rewrite IH]. Qed.




















(** ** Insertion order *)

Lemma filter_filter {A} (p q : A -> bool) (l : list A) :
  filter p (filter q l) = filter (fun x => q x && p x) l.
Proof.
  induction l as [|x l IH]; simpl; [reflexivity |].
  destruct (q x); simpl; [destruct (p x) |]; now rewrite IH.
Qed.

Lemma filter_swap {A} (p q : A -> bool) (l : list A) :
  filter p (filter q l) = filter q (filter p l).
Proof.
  rewrite !filter_filter. apply filter_ext. intros x. apply andb_comm.
Qed.

Lemma firstSeen_filter (p : string -> bool) (l : list string) :
  firstSeen (filter p l) = filter p (firstSeen l).
Proof.
  induction l as [|x l IH]; simpl; [reflexivity |].
  destruct (p x) eqn:E; simpl.
  - rewrite IH. f_equal. apply filter_swap.
  - rewrite IH, filter_filter. apply filter_ext_in. intros y _.
    destruct (String.eqb_spec y x) as [-> |]; simpl.
    + now rewrite E.
    + reflexivity.
Qed.

Lemma firstSeen_In (l : list string) (x : string) : In x (firstSeen l) <-> In x l.
Proof.
  induction l as [|y l IH]; simpl; [tauto |].
  rewrite filter_In, IH, negb_true_iff, String.eqb_neq.
  destruct (string_dec y x); [tauto |]. split.
  - intros [H | [H _]]; auto.
  - intros [H | H]; auto.
Qed.

Lemma firstSeen_NoDup (l : list string) : NoDup (firstSeen l).
Proof.
  induction l as [|y l IH]; simpl; constructor.
  - rewrite filter_In, String.eqb_refl. intros [_ H]. discriminate.
  - now apply NoDup_filter.
Qed.

Lemma has_In (s : JsSet.t) (x : string) : JsSet.has s x = true <-> In x s.
Proof.
  unfold JsSet.has. rewrite existsb_exists. split.
  - intros (y & Hy & E). apply String.eqb_eq in E. now subst.
  - intros H. exists x. split; [exact H | apply String.eqb_refl].
Qed.

Lemma has_ext (s1 s2 : JsSet.t) (x : string) :
  (In x s1 <-> In x s2) -> JsSet.has s1 x = JsSet.has s2 x.
Proof.
  intros H. apply eq_true_iff_eq. now rewrite !has_In.
Qed.

Lemma has_app (s1 s2 : JsSet.t) (x : string) :
  JsSet.has (s1 ++ s2) x = JsSet.has s1 x || JsSet.has s2 x.
Proof. apply existsb_app. Qed.

Lemma add_fold (l : list string) (acc : JsSet.t) :
  fold_left JsSet.add l acc
  = acc ++ firstSeen (filter (fun x => negb (JsSet.has acc x)) l).
Proof.
  revert acc. induction l as [|x l IH]; intros acc; simpl.
  - now rewrite app_nil_r.
  - rewrite IH. unfold JsSet.add. destruct (JsSet.has acc x) eqn:E; simpl.
    + reflexivity.
    + rewrite <- app_assoc. simpl. do 2 f_equal.
      rewrite <- firstSeen_filter, filter_filter. f_equal.
      apply filter_ext. intros y. rewrite has_app. unfold JsSet.has at 2. simpl.
      rewrite orb_false_r, negb_orb. reflexivity.
Qed.

(** [new Set(l)] lists the distinct elements of [l] as first seen. *)
Lemma ofList_firstSeen (l : list string) : JsSet.ofList l = firstSeen l.
Proof.
  unfold JsSet.ofList. rewrite add_fold.
  assert (E : filter (fun x => negb (JsSet.has [] x)) l = l)
    by (induction l as [|x l IH]; simpl; [reflexivity | now f_equal]).
  now rewrite E.
Qed.

Lemma pushIfNew_fold (set init : list string) :
  NoDup set ->
  fold_left pushIfNew set init
  = init ++ filter (fun s => negb (JsSet.has init s)) set.
Proof.
  revert init. induction set as [|s set IH]; intros init Hnd; simpl.
  - now rewrite app_nil_r.
  - inversion Hnd as [|? ? Hnotin Hnd']; subst.
    rewrite (IH _ Hnd'). unfold pushIfNew. fold (JsSet.has init s).
    destruct (JsSet.has init s) eqn:E; simpl.
    + reflexivity.
    + rewrite <- app_assoc. simpl. do 2 f_equal.
      apply filter_ext_in. intros y Hy. rewrite has_app. unfold JsSet.has at 2. simpl.
      rewrite orb_false_r.
      destruct (String.eqb_spec y s) as [-> |]; [contradiction |].
      now rewrite orb_false_r.
Qed.

Lemma has_filter (p : string -> bool) (l : list string) (x : string) :
  JsSet.has (filter p l) x = p x && JsSet.has l x.
Proof.
  apply eq_true_iff_eq. rewrite andb_true_iff, !has_In, filter_In. tauto.
Qed.

Lemma truthy_statuses (rows : list TestRecord) :
  (forall r, In r rows -> overallStatus r <> "") ->
  filter truthy (map overallStatus rows) = map overallStatus rows.
Proof.
  induction rows as [|r rows IH]; intros H; simpl; [reflexivity |].
  assert (E : truthy (overallStatus r) = true) by (apply truthy_true, H; now left).
  rewrite E, IH; [reflexivity |]. intros r' Hr'. apply H. now right.
Qed.

Lemma statusList_canonical_order (rows : list TestRecord) :
  (forall r, In r rows -> overallStatus r <> "") ->
  let statuses := map overallStatus rows in
  statusList rows
  = filter (fun s => existsb (String.eqb s) statuses) statusOrder
    ++ filter (fun s => negb (existsb (String.eqb s) statusOrder)) (firstSeen statuses)
  /\ NoDup (firstSeen statuses)
  /\ (forall s, In s (firstSeen statuses) <-> In s statuses).
Proof.
  intros Hne statuses.
  assert (Eset : statusSet rows = firstSeen statuses).
  { unfold statusSet. rewrite truthy_statuses by assumption. apply ofList_firstSeen. }
  assert (Ehas : forall s, JsSet.has (firstSeen statuses) s = existsb (String.eqb s) statuses).
  { intros s. apply has_ext, firstSeen_In. }
  split; [| split; [apply firstSeen_NoDup | intros s; apply firstSeen_In]].
  unfold statusList. rewrite Eset, pushIfNew_fold by apply firstSeen_NoDup.
  f_equal.
  - apply filter_ext. exact Ehas.
  - apply filter_ext_in. intros s Hs. rewrite has_filter.
    apply has_In in Hs. rewrite Hs. reflexivity.
Qed.

(** C3. The status list is the canonical statuses that occur among the
    records, in canonical order, followed by the other distinct statuses in
    the order first seen; a canonical status is listed exactly when it
    occurs. *)
Theorem statusList_canonical_then_first_seen (rows : list TestRecord) :
  (forall r, In r rows -> overallStatus r <> "") ->
  let statuses := map overallStatus rows in
  statusList rows
  = filter (fun s => existsb (String.eqb s) statuses) statusOrder
    ++ filter (fun s => negb (existsb (String.eqb s) statusOrder)) (firstSeen statuses)
  /\ NoDup (firstSeen statuses)
  /\ (forall s, In s (firstSeen statuses) <-> In s statuses)
  /\ (forall s, In s statusOrder -> (In s (statusList rows) <-> In s statuses)).
Proof.
  intros Hne statuses.
  destruct (statusList_canonical_order rows Hne) as (E & Hnd & Hin).
  fold statuses in E, Hnd, Hin.
  split; [exact E |]. split; [exact Hnd |]. split; [exact Hin |].
  intros s Hs. rewrite E, in_app_iff, !filter_In, Hin.
  fold (JsSet.has statuses s). fold (JsSet.has statusOrder s).
  rewrite has_In, negb_true_iff.
  apply has_In in Hs as Hs'. rewrite Hs'. intuition discriminate.
Qed.

Lemma statusList_canonical_then_first_seen_witness :
  statusList [mkTestRecord "Ann" "NR-1" "" "Retest" "" "";
              mkTestRecord "Ann" "NR-2" "" "Not Started" "" "";
              mkTestRecord "Bob" "NR-1" "" "Passed" "" "";
              mkTestRecord "Bob" "NR-2" "" "On Hold" "" "";
              mkTestRecord "Bob" "NR-3" "" "Retest" "" ""]
  = ["Passed"; "Not Started"; "Retest"; "On Hold"].
Proof.
  refine (eq_trans (proj1 (statusList_canonical_then_first_seen _ _)) _).
  - intros r H. simpl in H.
    destruct H as [<- | [<- | [<- | [<- | [<- | []]]]]]; discriminate.
  - vm_compute. reflexivity.
Defined.

(** ** Maps in insertion order *)

Section MapFacts.
Context {V : Type}.
Implicit Types (m : JsMap.t V) (k : string) (v : V).

Lemma get_set_same m k v : JsMap.get (JsMap.set m k v) k = Some v.
Proof.
  induction m as [|[k' v'] m IH]; simpl.
  - now rewrite String.eqb_refl.
  - destruct (k' =? k) eqn:E; simpl.
    + now rewrite String.eqb_refl.
    + now rewrite E.
Qed.

Lemma get_set_other m k k' v :
  k <> k' -> JsMap.get (JsMap.set m k v) k' = JsMap.get m k'.
Proof.
  intros Hk. apply String.eqb_neq in Hk.
  induction m as [|[k0 v0] m IH]; simpl.
  - now rewrite Hk.
  - destruct (String.eqb_spec k0 k) as [-> | Hne]; simpl.
    + now rewrite Hk.
    + now destruct (k0 =? k').
Qed.

Lemma set_set m k v v' : JsMap.set (JsMap.set m k v) k v' = JsMap.set m k v'.
Proof.
  induction m as [|[k0 v0] m IH]; simpl.
  - now rewrite String.eqb_refl.
  - destruct (k0 =? k) eqn:E; simpl.
    + now rewrite String.eqb_refl.
    + now rewrite E, IH.
Qed.

Lemma has_keys m k : JsMap.has m k = JsSet.has (JsMap.keys m) k.
Proof.
  unfold JsMap.has, JsSet.has, JsMap.keys.
  induction m as [|[k0 v0] m IH]; simpl; [reflexivity |].
  rewrite (String.eqb_sym k k0). now destruct (k0 =? k).
Qed.

Lemma keys_set m k v :
  JsMap.keys (JsMap.set m k v) = JsSet.add (JsMap.keys m) k.
Proof.
  unfold JsSet.add. rewrite <- has_keys. unfold JsMap.has, JsMap.keys.
  induction m as [|[k0 v0] m IH]; simpl; [reflexivity |].
  destruct (String.eqb_spec k0 k) as [-> | Hne]; simpl; [reflexivity |].
  rewrite IH. now destruct (JsMap.get m k).
Qed.

Lemma get_In m k v : JsMap.get m k = Some v -> In (k, v) m.
Proof.
  induction m as [|[k0 v0] m IH]; simpl; [discriminate |].
  destruct (String.eqb_spec k0 k) as [-> | Hne].
  - intros [= ->]. now left.
  - intros H. right. now apply IH.
Qed.

Lemma get_keys m k : In k (JsMap.keys m) <-> exists v, JsMap.get m k = Some v.
Proof.
  rewrite <- has_In, <- has_keys. unfold JsMap.has.
  destruct (JsMap.get m k) as [v|]; split.
  - intros _. now exists v.
  - reflexivity.
  - discriminate.
  - intros (v & H). discriminate.
Qed.

End MapFacts.

(** ** Failure *)

Lemma mapM_Ok {A B} (f : A -> Result B) (l : list A) (ys : list B) :
  mapM f l = Ok ys ->
  forall y, In y ys <-> exists x, In x l /\ f x = Ok y.
Proof.
  revert ys. induction l as [|x l IH]; intros ys; simpl.
  - intros [= <-] y. split; [intros [] | intros (x & [] & _)].
  - destruct (f x) as [y0|] eqn:E; simpl; [| discriminate].
    destruct (mapM f l) as [ys0|]; simpl; [| discriminate].
    intros [= <-] y. simpl. rewrite (IH ys0 eq_refl). split.
    + intros [<- | (z & Hz & Fz)].
      * exists x. split; [now left | exact E].
      * exists z. split; [now right | exact Fz].
    + intros (z & [<- | Hz] & Fz).
      * left. congruence.
      * right. now exists z.
Qed.

Lemma mapM_total {A B} (f : A -> Result B) (l : list A) :
  (forall x, In x l -> exists y, f x = Ok y) -> exists ys, mapM f l = Ok ys.
Proof.
  induction l as [|x l IH]; intros H; simpl.
  - now exists [].
  - destruct (H x) as (y & ->); [now left |]. simpl.
    destruct IH as (ys & ->); [intros z Hz; apply H; now right |]. simpl.
    now exists (y :: ys).
Qed.

(** ** Grouping *)

Lemma addIteration_set (m : JsMap.t JsSet.t) (row : TestRecord) :
  addIteration m row
  = JsMap.set m (jiraTicket row)
      (JsSet.add (match JsMap.get m (jiraTicket row) with Some s => s | None => [] end)
                 (iterationOrOne row)).
Proof.
  unfold addIteration, JsMap.has.
  destruct (JsMap.get m (jiraTicket row)) as [s|] eqn:E; simpl.
  - now rewrite E.
  - now rewrite get_set_same, set_set.
Qed.

Lemma addIteration_get (rows : list TestRecord) (m : JsMap.t JsSet.t) (t : string) :
  JsMap.get (fold_left addIteration rows m) t
  = let labels := map iterationOrOne (recordsOfTicket t rows) in
    match JsMap.get m t with
    | Some s => Some (fold_left JsSet.add labels s)
    | None =>
        match labels with
        | [] => None
        | _ => Some (fold_left JsSet.add labels [])
        end
    end.
Proof.
  revert m. induction rows as [|row rows IH]; intros m; cbn [fold_left].
  - simpl. now destruct (JsMap.get m t).
  - rewrite IH, addIteration_set. unfold recordsOfTicket. cbn [filter].
    destruct (String.eqb_spec (jiraTicket row) t) as [<- | Hne].
    + rewrite get_set_same. cbn [map fold_left].
      now destruct (JsMap.get m (jiraTicket row)).
    + now rewrite get_set_other.
Qed.

Lemma addIteration_keys (rows : list TestRecord) (m : JsMap.t JsSet.t) :
  JsMap.keys (fold_left addIteration rows m)
  = fold_left JsSet.add (map jiraTicket rows) (JsMap.keys m).
Proof.
  revert m. induction rows as [|row rows IH]; intros m; cbn [fold_left map].
  - reflexivity.
  - now rewrite IH, addIteration_set, keys_set.
Qed.

Lemma addToGroup_fold (rows : list TestRecord) (g : Group.t) :
  fold_left addToGroup rows g
  = Group.mk (Group.tester g) (Group.rows g ++ rows)
             (fold_left addIteration rows (Group.ticketIterations g)).
Proof.
  revert g. induction rows as [|row rows IH]; intros g; cbn [fold_left].
  - rewrite app_nil_r. now destruct g.
  - rewrite IH. unfold addToGroup. cbn. now rewrite <- app_assoc.
Qed.

Lemma groupStep_get (rows : list TestRecord) (g0 g : JsMap.t Group.t) (key : string) :
  foldM groupStep rows g0 = Ok g ->
  key <> "" ->
  JsMap.get g key
  = match JsMap.get g0 key with
    | Some grp => Some (fold_left addToGroup (recordsOfTester key rows) grp)
    | None =>
        match recordsOfTester key rows with
        | [] => None
        | mine => Some (fold_left addToGroup mine (newGroup key))
        end
    end.
Proof.
  intros H Hkey. revert g0 H.
  induction rows as [|row rows IH]; intros g0; cbn [foldM].
  - intros [= <-]. simpl. now destruct (JsMap.get g0 key).
  - unfold groupStep at 1. unfold recordsOfTester. cbn [filter].
    fold (recordsOfTester key rows).
    destruct (truthy (trim (tester row))) eqn:T; cbn [negb bind].
    + destruct (JsMap.get g0 (trim (tester row))) as [grp|] eqn:G0.
      * cbn [bind]. intros H. rewrite (IH _ H).
        destruct (String.eqb_spec (trim (tester row)) key) as [<- | Hne].
        -- rewrite get_set_same, G0. reflexivity.
        -- now rewrite get_set_other.
      * destruct (inherited (trim (tester row))); cbn [bind]; [discriminate |].
        intros H. rewrite (IH _ H).
        destruct (String.eqb_spec (trim (tester row)) key) as [<- | Hne].
        -- rewrite get_set_same, G0. reflexivity.
        -- now rewrite get_set_other.
    + intros H. rewrite (IH _ H). apply truthy_false in T.
      destruct (String.eqb_spec (trim (tester row)) key) as [E | Hne];
        [congruence | reflexivity].
Qed.

Lemma groupStep_get_empty (rows : list TestRecord) (g0 g : JsMap.t Group.t) :
  foldM groupStep rows g0 = Ok g -> JsMap.get g "" = JsMap.get g0 "".
Proof.
  revert g0. induction rows as [|row rows IH]; intros g0; cbn [foldM].
  - now intros [= <-].
  - unfold groupStep at 1.
    destruct (truthy (trim (tester row))) eqn:T; cbn [negb bind].
    + apply truthy_true in T.
      destruct (JsMap.get g0 (trim (tester row))) as [grp|].
      * cbn [bind]. intros H. rewrite (IH _ H). now apply get_set_other.
      * destruct (inherited (trim (tester row))); cbn [bind]; [discriminate |].
        intros H. rewrite (IH _ H). now apply get_set_other.
    + apply IH.
Qed.

(** What [grouped] holds once every record has been filed. *)
Lemma groupByTester_get (rows : list TestRecord) (grouped : JsMap.t Group.t) (key : string) :
  groupByTester rows = Ok grouped ->
  JsMap.get grouped key
  = if truthy key then
      match recordsOfTester key rows with
      | [] => None
      | _ => Some (groupOf key rows)
      end
    else None.
Proof.
  intros H. destruct (truthy key) eqn:T.
  - apply truthy_true in T. unfold groupByTester in H.
    rewrite (groupStep_get rows [] grouped key H T). cbn [JsMap.get].
    unfold groupOf. destruct (recordsOfTester key rows) as [|r mine] eqn:E.
    + reflexivity.
    + rewrite addToGroup_fold. reflexivity.
  - apply truthy_false in T. subst key.
    now rewrite (groupStep_get_empty rows [] grouped H).
Qed.

(** The fold only fails on a tester named like an inherited member. *)
Lemma groupStep_total (rows : list TestRecord) (g0 : JsMap.t Group.t) :
  (forall r, In r rows -> inherited (trim (tester r)) = false) ->
  exists g, foldM groupStep rows g0 = Ok g.
Proof.
  revert g0. induction rows as [|row rows IH]; intros g0 H; cbn [foldM].
  - now exists g0.
  - unfold groupStep at 1. rewrite (H row) by now left.
    assert (H' : forall r, In r rows -> inherited (trim (tester r)) = false)
      by (intros r Hr; apply H; now right).
    destruct (truthy (trim (tester row))); cbn [negb bind];
      [destruct (JsMap.get g0 (trim (tester row))); cbn [bind] |]; now apply IH.
Qed.

Lemma groupOf_keys (key : string) (rows : list TestRecord) :
  JsMap.keys (Group.ticketIterations (groupOf key rows))
  = firstSeen (map jiraTicket (recordsOfTester key rows)).
Proof.
  unfold groupOf. cbn [Group.ticketIterations].
  rewrite addIteration_keys. apply ofList_firstSeen.
Qed.

Lemma groupOf_get (key : string) (rows : list TestRecord) (t : string) :
  JsMap.get (Group.ticketIterations (groupOf key rows)) t
  = match recordsOfTicket t (recordsOfTester key rows) with
    | [] => None
    | mine => Some (firstSeen (map iterationOrOne mine))
    end.
Proof.
  unfold groupOf. cbn [Group.ticketIterations].
  rewrite addIteration_get. cbn [JsMap.get].
  destruct (recordsOfTicket t (recordsOfTester key rows)) as [|r mine]; [reflexivity |].
  cbn zeta. rewrite <- ofList_firstSeen. reflexivity.
Qed.

Lemma ticketDetailsOf_tickets (g : Group.t) :
  map ticket (ticketDetailsOf g) = JsMap.keys (Group.ticketIterations g).
Proof.
  unfold ticketDetailsOf, JsMap.keys. rewrite map_map. reflexivity.
Qed.

Lemma size_keys {V} (m : JsMap.t V) : JsMap.size m = List.length (JsMap.keys m).
Proof. unfold JsMap.size, JsMap.keys. now rewrite length_map. Qed.

Lemma recordsOfTicket_In (t : string) (rows : list TestRecord) :
  In t (map jiraTicket rows) <-> recordsOfTicket t rows <> [].
Proof.
  unfold recordsOfTicket. rewrite in_map_iff. split.
  - intros (r & <- & Hr) E.
    assert (H : In r (filter (fun r0 => jiraTicket r0 =? jiraTicket r) rows))
      by (apply filter_In; split; [exact Hr | apply String.eqb_refl]).
    rewrite E in H. exact H.
  - intros H. destruct (filter (fun r => jiraTicket r =? t) rows) as [|r l] eqn:E;
      [now contradiction H |].
    assert (Hr : In r (filter (fun r => jiraTicket r =? t) rows))
      by (rewrite E; now left).
    apply filter_In in Hr. destruct Hr as (Hr & Et). apply String.eqb_eq in Et.
    now exists r.
Qed.

Lemma firstSeen_length_pos (l : list string) :
  l <> [] -> (1 <= List.length (firstSeen l))%nat.
Proof. destruct l; [congruence | simpl; lia]. Qed.

(** The entry of a tester's group, ticket by ticket. *)
Lemma groupOf_details (key : string) (rows : list TestRecord) :
  let mine := recordsOfTester key rows in
  let details := ticketDetailsOf (groupOf key rows) in
  map ticket details = firstSeen (map jiraTicket mine)
  /\ (forall d, In d details ->
        recordsOfTicket (ticket d) mine <> []
        /\ count d
           = List.length (firstSeen (map iterationOrOne (recordsOfTicket (ticket d) mine))))
  /\ (forall t, recordsOfTicket t mine <> [] -> exists d, In d details /\ ticket d = t).
Proof.
  intros mine details.
  assert (Ek : map ticket details = firstSeen (map jiraTicket mine)).
  { unfold details. rewrite ticketDetailsOf_tickets. apply groupOf_keys. }
  assert (NoDupKeys : NoDup (JsMap.keys (Group.ticketIterations (groupOf key rows)))).
  { rewrite groupOf_keys. apply firstSeen_NoDup. }
  split; [exact Ek |]. split.
  - intros d Hd. unfold details, ticketDetailsOf in Hd.
    apply in_map_iff in Hd. destruct Hd as ([t s] & <- & Hts). cbn [ticket count fst snd].
    assert (G : JsMap.get (Group.ticketIterations (groupOf key rows)) t = Some s).
    { clear Ek. revert NoDupKeys Hts.
      generalize (Group.ticketIterations (groupOf key rows)). intros m.
      induction m as [|[k v] m IH]; simpl; [tauto |].
      intros Hnd [[= -> ->] | Hin].
      - now rewrite String.eqb_refl.
      - inversion Hnd as [|? ? Hnot Hnd']; subst.
        destruct (String.eqb_spec k t) as [-> | Hne].
        + exfalso. apply Hnot. apply in_map_iff. now exists (t, s).
        + now apply IH. }
    rewrite groupOf_get in G. fold mine in G.
    destruct (recordsOfTicket t mine) as [|r l] eqn:E; [discriminate |].
    injection G as <-. split; [discriminate | reflexivity].
  - intros t Ht. apply recordsOfTicket_In, firstSeen_In in Ht.
    rewrite <- Ek in Ht. apply in_map_iff in Ht.
    destruct Ht as (d & Ed & Hd). now exists d.
Qed.

Lemma sortByLowerCase_perm (l : list string) :
  Permutation (Samples.sortByLowerCase l) l.
Proof.
  assert (Ins : forall x l0, Permutation (Samples.insertByLowerCase x l0) (x :: l0)).
  { intros x l0. induction l0 as [|y l0 IH]; simpl; [apply Permutation_refl |].
    destruct (String.leb (toLowerCase x) (toLowerCase y)).
    - apply Permutation_refl.
    - apply perm_trans with (y :: x :: l0); [now apply perm_skip | apply perm_swap]. }
  induction l as [|x l IH]; simpl; [apply perm_nil |].
  apply perm_trans with (x :: Samples.sortByLowerCase l);
    [apply Ins | now apply perm_skip].
Qed.

(** ** The report *)

Section ReportFacts.
Variable sortedKeys : list string -> list string.
Hypothesis sortedKeys_perm : forall l, Permutation (sortedKeys l) l.

(** The entries of the report are those of the testers that have records. *)
Lemma report_entries (this : Reporter) (model : ReportModel) :
  generateHTMLReport sortedKeys this = Ok model ->
  forall e,
    In e (modelData model)
    <-> exists key,
          key <> "" /\ recordsOfTester key (allData this) <> []
          /\ e = entryOf key (groupOf key (allData this)).
Proof.
  unfold generateHTMLReport.
  destruct (groupByTester (allData this)) as [grouped|] eqn:G; cbn [bind]; [| discriminate].
  destruct (mapM (testerEntry grouped) (sortedTesters sortedKeys grouped)) as [data|] eqn:M;
    cbn [bind]; [| discriminate].
  intros [= <-] e. cbn [modelData]. rewrite (mapM_Ok _ _ _ M).
  assert (Get := fun key => groupByTester_get (allData this) grouped key G).
  split.
  - intros (key & _ & Hk). unfold testerEntry in Hk. rewrite Get in Hk.
    destruct (truthy key) eqn:T; [| discriminate]. apply truthy_true in T.
    destruct (recordsOfTester key (allData this)) eqn:E; [discriminate |].
    injection Hk as <-. exists key. rewrite E. repeat split; auto. discriminate.
  - intros (key & Hkey & Hmine & ->). exists key.
    assert (Hg : JsMap.get grouped key = Some (groupOf key (allData this))).
    { rewrite Get. apply truthy_true in Hkey. rewrite Hkey.
      destruct (recordsOfTester key (allData this)); [now contradiction Hmine | reflexivity]. }
    split.
    + unfold sortedTesters. apply (Permutation_in _ (Permutation_sym (sortedKeys_perm _))).
      apply get_keys. eauto.
    + unfold testerEntry. now rewrite Hg.
Qed.

(** The report is produced unless a tester is named like a member every
    object inherits. *)
Lemma report_total (this : Reporter) :
  (forall r, In r (allData this) -> inherited (trim (tester r)) = false) ->
  exists model, generateHTMLReport sortedKeys this = Ok model.
Proof.
  intros H. unfold generateHTMLReport.
  destruct (groupStep_total (allData this) [] H) as (grouped & G).
  unfold groupByTester. rewrite G. cbn [bind].
  destruct (mapM_total (testerEntry grouped) (sortedTesters sortedKeys grouped)) as (data & M).
  - intros key Hk. unfold sortedTesters in Hk.
    apply (Permutation_in _ (sortedKeys_perm _)), get_keys in Hk.
    destruct Hk as (g & Hg). unfold testerEntry. rewrite Hg. eauto.
  - rewrite M. cbn [bind]. eauto.
Qed.

(** C6. The report is produced unless a tester is named like an inherited
    member, and then, for every tester of the report, [uniqueTicketCount] is
    the number of distinct [jiraTicket] values among the records filed under
    that tester (those whose trimmed tester is the tester's name); every
    tester with a record is in the report. *)
Theorem uniqueTicketCount_is_distinct_tickets (this : Reporter) :
  ((forall r, In r (allData this) -> inherited (trim (tester r)) = false) ->
   exists model, generateHTMLReport sortedKeys this = Ok model)
  /\ forall model,
       generateHTMLReport sortedKeys this = Ok model ->
       (forall e,
          In e (modelData model) ->
          let mine := recordsOfTester (testerName e) (allData this) in
          let tickets := firstSeen (map jiraTicket mine) in
          mine <> []
          /\ uniqueTicketCount e = List.length tickets
          /\ NoDup tickets
          /\ (forall t, In t tickets <-> exists r, In r mine /\ jiraTicket r = t)
          /\ total e = List.length mine)
       /\ (forall r,
             In r (allData this) -> trim (tester r) <> "" ->
             exists e, In e (modelData model) /\ testerName e = trim (tester r)).
Proof.
  split; [apply report_total |].
  intros model H. assert (Entries := report_entries this model H). split.
  - intros e He mine tickets. apply Entries in He.
    destruct He as (key & Hkey & Hmine & ->).
    unfold mine, tickets. cbn [testerName uniqueTicketCount total entryOf].
    split; [exact Hmine |]. split; [| split; [| split]].
    + now rewrite size_keys, groupOf_keys.
    + apply firstSeen_NoDup.
    + intros t. rewrite firstSeen_In, in_map_iff. split; intros (r & A & B); eauto.
    + reflexivity.
  - intros r Hr Hkey. exists (entryOf (trim (tester r)) (groupOf (trim (tester r)) (allData this))).
    split; [| reflexivity]. apply Entries. exists (trim (tester r)).
    split; [exact Hkey |]. split; [| reflexivity].
    intros E. assert (Hin : In r (recordsOfTester (trim (tester r)) (allData this))).
    { apply filter_In. split; [exact Hr | apply String.eqb_refl]. }
    rewrite E in Hin. exact Hin.
Qed.

(** C5. The label kept for a record is its iteration, or ["1"] when that is
    empty. For a tester of the report and a ticket that tester has a record
    for, the ticket has one entry in [ticketDetails], whose count is the
    number of distinct labels of the tester's records for that ticket, and
    is at least 1; the entries follow the order in which the tickets were
    first seen. *)
Theorem iterationCaseCount_is_distinct_labels
  (this : Reporter) (model : ReportModel) (e : TesterEntry) (r : TestRecord) :
  generateHTMLReport sortedKeys this = Ok model ->
  In e (modelData model) ->
  In r (allData this) ->
  trim (tester r) = testerName e ->
  let mine := recordsOfTester (testerName e) (allData this) in
  let labels := map iterationOrOne (recordsOfTicket (jiraTicket r) mine) in
  iterationOrOne r = (if iteration r =? "" then "1" else iteration r)
  /\ In (iterationOrOne r) labels
  /\ (exists d,
        In d (ticketDetails e) /\ ticket d = jiraTicket r
        /\ count d = List.length (firstSeen labels)
        /\ (1 <= count d)%nat)
  /\ map ticket (ticketDetails e) = firstSeen (map jiraTicket mine)
  /\ NoDup (map ticket (ticketDetails e))
  /\ (forall d, In d (ticketDetails e) -> (1 <= count d)%nat).
Proof.
  intros H He Hr Hkey mine labels.
  apply (report_entries this model H) in He.
  destruct He as (key & Hk & Hmine & ->).
  cbn [testerName entryOf] in *. cbn [ticketDetails entryOf].
  destruct (groupOf_details key (allData this)) as (Ek & Hcount & Hex).
  assert (Hin : In r (recordsOfTicket (jiraTicket r) mine)).
  { apply filter_In. split; [| apply String.eqb_refl].
    apply filter_In. split; [exact Hr |]. rewrite Hkey. apply String.eqb_refl. }
  split; [unfold iterationOrOne, truthy; now destruct (iteration r =? "") |].
  split; [unfold labels; now apply in_map |].
  split; [| split; [exact Ek | split]].
  - destruct (Hex (jiraTicket r)) as (d & Hd & Et).
    { intros E. fold mine in E. rewrite E in Hin. exact Hin. }
    exists d. destruct (Hcount d Hd) as (Hne & Ec). rewrite Et in *.
    split; [exact Hd |]. split; [reflexivity |]. split; [exact Ec |].
    rewrite Ec. apply firstSeen_length_pos. intros E.
    apply map_eq_nil in E. contradiction.
  - rewrite Ek. apply firstSeen_NoDup.
  - intros d Hd. destruct (Hcount d Hd) as (Hne & ->).
    apply firstSeen_length_pos. intros E. apply map_eq_nil in E. contradiction.
Qed.

End ReportFacts.

Example report_of_alice_and_bob :
  generateHTMLReport Samples.sortByLowerCase (mkReporter Samples.aliceAndBob [] None)
  = Ok {| modelStatusList := ["Passed"; "Failed"; "Retest"];
          modelData :=
            [mkEntry "Alice" 4 2 [mkDetail "NR-1" 2; mkDetail "NR-2" 1];
             mkEntry "bob" 1 1 [mkDetail "NR-1" 1]];
          modelIndex := None;
          modelStatusCounts := [3; 1; 1]%nat |}.
Proof. vm_compute. reflexivity. Qed.

Example report_fails_on_inherited_name :
  generateHTMLReport Samples.sortByLowerCase
    (mkReporter [mkTestRecord "constructor" "NR-1" "" "Passed" "" ""] [] None)
  = TypeError.
Proof. reflexivity. Qed.

Lemma uniqueTicketCount_is_distinct_tickets_witness :
  recordsOfTester "Alice" Samples.aliceAndBob <> []
  /\ uniqueTicketCount (mkEntry "Alice" 4 2 [mkDetail "NR-1" 2; mkDetail "NR-2" 1])
     = List.length (firstSeen (map jiraTicket (recordsOfTester "Alice" Samples.aliceAndBob))).
Proof.
  refine ((fun H => conj (proj1 H) (proj1 (proj2 H)))
            (proj1 (proj2 (uniqueTicketCount_is_distinct_tickets
                             Samples.sortByLowerCase sortByLowerCase_perm
                             (mkReporter Samples.aliceAndBob [] None)) _ _)
                   (mkEntry "Alice" 4 2 [mkDetail "NR-1" 2; mkDetail "NR-2" 1]) _)).
  - vm_compute. reflexivity.
  - left. reflexivity.
Defined.

Lemma iterationCaseCount_is_distinct_labels_witness :
  exists d,
    In d [mkDetail "NR-1" 2; mkDetail "NR-2" 1] /\ ticket d = "NR-1"
    /\ count d
       = List.length
           (firstSeen (map iterationOrOne
                           (recordsOfTicket "NR-1"
                              (recordsOfTester "Alice" Samples.aliceAndBob))))
    /\ (1 <= count d)%nat.
Proof.
  refine (proj1 (proj2 (proj2
            (iterationCaseCount_is_distinct_labels
               Samples.sortByLowerCase sortByLowerCase_perm
               (mkReporter Samples.aliceAndBob [] None) _
               (mkEntry "Alice" 4 2 [mkDetail "NR-1" 2; mkDetail "NR-2" 1])
               (mkTestRecord "Alice" "NR-1" "" "Failed" "" "") _ _ _ _)))).
  - vm_compute. reflexivity.
  - left. reflexivity.
  - right. left. reflexivity.
  - reflexivity.
Defined.

(** ** The index sheet *)

Lemma columnsFrom_fallback (header : Row) (i : Z) (cols : Index.Columns) :
  let found := Index.columnsFrom header i cols in
  let absent label :=
    forall c, In c header -> includes (toLowerCase c) label = false in
  (absent "test scenario" -> Index.testScenarioIdx found = Index.testScenarioIdx cols)
  /\ (absent "test execution" -> Index.testExecutionIdx found = Index.testExecutionIdx cols)
  /\ (absent "test story" -> Index.testStoryIdx found = Index.testStoryIdx cols)
  /\ (absent "description" -> Index.descIdx found = Index.descIdx cols)
  /\ (absent "status" -> Index.statusIdx found = Index.statusIdx cols).
Proof.
  revert i cols. induction header as [|c header IH]; intros i cols; cbn zeta.
  - repeat split; reflexivity.
  - cbn [Index.columnsFrom].
    destruct (IH (i + 1)%Z (Index.columnStep cols c i)) as (H1 & H2 & H3 & H4 & H5).
    repeat split; intros Habs;
      [rewrite H1 | rewrite H2 | rewrite H3 | rewrite H4 | rewrite H5];
      try (intros c' Hc'; apply Habs; now right);
      cbn; now rewrite (Habs c (or_introl eq_refl)).
Qed.

Lemma bodyRows_tail (rows : Grid) :
  Index.bodyRows rows = filter (existsb (fun c => negb (c =? ""))) (tl rows).
Proof. unfold Index.bodyRows, sliceFrom. now destruct rows. Qed.

Lemma increment_other (m : JsMap.t Index.Tally) (status s : string) :
  status <> s -> JsMap.get (Index.increment m status) s = JsMap.get m s.
Proof.
  intros Hne. unfold Index.increment.
  destruct (JsMap.get m status) as [[n|]|];
    [| | destruct (inherited status); [destruct (status =? "__proto__") |]];
    try reflexivity; now apply get_set_other.
Qed.

Lemma tally_get (statusIdx : Z) (body : Grid) (m : JsMap.t Index.Tally) (s : string) :
  inherited s = false ->
  JsMap.get (fold_left (Index.tallyStep statusIdx) body m) s
  = let n := List.length (rowsWithStatus statusIdx s body) in
    if truthy (trim s) then
      match JsMap.get m s with
      | Some (Index.Number k) => Some (Index.Number (k + n))
      | Some Index.Text => Some Index.Text
      | None => if (n =? 0)%nat then None else Some (Index.Number n)
      end
    else JsMap.get m s.
Proof.
  intros Hs. revert m. induction body as [|row body IH]; intros m; cbn [fold_left].
  - cbn. destruct (truthy (trim s)); [| reflexivity].
    destruct (JsMap.get m s) as [[k|]|]; try reflexivity. now rewrite Nat.add_0_r.
  - rewrite IH. unfold rowsWithStatus. cbn [filter]. fold (rowsWithStatus statusIdx s body).
    unfold Index.tallyStep.
    destruct (String.eqb_spec (cell row statusIdx) s) as [-> | Hne].
    + destruct (truthy (trim s)); [| reflexivity].
      unfold Index.increment. cbn [List.length].
      destruct (JsMap.get m s) as [[k|]|] eqn:G.
      * rewrite get_set_same. cbn zeta. do 2 f_equal. lia.
      * now rewrite get_set_same.
      * rewrite Hs, get_set_same. cbn. do 2 f_equal.
    + destruct (truthy (trim (cell row statusIdx)));
        [now rewrite increment_other | reflexivity].
Qed.

(** X1. The index view: positional fall-back of the five columns, the body
    rows, the listing, and the tally of every status that is not named like
    an inherited member. *)
Theorem index_view_rule (rows : Grid) :
  (1 < List.length rows)%nat ->
  exists v,
    Index.view (Some rows) = Some v
    /\ let header := hd [] rows in
       let body := filter (existsb (fun c => negb (c =? ""))) (tl rows) in
       let absent label :=
         forall c, In c header -> includes (toLowerCase c) label = false in
       (absent "test scenario" -> Index.testScenarioIdx (Index.cols v) = 0%Z)
       /\ (absent "test execution" -> Index.testExecutionIdx (Index.cols v) = 1%Z)
       /\ (absent "description" -> Index.descIdx (Index.cols v) = 2%Z)
       /\ (absent "test story" -> Index.testStoryIdx (Index.cols v) = 3%Z)
       /\ (absent "status" -> Index.statusIdx (Index.cols v) = 4%Z)
       /\ Index.entries v = map (Index.entry (Index.cols v)) body
       /\ (forall s,
             inherited s = false ->
             JsMap.get (Index.tally v) s
             = let n := List.length (rowsWithStatus (Index.statusIdx (Index.cols v)) s body) in
               if allWhiteSpace s || (n =? 0)%nat then None
               else Some (Index.Number n)).
Proof.
  intros Hlen. unfold Index.view.
  destruct (Z.ltb_spec 1 (Z.of_nat (List.length rows))); [| lia].
  eexists. split; [reflexivity |]. cbn [Index.cols Index.entries Index.tally].
  assert (Eh : match rows with h :: _ => h | [] => [] end = hd [] rows)
    by now destruct rows.
  rewrite Eh, bodyRows_tail.
  destruct (columnsFrom_fallback (hd [] rows) 0%Z Index.fallback) as (H1 & H2 & H3 & H4 & H5).
  fold (Index.columns (hd [] rows)) in *.
  split; [exact H1 |]. split; [exact H2 |]. split; [exact H4 |].
  split; [exact H3 |]. split; [exact H5 |]. split; [reflexivity |].
  intros s Hs. unfold Index.statusCountsMap. rewrite (tally_get _ _ _ _ Hs).
  cbn [JsMap.get]. cbn zeta.
  destruct (allWhiteSpace s) eqn:W.
  - apply trim_blank in W. rewrite W. reflexivity.
  - apply trim_not_blank in W. rewrite W. reflexivity.
Qed.

Lemma index_view_rule_witness :
  exists v,
    Index.view (Some [["Test Story"; "Description"; "Status"];
                      ["S-1"; "desc"; "Passed"]; [""; ""; ""]; ["S-2"; "more"; " "]])
    = Some v
    /\ Index.entries v
       = [Index.mkEntry "S-1" "desc" "S-1" "desc" "Passed";
          Index.mkEntry "S-2" "more" "S-2" "more" " "]
    /\ JsMap.get (Index.tally v) "Passed" = Some (Index.Number 1)
    /\ JsMap.get (Index.tally v) " " = None.
Proof.
  destruct (index_view_rule [["Test Story"; "Description"; "Status"];
                             ["S-1"; "desc"; "Passed"]; [""; ""; ""]; ["S-2"; "more"; " "]])
    as (v & Ev & _ & _ & _ & _ & _ & He & Ht).
  - simpl. lia.
  - exists v. split; [exact Ev |].
    injection Ev as <-. repeat split.
Defined.

(** C8 on a status named like an inherited member: the row has a non-empty
    status and the tally holds no count for it. Under ["constructor"] the
    table keeps the text that [+ 1] made of the inherited function, under
    ["__proto__"] nothing at all. *)
Lemma index_tally_misses_inherited_status :
  option_map Index.tally
    (Index.view (Some [["Test Story"; "Description"; "Status"];
                       ["S-1"; "desc"; "constructor"]; ["S-2"; "more"; "Passed"]]))
  = Some [("constructor", Index.Text); ("Passed", Index.Number 1)]
  /\ option_map Index.entries
       (Index.view (Some [["Test Story"; "Description"; "Status"];
                          ["S-1"; "desc"; "constructor"]; ["S-2"; "more"; "Passed"]]))
     = Some [Index.mkEntry "S-1" "desc" "S-1" "desc" "constructor";
             Index.mkEntry "S-2" "more" "S-2" "more" "Passed"]
  /\ option_map Index.tally
       (Index.view (Some [["Test Story"; "Description"; "Status"];
                          ["S-1"; "desc"; "__proto__"]]))
     = Some [].
Proof. repeat split. Qed.

(** ** Global counts *)

Lemma list_sum_perm (l1 l2 : list nat) :
  Permutation l1 l2 -> list_sum l1 = list_sum l2.
Proof. induction 1; simpl; lia. Qed.

Lemma list_sum_cons (x : nat) (l : list nat) : list_sum (x :: l) = x + list_sum l.
Proof. reflexivity. Qed.

Lemma list_sum_without (f : string -> nat) (s : string) (l : list string) :
  NoDup l ->
  list_sum (map f l)
  = (if JsSet.has l s then f s else 0%nat)
    + list_sum (map f (filter (fun y => negb (y =? s)) l)).
Proof.
  induction l as [|x l IH]; intros Hnd; [reflexivity |].
  inversion Hnd as [|? ? Hnot Hnd']; subst.
  unfold JsSet.has in *. cbn [existsb map filter].
  rewrite list_sum_cons, (IH Hnd'), (String.eqb_sym s x).
  destruct (String.eqb_spec x s) as [-> | Hne]; cbn [negb orb map].
  - assert (E : existsb (String.eqb s) l = false).
    { apply not_true_is_false. intros H. apply Hnot. now apply (has_In l s). }
    rewrite E. lia.
  - rewrite list_sum_cons. lia.
Qed.

Lemma countStatus_absent (rows : list TestRecord) (s : string) :
  ~ In s (map overallStatus rows) -> countStatus rows s = 0%nat.
Proof.
  intros H. unfold countStatus.
  induction rows as [|r rows IH]; [reflexivity |]. cbn [filter].
  destruct (String.eqb_spec (overallStatus r) s) as [E | Hne].
  - exfalso. apply H. left. exact E.
  - apply IH. intros Hin. apply H. now right.
Qed.

Lemma countStatus_first_seen (rows : list TestRecord) :
  list_sum (map (countStatus rows) (firstSeen (map overallStatus rows)))
  = List.length rows.
Proof.
  induction rows as [|r rows IH]; [reflexivity |].
  cbn [map firstSeen List.length]. rewrite list_sum_cons.
  set (s := overallStatus r). set (seen := firstSeen (map overallStatus rows)).
  assert (Hs : countStatus (r :: rows) s = S (countStatus rows s)).
  { unfold countStatus. cbn [filter]. fold s. now rewrite String.eqb_refl. }
  assert (Ht : map (countStatus (r :: rows)) (filter (fun y => negb (y =? s)) seen)
               = map (countStatus rows) (filter (fun y => negb (y =? s)) seen)).
  { apply map_ext_in. intros t Hin. apply filter_In in Hin. destruct Hin as (_ & Hne).
    unfold countStatus. cbn [filter]. fold s. rewrite (String.eqb_sym s t).
    apply negb_true_iff in Hne. now rewrite Hne. }
  rewrite Hs, Ht, <- IH. fold seen.
  rewrite (list_sum_without (countStatus rows) s seen (firstSeen_NoDup _)).
  destruct (JsSet.has seen s) eqn:E; [lia |].
  rewrite countStatus_absent; [lia |].
  intros Hin. apply firstSeen_In, has_In in Hin. fold seen in Hin. congruence.
Qed.

Lemma statusOrder_NoDup : NoDup statusOrder.
Proof.
  unfold statusOrder. repeat constructor; simpl; intuition discriminate.
Qed.

Lemma statusList_perm (rows : list TestRecord) :
  (forall r, In r rows -> overallStatus r <> "") ->
  Permutation (statusList rows) (firstSeen (map overallStatus rows)).
Proof.
  intros Hne.
  destruct (statusList_canonical_order rows Hne) as (E & Hnd & Hin).
  apply NoDup_Permutation.
  - rewrite E. apply NoDup_app.
    + apply NoDup_filter, statusOrder_NoDup.
    + now apply NoDup_filter.
    + intros s H1 H2. apply filter_In in H1, H2.
      destruct H1 as (H1 & _), H2 as (_ & H2).
      apply negb_true_iff in H2. apply (has_In statusOrder s) in H1.
      unfold JsSet.has in H1. congruence.
  - exact Hnd.
  - intros s. rewrite E, in_app_iff, !filter_In, Hin.
    fold (JsSet.has (map overallStatus rows) s). fold (JsSet.has statusOrder s).
    rewrite negb_true_iff, !has_In.
    destruct (JsSet.has statusOrder s) eqn:O.
    + apply has_In in O. intuition discriminate.
    + assert (~ In s statusOrder) by (rewrite <- has_In; congruence). tauto.
Qed.

Lemma counts_add_up (rows : list TestRecord) :
  (forall r, In r rows -> overallStatus r <> "") ->
  list_sum (statusCounts rows) = List.length rows.
Proof.
  intros Hne. unfold statusCounts. fold (countStatus rows).
  rewrite (list_sum_perm _ _ (Permutation_map (countStatus rows) (statusList_perm rows Hne))).
  apply countStatus_first_seen.
Qed.

(** X2. The global counts, one per listed status, add up to the number of
    records; the list is empty exactly when there is no record. *)
Theorem statusCounts_sum (rows : list TestRecord) :
  (forall r, In r rows -> overallStatus r <> "") ->
  list_sum (statusCounts rows) = List.length rows
  /\ List.length (statusCounts rows) = List.length (statusList rows)
  /\ (statusList rows = [] <-> rows = []).
Proof.
  intros Hne. split; [now apply counts_add_up | split].
  - unfold statusCounts. apply length_map.
  - split.
    + intros H0. assert (P := statusList_perm rows Hne).
      rewrite H0 in P. apply Permutation_nil in P.
      destruct rows; [reflexivity | discriminate].
    + intros ->. reflexivity.
Qed.

Lemma statusCounts_sum_witness :
  list_sum (statusCounts Samples.aliceAndBob) = List.length Samples.aliceAndBob.
Proof.
  refine (proj1 (statusCounts_sum Samples.aliceAndBob _)).
  intros r H. simpl in H.
  destruct H as [<- | [<- | [<- | [<- | [<- | []]]]]]; discriminate.
Defined.

(** ** The report after a fetch *)

Lemma record_status_not_empty (sheets : list (string * option Grid)) (r : TestRecord) :
  In r (allData (fetchAllSheetsData sheets)) -> overallStatus r <> "".
Proof.
  intros H. apply allData_origin in H.
  destruct H as (sheetName & rows & row & _ & _ & _ & _ & Hp).
  apply processRow_some in Hp. destruct Hp as (_ & ->). cbn [overallStatus].
  apply statusOf_cases.
Qed.

(** What a fetch hands to the report meets the conditions the status list
    and the counts were stated under. *)
Lemma statusList_after_fetch (sheets : list (string * option Grid)) :
  let rows := allData (fetchAllSheetsData sheets) in
  let statuses := map overallStatus rows in
  statusList rows
  = filter (fun s => existsb (String.eqb s) statuses) statusOrder
    ++ filter (fun s => negb (existsb (String.eqb s) statusOrder)) (firstSeen statuses)
  /\ list_sum (statusCounts rows) = List.length rows.
Proof.
  intros rows statuses.
  assert (Hne : forall r, In r rows -> overallStatus r <> "")
    by (intros r; apply record_status_not_empty).
  split.
  - apply (statusList_canonical_order rows Hne).
  - apply (counts_add_up rows Hne).
Qed.

(** ** Worked examples *)

Example fetch_two_sheets :
  fetchAllSheetsData Samples.twoSheets
  = {| allData :=
         [mkTestRecord "Alice" "NR-100" "" "Not Started" "" "";
          mkTestRecord "Alice" "NR-101" "" "Failed" "BUG-1" ""];
       sheetSummaries := [mkSummary "NR-100" 1 true; mkSummary "NR-101" 1 true];
       indexSheetRows := None |}.
Proof. reflexivity. Qed.

Example report_of_two_sheets :
  generateHTMLReport Samples.sortByLowerCase (fetchAllSheetsData Samples.twoSheets)
  = Ok {| modelStatusList := ["Failed"; "Not Started"];
          modelData := [mkEntry "Alice" 2 2 [mkDetail "NR-100" 1; mkDetail "NR-101" 1]];
          modelIndex := None;
          modelStatusCounts := [1; 1]%nat |}.
Proof. vm_compute. reflexivity. Qed.

Example fetch_keeps_index_apart :
  fetchAllSheetsData
    [("Index", Some [["Test Story"; "Description"; "Status"]; ["S-1"; "desc"; "Passed"]]);
     ("INDEX", Some [["Tester"]]);
     ("Empty", None);
     ("Notes", Some [["no header here"]])]
  = {| allData := [];
       sheetSummaries := [mkSummary "Empty" 0 false; mkSummary "Notes" 0 false];
       indexSheetRows :=
         Some [["Test Story"; "Description"; "Status"]; ["S-1"; "desc"; "Passed"]] |}.
Proof. reflexivity. Qed.

Example iteration_labels :
  map iterationLabel ["ITR-3"; "itr 12"; "Itr3"; "Iteration 2"; " 5 "; "ITR- 9"]
  = ["3"; "12"; "3"; "Iteration 2"; "5"; "9"]
  /\ map matchItrToken ["ITR-7 Checkout"; "Sprint itr 12b"; "Itr3"; "itr-x itr4"; "NR-100"]
     = [Some "ITR-7"; Some "itr 12"; Some "Itr3"; Some "itr4"; None].
Proof. split; reflexivity. Qed.

Example trim_examples :
  map trim ["  a b  "; ""; "   "; "x"] = ["a b"; ""; ""; "x"].
Proof. reflexivity. Qed.

(** * Further properties of the fetch *)

Lemma summariesOf_names (sheets : list (string * option Grid)) :
  map name (flat_map summariesOf sheets) = sheetNames (map fst sheets).
Proof.
  induction sheets as [|[sheetName values] sheets IH]; [reflexivity |].
  cbn [flat_map map fst]. rewrite map_app, IH. unfold summariesOf, sheetNames, isIndexName.
  cbn [fst snd filter].
  destruct (toLowerCase sheetName =? "index"); cbn [negb map app]; [reflexivity |].
  f_equal. unfold sheetSummary, processSheet.
  destruct values as [[|row rows]|]; try reflexivity.
  now destruct (headerRowIdx (row :: rows) =? -1)%Z.
Qed.

Lemma sheet_rowCount_bound (sheetName : string) (values : option Grid) :
  (0 <= rowCount (sheetSummary sheetName values))%Z
  /\ (Z.of_nat (List.length (sheetRecords sheetName values))
      <= rowCount (sheetSummary sheetName values))%Z.
Proof.
  unfold sheetSummary, sheetRecords.
  destruct values as [rows|]; [| simpl; lia].
  destruct (Z.eq_dec (headerRowIdx rows) (-1)) as [E | Hh].
  - rewrite (processSheet_no_header sheetName (Some rows)); [simpl; lia |].
    right. right. now exists rows.
  - destruct (header_located rows Hh) as (a & h & b & -> & Hhead & Ha & _).
    rewrite (processSheet_located sheetName a h b Hhead Ha). cbn [fst snd rowCount].
    assert (L := collect_length (processRow sheetName (locateColumns h)) b). lia.
Qed.

Lemma rowCountTotal_app (l1 l2 : list SheetSummary) :
  rowCountTotal (l1 ++ l2) = (rowCountTotal l1 + rowCountTotal l2)%Z.
Proof. induction l1 as [|s l1 IH]; simpl; [reflexivity | rewrite IH; lia]. Qed.

(** X3. A fetch leaves one summary per sheet that is not the index sheet, in
    sheet order and under the sheet's title: the summaries are as many as the
    sheets the closing log line counts. The rows that line counts are never
    more than the summaries' row counts together. *)
Theorem summaries_follow_sheet_names (sheets : list (string * option Grid)) :
  map name (sheetSummaries (fetchAllSheetsData sheets)) = sheetNames (map fst sheets)
  /\ fst (processedCounts sheets)
     = List.length (sheetSummaries (fetchAllSheetsData sheets))
  /\ (Z.of_nat (snd (processedCounts sheets))
      <= rowCountTotal (sheetSummaries (fetchAllSheetsData sheets)))%Z.
Proof.
  rewrite fetch_sheetSummaries. split; [apply summariesOf_names |]. split.
  - unfold processedCounts. cbn [fst]. now rewrite <- summariesOf_names, length_map.
  - unfold processedCounts. cbn [snd]. rewrite fetch_allData.
    induction sheets as [|[sheetName values] sheets IH]; [simpl; lia |].
    cbn [flat_map]. rewrite length_app, rowCountTotal_app, Nat2Z.inj_add.
    unfold recordsOf at 1, summariesOf at 1. cbn [fst snd].
    destruct (isIndexName sheetName); [simpl; lia |].
    destruct (sheet_rowCount_bound sheetName values) as (_ & B). simpl. lia.
Qed.

Lemma index_fold (sheets : list (string * option Grid)) (st : Reporter) :
  indexSheetRows (fold_left fetchStep sheets st)
  = match lastIndexRows sheets with
    | Some rows => Some rows
    | None => indexSheetRows st
    end.
Proof.
  revert st. induction sheets as [|[sheetName values] sheets IH]; intros st;
    cbn [fold_left lastIndexRows]; [reflexivity |].
  rewrite IH. destruct (lastIndexRows sheets); [reflexivity |].
  unfold fetchStep. destruct (isIndexName sheetName); cbn [andb].
  - destruct values as [rows|]; [| reflexivity].
    now destruct (1 <? Z.of_nat (List.length rows))%Z.
  - destruct (processSheet sheetName values). cbn [indexSheetRows].
    now destruct values.
Qed.

Lemma index_after_fetch (sheets : list (string * option Grid)) :
  indexSheetRows (fetchAllSheetsData sheets) = lastIndexRows sheets.
Proof.
  unfold fetchAllSheetsData. rewrite index_fold. now destruct (lastIndexRows sheets).
Qed.

Lemma lastIndexRows_app (a b : list (string * option Grid)) :
  lastIndexRows (a ++ b)
  = match lastIndexRows b with
    | Some rows => Some rows
    | None => lastIndexRows a
    end.
Proof.
  induction a as [|[sheetName values] a IH]; cbn [app lastIndexRows].
  - now destruct (lastIndexRows b).
  - rewrite IH. now destruct (lastIndexRows b).
Qed.

(** X4. Fetching a spreadsheet is fetching its sheets part by part: the
    records and the summaries of two runs of sheets are appended, and the
    index grid is that of the later part when it has one. *)
Theorem fetch_of_appended_sheets (a b : list (string * option Grid)) :
  allData (fetchAllSheetsData (a ++ b))
  = allData (fetchAllSheetsData a) ++ allData (fetchAllSheetsData b)
  /\ sheetSummaries (fetchAllSheetsData (a ++ b))
     = sheetSummaries (fetchAllSheetsData a) ++ sheetSummaries (fetchAllSheetsData b)
  /\ indexSheetRows (fetchAllSheetsData (a ++ b))
     = match indexSheetRows (fetchAllSheetsData b) with
       | Some rows => Some rows
       | None => indexSheetRows (fetchAllSheetsData a)
       end.
Proof.
  rewrite !fetch_allData, !fetch_sheetSummaries, !index_after_fetch, !flat_map_app.
  repeat split. apply lastIndexRows_app.
Qed.

Lemma lastIndexRows_some (sheets : list (string * option Grid)) (rows : Grid) :
  lastIndexRows sheets = Some rows ->
  (1 < List.length rows)%nat
  /\ exists sheetName, In (sheetName, Some rows) sheets /\ isIndexName sheetName = true.
Proof.
  induction sheets as [|[sheetName values] sheets IH]; cbn [lastIndexRows]; [discriminate |].
  destruct (lastIndexRows sheets) as [rows'|].
  - intros [= ->]. destruct (IH eq_refl) as (L & n & Hin & Hn).
    split; [exact L |]. exists n. split; [now right | exact Hn].
  - destruct values as [rows'|]; [| discriminate].
    destruct (isIndexName sheetName) eqn:E; cbn [andb]; [| discriminate].
    destruct (Z.ltb_spec 1 (Z.of_nat (List.length rows'))); [| discriminate].
    intros [= ->]. split; [lia |]. exists sheetName. split; [now left | exact E].
Qed.

Lemma lastIndexRows_none (sheets : list (string * option Grid)) :
  lastIndexRows sheets = None
  <-> forall sheetName rows,
        In (sheetName, Some rows) sheets -> isIndexName sheetName = true ->
        (List.length rows <= 1)%nat.
Proof.
  induction sheets as [|[sheetName values] sheets IH]; cbn [lastIndexRows].
  - split; [intros _ n rows [] | reflexivity].
  - destruct (lastIndexRows sheets) as [rows'|] eqn:L.
    + split; [discriminate |]. intros H. exfalso.
      destruct (lastIndexRows_some sheets rows' L) as (Hlen & n & Hin & Hn).
      assert (B := H n rows' (or_intror Hin) Hn). lia.
    + destruct IH as (IH1 & _). specialize (IH1 eq_refl). split.
      * intros H n rows [[= -> ->] | Hin] Hn; [| now apply (IH1 n rows)].
        rewrite Hn in H. cbn [andb] in H.
        destruct (Z.ltb_spec 1 (Z.of_nat (List.length rows))); [discriminate | lia].
      * intros H. destruct values as [rows|]; [| reflexivity].
        destruct (isIndexName sheetName) eqn:E; cbn [andb]; [| reflexivity].
        assert (B := H sheetName rows (or_introl eq_refl) E).
        destruct (Z.ltb_spec 1 (Z.of_nat (List.length rows))); [lia | reflexivity].
Qed.

(** X5. After a fetch [indexSheetRows] is empty exactly when no sheet titled
    like the index has more than one row; a grid kept there has more than
    one row and comes from such a sheet; and the report shows an index view
    exactly when a grid is kept. *)
Theorem index_rows_after_fetch (sheets : list (string * option Grid)) :
  let kept := indexSheetRows (fetchAllSheetsData sheets) in
  (kept = None
   <-> forall sheetName rows,
         In (sheetName, Some rows) sheets -> isIndexName sheetName = true ->
         (List.length rows <= 1)%nat)
  /\ (forall rows,
        kept = Some rows ->
        (1 < List.length rows)%nat
        /\ exists sheetName, In (sheetName, Some rows) sheets /\ isIndexName sheetName = true)
  /\ (Index.view kept = None <-> kept = None).
Proof.
  cbn zeta. rewrite index_after_fetch.
  split; [apply lastIndexRows_none |]. split; [apply lastIndexRows_some |].
  destruct (lastIndexRows sheets) as [rows|] eqn:L; [| tauto].
  destruct (lastIndexRows_some sheets rows L) as (Hlen & _).
  unfold Index.view. destruct (Z.ltb_spec 1 (Z.of_nat (List.length rows))); [| lia].
  split; discriminate.
Qed.

Lemma get_before {A} (pre : list A) (x : A) (post : list A) (i : Z) (y : A) :
  (0 <= i < Z.of_nat (List.length pre))%Z ->
  get (pre ++ x :: post) i = Some y -> In y pre.
Proof.
  intros Hi. unfold get. destruct (Z.ltb_spec i 0); [lia |].
  rewrite nth_error_app1 by lia. apply nth_error_In.
Qed.

(** X6. When a sheet has a header row, it is the first row holding a cell
    that contains "tester" (in any case), and the tester column is found in
    it: [testerIdx] is never [-1] there, and points at the first such cell of
    the header. *)
Theorem header_row_has_tester_column (rows : Grid) :
  headerRowIdx rows <> (-1)%Z ->
  let h := headerRowIdx rows in
  let header := headerOf rows in
  let t := testerIdx (locateColumns header) in
  (0 <= h < Z.of_nat (List.length rows))%Z
  /\ get rows h = Some header
  /\ (forall i row, (0 <= i < h)%Z -> get rows i = Some row -> isHeaderRow row = false)
  /\ (0 <= t < Z.of_nat (List.length header))%Z
  /\ (exists c, get header t = Some c /\ c <> ""
                /\ includes (toLowerCase c) "tester" = true)
  /\ (forall i c, (0 <= i < t)%Z -> get header i = Some c -> hasLabel "tester" c = false).
Proof.
  intros Hh. cbn zeta.
  destruct (header_located rows Hh) as (a & hd & b & -> & Hhead & Ha & Ei).
  destruct (located_parts a hd b Hhead Ha) as (_ & Eh & _).
  rewrite Eh, Ei.
  split; [rewrite length_app; simpl; lia |].
  split; [apply get_middle |].
  split; [intros i row Hi Hg; apply Ha; now apply (get_before a hd b i row) |].
  assert (Ht : findIndex (hasLabel "tester") hd <> (-1)%Z).
  { intros E. rewrite findIndex_none in E. unfold isHeaderRow in Hhead.
    apply existsb_exists in Hhead. destruct Hhead as (c & Hc & Lc).
    rewrite (E c Hc) in Lc. discriminate. }
  destruct (findIndex_found _ _ Ht) as (pre & c & post & E & Pc & Hpre & Et).
  cbn [locateColumns testerIdx]. rewrite Et. clear Et Ht Eh Hhead. subst hd.
  split; [rewrite length_app; simpl; lia |].
  split.
  - exists c. split; [apply get_middle |].
    unfold hasLabel in Pc. apply andb_prop in Pc. destruct Pc as (Tc & Ic).
    split; [now apply truthy_true | exact Ic].
  - intros i c' Hi Hg. apply Hpre. now apply (get_before pre c post i c').
Qed.

Lemma header_row_has_tester_column_witness :
  (0 <= headerRowIdx [["Sprint 4"]; ["Ticket"; "QA Tester"; "Overall Status"]; ["T-1"; "Ann"]]
   < 3)%Z
  /\ testerIdx (locateColumns
                  (headerOf [["Sprint 4"]; ["Ticket"; "QA Tester"; "Overall Status"];
                             ["T-1"; "Ann"]])) = 1%Z.
Proof.
  refine ((fun H => conj (proj1 H) _)
            (header_row_has_tester_column
               [["Sprint 4"]; ["Ticket"; "QA Tester"; "Overall Status"]; ["T-1"; "Ann"]] _)).
  - reflexivity.
  - vm_compute. discriminate.
Defined.

Lemma collect_processRow (sheetName : string) (cols : HeaderColumns) (rows : Grid) :
  collect (processRow sheetName cols) rows
  = map (recordOfRow sheetName cols)
        (filter (fun row => negb (blankTester cols row)) rows).
Proof.
  induction rows as [|row rows IH]; [reflexivity |]. cbn [collect filter].
  destruct (processRow sheetName cols row) as [r|] eqn:E.
  - apply processRow_some in E. destruct E as (-> & ->). cbn [negb map].
    now rewrite IH.
  - apply processRow_none in E. rewrite E. exact IH.
Qed.

Lemma sheetRecords_located (sheetName : string) (rows : Grid) :
  headerRowIdx rows <> (-1)%Z ->
  sheetRecords sheetName (Some rows)
  = map (recordOfRow sheetName (locateColumns (headerOf rows)))
        (filter (fun row => negb (blankTester (locateColumns (headerOf rows)) row))
                (dataRows rows)).
Proof.
  intros Hh. destruct (header_located rows Hh) as (a & h & b & -> & Hhead & Ha & _).
  destruct (located_parts a h b Hhead Ha) as (_ & Eh & Ed).
  unfold sheetRecords. rewrite Eh, Ed, (processSheet_located sheetName a h b Hhead Ha).
  apply collect_processRow.
Qed.

(** X7. Under a header row every data row with a tester that is not blank
    gives exactly one record, and the records keep the order of the rows:
    the testers, defects and comments of the records are the cells of those
    rows as they stand (a missing defect or comments column gives [""]), and
    every record carries the sheet's title as its ticket. *)
Theorem records_follow_data_rows (sheetName : string) (rows : Grid) :
  headerRowIdx rows <> (-1)%Z ->
  let cols := locateColumns (headerOf rows) in
  let kept := filter (fun row => negb (blankTester cols row)) (dataRows rows) in
  let records := sheetRecords sheetName (Some rows) in
  List.length records = List.length kept
  /\ map tester records = map (fun row => cell row (testerIdx cols)) kept
  /\ map defect records = map (fun row => optionalCell row (defectIdx cols)) kept
  /\ map comments records = map (fun row => optionalCell row (commentsIdx cols)) kept
  /\ map jiraTicket records = map (fun _ => sheetName) kept.
Proof.
  intros Hh. cbn zeta. rewrite (sheetRecords_located sheetName rows Hh).
  rewrite length_map, !map_map. repeat split.
Qed.

Lemma records_follow_data_rows_witness :
  map tester
      (sheetRecords "NR-3" (Some [["Tester"; "Defect"]; [" Ann "; "D-1"]; [" "; "D-2"];
                                  ["Bob"]]))
  = map (fun row => cell row (testerIdx (locateColumns
                                           (headerOf [["Tester"; "Defect"]; [" Ann "; "D-1"];
                                                      [" "; "D-2"]; ["Bob"]]))))
        (filter (fun row => negb (blankTester
                                    (locateColumns
                                       (headerOf [["Tester"; "Defect"]; [" Ann "; "D-1"];
                                                  [" "; "D-2"]; ["Bob"]])) row))
                (dataRows [["Tester"; "Defect"]; [" Ann "; "D-1"]; [" "; "D-2"]; ["Bob"]])).
Proof.
  refine (proj1 (proj2 (records_follow_data_rows "NR-3"
                          [["Tester"; "Defect"]; [" Ann "; "D-1"]; [" "; "D-2"]; ["Bob"]] _))).
  vm_compute. discriminate.
Defined.

(** ** Trimming *)

Lemma trimEnd_cons (c : ascii) (s : string) :
  trimEnd (String c s)
  = match trimEnd s with
    | EmptyString => if isWhiteSpace c then EmptyString else String c EmptyString
    | t => String c t
    end.
Proof. reflexivity. Qed.

Lemma trimEnd_idem (s : string) : trimEnd (trimEnd s) = trimEnd s.
Proof.
  induction s as [|c s IH]; [reflexivity |]. rewrite trimEnd_cons.
  destruct (trimEnd s) as [|d t] eqn:E.
  - destruct (isWhiteSpace c) eqn:W; [reflexivity |].
    rewrite trimEnd_cons. cbn [trimEnd]. now rewrite W.
  - rewrite trimEnd_cons, IH. reflexivity.
Qed.

Lemma trimEnd_head (c : ascii) (s : string) :
  isWhiteSpace c = false -> exists t, trimEnd (String c s) = String c t.
Proof.
  intros W. rewrite trimEnd_cons. destruct (trimEnd s) as [|d t].
  - rewrite W. now exists "".
  - now exists (String d t).
Qed.

Lemma trim_idem (s : string) : trim (trim s) = trim s.
Proof.
  unfold trim.
  destruct (trimStart_head s) as [E | (c & t & E & W)]; rewrite E.
  - reflexivity.
  - destruct (trimEnd_head c t W) as (u & Eu). rewrite Eu.
    cbn [trimStart]. rewrite W, <- Eu. apply trimEnd_idem.
Qed.

Lemma iterationLabel_trimmed (raw : string) : trimmed (iterationLabel raw).
Proof. apply trim_idem. Qed.

Lemma statusOf_trimmed (raw : string) : trimmed (statusOf raw).
Proof.
  unfold statusOf. destruct (truthy (trim raw)); [apply trim_idem | reflexivity].
Qed.

Lemma sheetNames_In (titles : list string) (title : string) :
  In title (sheetNames titles) <-> In title titles /\ isIndexName title = false.
Proof.
  unfold sheetNames, isIndexName. rewrite filter_In, negb_true_iff. tauto.
Qed.

(** X8. What a fetch stores in a record: the status and the iteration label
    are trimmed (trimming them again changes nothing) and the status is not
    empty, the tester is kept as the cell holds it and is not blank, and the
    ticket is the title of a sheet other than the index sheet. *)
Theorem record_fields_after_fetch
  (sheets : list (string * option Grid)) (r : TestRecord) :
  In r (allData (fetchAllSheetsData sheets)) ->
  trimmed (overallStatus r)
  /\ overallStatus r <> ""
  /\ trimmed (iteration r)
  /\ allWhiteSpace (tester r) = false
  /\ In (jiraTicket r) (sheetNames (map fst sheets)).
Proof.
  intros H. apply allData_origin in H.
  destruct H as (sheetName & rows & row & Hs & Hn & _ & _ & Hp).
  apply processRow_some in Hp. destruct Hp as (Hb & ->).
  cbn [overallStatus iteration tester jiraTicket].
  split; [apply statusOf_trimmed |]. split; [apply statusOf_cases |].
  split; [apply iterationLabel_trimmed |]. split; [exact Hb |].
  apply sheetNames_In. split; [| exact Hn].
  apply in_map_iff. now exists (sheetName, Some rows).
Qed.

Lemma record_fields_after_fetch_witness :
  trimmed (overallStatus (mkTestRecord "Alice" "NR-101" "" "Failed" "BUG-1" "")).
Proof.
  refine (proj1 (record_fields_after_fetch Samples.twoSheets
                   (mkTestRecord "Alice" "NR-101" "" "Failed" "BUG-1" "") _)).
  vm_compute. right. left. reflexivity.
Defined.

(** * Further properties of the report *)

(** ** The groups with their status tables *)

Section MapValues.
Context {A B : Type} (f : A -> B).

Lemma get_mapValues (m : JsMap.t A) (k : string) :
  JsMap.get (mapValues f m) k = option_map f (JsMap.get m k).
Proof.
  induction m as [|[k' v] m IH]; [reflexivity |]. cbn.
  now destruct (k' =? k).
Qed.

Lemma set_mapValues (m : JsMap.t A) (k : string) (v : A) :
  JsMap.set (mapValues f m) k (f v) = mapValues f (JsMap.set m k v).
Proof.
  induction m as [|[k' v'] m IH]; [reflexivity |]. cbn.
  destruct (k' =? k); [reflexivity |]. cbn. f_equal. exact IH.
Qed.

Lemma keys_mapValues (m : JsMap.t A) : JsMap.keys (mapValues f m) = JsMap.keys m.
Proof. unfold JsMap.keys, mapValues. rewrite map_map. reflexivity. Qed.

End MapValues.

(** Filing with the status tables is the filing the tickets were counted
    on, with one more field. *)
Lemma fullGroupStep_erase (rows : list TestRecord) (m : JsMap.t FullGroup.t) :
  foldM groupStep rows (mapValues eraseGroup m)
  = match foldM fullGroupStep rows m with
    | Ok g => Ok (mapValues eraseGroup g)
    | TypeError => TypeError
    end.
Proof.
  revert m. induction rows as [|row rows IH]; intros m; cbn [foldM]; [reflexivity |].
  unfold groupStep at 1, fullGroupStep at 1. rewrite get_mapValues.
  destruct (truthy (trim (tester row))); cbn [negb].
  - destruct (JsMap.get m (trim (tester row))) as [g|]; cbn [option_map bind].
    + rewrite <- IH, <- set_mapValues. reflexivity.
    + destruct (inherited (trim (tester row))); cbn [bind]; [reflexivity |].
      rewrite <- IH, <- set_mapValues. reflexivity.
  - cbn [bind]. apply IH.
Qed.

Lemma groupFully_erase (rows : list TestRecord) :
  groupByTester rows
  = match groupFully rows with
    | Ok g => Ok (mapValues eraseGroup g)
    | TypeError => TypeError
    end.
Proof. apply (fullGroupStep_erase rows []). Qed.

Lemma Forall_set {V} (P : string * V -> Prop) (m : JsMap.t V) (k : string) (v : V) :
  Forall P m -> P (k, v) -> Forall P (JsMap.set m k v).
Proof.
  intros Hm Hv. induction m as [|[k' v'] m IH]; cbn.
  - now constructor.
  - inversion Hm as [|? ? Hhd Htl]; subst.
    destruct (k' =? k); constructor; auto.
Qed.

Lemma addToFullGroup_counts (k : string) (g : FullGroup.t) (row : TestRecord) :
  countsMatch (k, g) -> countsMatch (k, addToFullGroup g row).
Proof.
  unfold countsMatch, countsOf. cbn. intros ->.
  now rewrite map_app, fold_left_app.
Qed.

Lemma fullGroupStep_counts (rows : list TestRecord) (m g : JsMap.t FullGroup.t) :
  foldM fullGroupStep rows m = Ok g -> Forall countsMatch m -> Forall countsMatch g.
Proof.
  revert m. induction rows as [|row rows IH]; intros m; cbn [foldM].
  - now intros [= <-].
  - unfold fullGroupStep at 1.
    destruct (truthy (trim (tester row))); cbn [negb bind]; [| apply IH].
    destruct (JsMap.get m (trim (tester row))) as [grp|] eqn:G.
    + cbn [bind]. intros H Hm. apply (IH _ H). apply Forall_set; [exact Hm |].
      apply addToFullGroup_counts. apply get_In in G.
      rewrite Forall_forall in Hm. exact (Hm _ G).
    + destruct (inherited (trim (tester row))); cbn [bind]; [discriminate |].
      intros H Hm. apply (IH _ H). apply Forall_set; [exact Hm |].
      now apply addToFullGroup_counts.
Qed.

(** What [grouped] holds, status tables included, once every record has
    been filed. *)
Lemma groupFully_get (rows : list TestRecord) (grouped : JsMap.t FullGroup.t) (key : string) :
  groupFully rows = Ok grouped ->
  JsMap.get grouped key
  = if truthy key then
      match recordsOfTester key rows with
      | [] => None
      | _ => Some (fullGroupOf key rows)
      end
    else None.
Proof.
  intros H.
  assert (E := groupFully_erase rows). rewrite H in E.
  assert (G := groupByTester_get rows _ key E). rewrite get_mapValues in G.
  assert (C := fullGroupStep_counts rows [] grouped H (Forall_nil _)).
  destruct (JsMap.get grouped key) as [g|] eqn:Eg; cbn [option_map] in G.
  - destruct (truthy key); [| discriminate].
    destruct (recordsOfTester key rows) as [|r0 l0] eqn:Er; [discriminate |].
    apply get_In in Eg. rewrite Forall_forall in C. specialize (C _ Eg).
    unfold countsMatch in C. destruct g as [tn rs sc ti]. cbn in C.
    unfold eraseGroup, groupOf in G. cbn in G. rewrite Er in G.
    injection G as Et Ers Eti. subst tn rs ti sc.
    unfold fullGroupOf. now rewrite Er.
  - destruct (truthy key); [| reflexivity].
    now destruct (recordsOfTester key rows).
Qed.

Lemma groupFully_keys (rows : list TestRecord) (grouped : JsMap.t FullGroup.t) (key : string) :
  groupFully rows = Ok grouped ->
  In key (JsMap.keys grouped) <-> key <> "" /\ recordsOfTester key rows <> [].
Proof.
  intros H. rewrite get_keys, (groupFully_get rows grouped key H).
  destruct (truthy key) eqn:T.
  - apply truthy_true in T. destruct (recordsOfTester key rows); split.
    + intros (v & Hv). discriminate.
    + intros (_ & Hn). now contradiction Hn.
    + intros _. split; [exact T | discriminate].
    + intros _. eauto.
  - apply truthy_false in T. split.
    + intros (v & Hv). discriminate.
    + intros (Hk & _). contradiction.
Qed.

Lemma add_NoDup (s : JsSet.t) (x : string) : NoDup s -> NoDup (JsSet.add s x).
Proof.
  intros H. unfold JsSet.add. destruct (JsSet.has s x) eqn:E; [exact H |].
  apply NoDup_app; [exact H | repeat constructor; intros [] |].
  intros y Hy [<- | []]. apply has_In in Hy. congruence.
Qed.

Lemma fullGroupStep_NoDup (rows : list TestRecord) (m g : JsMap.t FullGroup.t) :
  foldM fullGroupStep rows m = Ok g -> NoDup (JsMap.keys m) -> NoDup (JsMap.keys g).
Proof.
  revert m. induction rows as [|row rows IH]; intros m; cbn [foldM].
  - now intros [= <-].
  - unfold fullGroupStep at 1.
    destruct (truthy (trim (tester row))); cbn [negb bind]; [| apply IH].
    destruct (JsMap.get m (trim (tester row))) as [grp|].
    + cbn [bind]. intros H Hm. apply (IH _ H). rewrite keys_set. now apply add_NoDup.
    + destruct (inherited (trim (tester row))); cbn [bind]; [discriminate |].
      intros H Hm. apply (IH _ H). rewrite keys_set. now apply add_NoDup.
Qed.

Lemma groupFully_NoDup (rows : list TestRecord) (grouped : JsMap.t FullGroup.t) :
  groupFully rows = Ok grouped -> NoDup (JsMap.keys grouped).
Proof. intros H. apply (fullGroupStep_NoDup rows [] grouped H). constructor. Qed.

(** ** Counting *)

Lemma increment_fold_other (l : list string) (m : JsMap.t Index.Tally) (s : string) :
  ~ In s l -> JsMap.get (fold_left Index.increment l m) s = JsMap.get m s.
Proof.
  revert m. induction l as [|x l IH]; intros m Hs; cbn [fold_left]; [reflexivity |].
  rewrite IH by (intros H; apply Hs; now right).
  apply increment_other. intros E. apply Hs. now left.
Qed.

Lemma increment_fold_get (l : list string) (m : JsMap.t Index.Tally) (s : string) :
  inherited s = false ->
  JsMap.get (fold_left Index.increment l m) s
  = let n := List.length (filter (fun x => x =? s) l) in
    match JsMap.get m s with
    | Some (Index.Number k) => Some (Index.Number (k + n))
    | Some Index.Text => Some Index.Text
    | None => if (n =? 0)%nat then None else Some (Index.Number n)
    end.
Proof.
  intros Hs. revert m. induction l as [|x l IH]; intros m; cbn [fold_left filter].
  - cbn. destruct (JsMap.get m s) as [[k|]|]; try reflexivity. now rewrite Nat.add_0_r.
  - rewrite IH. destruct (String.eqb_spec x s) as [-> | Hne].
    + unfold Index.increment. cbn [List.length].
      destruct (JsMap.get m s) as [[k|]|] eqn:G.
      * rewrite get_set_same. cbn zeta. do 2 f_equal. lia.
      * now rewrite get_set_same.
      * rewrite Hs, get_set_same. cbn. do 2 f_equal.
    + now rewrite increment_other.
Qed.

Lemma filter_map_length {A B} (f : A -> B) (p : B -> bool) (l : list A) :
  List.length (filter p (map f l)) = List.length (filter (fun x => p (f x)) l).
Proof.
  induction l as [|x l IH]; [reflexivity |]. cbn. destruct (p (f x)); cbn; now rewrite IH.
Qed.

Lemma countStatus_In (rows : list TestRecord) (s : string) :
  countStatus rows s <> 0%nat <-> In s (map overallStatus rows).
Proof.
  split.
  - intros H. destruct (in_dec string_dec s (map overallStatus rows)) as [Hin | Hout];
      [exact Hin |]. now rewrite countStatus_absent in H.
  - intros Hin E. apply in_map_iff in Hin. destruct Hin as (r & <- & Hr).
    unfold countStatus in E. apply length_zero_iff_nil in E.
    assert (Hf : In r (filter (fun row => overallStatus row =? overallStatus r) rows))
      by (apply filter_In; split; [exact Hr | apply String.eqb_refl]).
    rewrite E in Hf. exact Hf.
Qed.

(** The cell of the pivot table under a status, for a group holding [rows]. *)
Lemma pivot_cell_number (rows : list TestRecord) (s : string) :
  inherited s = false ->
  orZero (readProperty (countsOf rows) s) = Num (countStatus rows s).
Proof.
  intros I. unfold readProperty, countsOf. rewrite increment_fold_get by exact I.
  cbn [JsMap.get]. cbn zeta. rewrite filter_map_length, I. fold (countStatus rows s).
  destruct (countStatus rows s) as [|n]; reflexivity.
Qed.

Lemma pivot_cell (rows : list TestRecord) (s : string) :
  numberOf (orZero (readProperty (countsOf rows) s)) = countStatus rows s
  \/ (inherited s = true /\ In s (map overallStatus rows)).
Proof.
  destruct (inherited s) eqn:I.
  - destruct (in_dec string_dec s (map overallStatus rows)) as [Hin | Hout];
      [now right | left].
    unfold readProperty, countsOf. rewrite increment_fold_other by exact Hout.
    cbn [JsMap.get]. rewrite I. cbn. symmetry. now apply countStatus_absent.
  - left. now rewrite pivot_cell_number.
Qed.

Lemma one_hit (K : list string) (a : string) :
  NoDup K -> In a K ->
  list_sum (map (fun k => if a =? k then 1%nat else 0%nat) K) = 1%nat.
Proof.
  induction K as [|k K IH]; intros Hnd Hin; [contradiction |].
  inversion Hnd as [|? ? Hnot Hnd']; subst. cbn [map]. rewrite list_sum_cons.
  destruct (String.eqb_spec a k) as [-> | Hne].
  - assert (E : list_sum (map (fun k0 => if k =? k0 then 1%nat else 0%nat) K) = 0%nat).
    { clear IH Hnd Hnd' Hin. induction K as [|x K IH]; [reflexivity |].
      cbn [map]. rewrite list_sum_cons.
      destruct (String.eqb_spec k x) as [-> | _]; [exfalso; apply Hnot; now left |].
      rewrite IH; [reflexivity |]. intros H. apply Hnot. now right. }
    rewrite E. reflexivity.
  - destruct Hin as [E | Hin]; [congruence |]. now rewrite IH.
Qed.

Lemma count_cons {A} (f : A -> string) (K : list string) (x : A) (l : list A) :
  list_sum (map (fun k => List.length (filter (fun y => f y =? k) (x :: l))) K)
  = list_sum (map (fun k => if f x =? k then 1%nat else 0%nat) K)
    + list_sum (map (fun k => List.length (filter (fun y => f y =? k) l)) K).
Proof.
  induction K as [|k K IHK]; [reflexivity |].
  cbn [map]. rewrite !list_sum_cons, IHK. cbn [filter].
  destruct (f x =? k); cbn [List.length]; lia.
Qed.

(** Records sorted into classes by a key are counted once each. *)
Lemma partition_count {A} (f : A -> string) (K : list string) (l : list A) :
  NoDup K -> (forall x, In x l -> In (f x) K) ->
  list_sum (map (fun k => List.length (filter (fun x => f x =? k) l)) K)
  = List.length l.
Proof.
  intros Hnd. induction l as [|x l IH]; intros Hin.
  - cbn. clear Hnd. induction K as [|k K IHK]; [reflexivity |]. cbn [map].
    now rewrite list_sum_cons, IHK.
  - rewrite count_cons, (one_hit K (f x) Hnd (Hin x (or_introl eq_refl))).
    rewrite IH by (intros y Hy; apply Hin; now right). reflexivity.
Qed.

(** ** The status list, whatever the records *)

Lemma statusList_parts (rows : list TestRecord) :
  let set := firstSeen (filter truthy (map overallStatus rows)) in
  statusList rows
  = filter (JsSet.has set) statusOrder
    ++ filter (fun s => negb (JsSet.has (filter (JsSet.has set) statusOrder) s)) set.
Proof.
  cbn zeta. unfold statusList, statusSet. rewrite ofList_firstSeen.
  apply pushIfNew_fold, firstSeen_NoDup.
Qed.

Lemma statusList_In (rows : list TestRecord) (s : string) :
  In s (statusList rows) <-> s <> "" /\ In s (map overallStatus rows).
Proof.
  rewrite statusList_parts, in_app_iff, !filter_In, negb_true_iff.
  rewrite has_In, firstSeen_In, filter_In, truthy_true.
  destruct (JsSet.has (filter (JsSet.has (firstSeen (filter truthy (map overallStatus rows))))
                              statusOrder) s) eqn:E.
  - apply has_In, filter_In in E. destruct E as (E1 & E2).
    apply has_In, firstSeen_In, filter_In in E2. rewrite truthy_true in E2.
    intuition discriminate.
  - split.
    + intros [(H1 & H2) | (H2 & _)]; tauto.
    + intros H. right. tauto.
Qed.

Lemma statusList_NoDup (rows : list TestRecord) : NoDup (statusList rows).
Proof.
  rewrite statusList_parts. apply NoDup_app.
  - apply NoDup_filter, statusOrder_NoDup.
  - apply NoDup_filter, firstSeen_NoDup.
  - intros s H1 H2. apply filter_In in H2. destruct H2 as (_ & H2).
    apply negb_true_iff in H2. apply has_In in H1. congruence.
Qed.

Lemma mapM_Ok_map {A B} (f : A -> Result B) (g : A -> B) (l : list A) (ys : list B) :
  mapM f l = Ok ys -> (forall x, In x l -> f x = Ok (g x)) -> ys = map g l.
Proof.
  revert ys. induction l as [|x l IH]; intros ys; cbn [mapM map].
  - now intros [= <-].
  - intros H Hf. rewrite (Hf x (or_introl eq_refl)) in H. cbn [bind] in H.
    destruct (mapM f l) as [ys0|]; cbn [bind] in H; [| discriminate].
    injection H as <-. f_equal. apply IH; [reflexivity |].
    intros y Hy. apply Hf. now right.
Qed.

(** ** The pivot table *)

Lemma recordsOfTester_withTester (key : string) (rows : list TestRecord) :
  key <> "" ->
  filter (fun r => trim (tester r) =? key) (withTester rows) = recordsOfTester key rows.
Proof.
  intros Hk. unfold withTester, recordsOfTester. rewrite filter_filter.
  apply filter_ext. intros r.
  destruct (String.eqb_spec (trim (tester r)) key) as [E | Hne];
    [| apply andb_false_r].
  rewrite andb_true_r. apply truthy_true. congruence.
Qed.

Lemma recordsOfTester_own (rows : list TestRecord) (r : TestRecord) :
  In r rows -> recordsOfTester (trim (tester r)) rows <> [].
Proof.
  intros Hr E.
  assert (H : In r (recordsOfTester (trim (tester r)) rows))
    by (apply filter_In; split; [exact Hr | apply String.eqb_refl]).
  rewrite E in H. exact H.
Qed.

Lemma countStatus_filter (key status : string) (rows : list TestRecord) :
  countStatus (recordsOfTester key rows) status
  = List.length (filter (fun r => trim (tester r) =? key)
                        (filter (fun r => overallStatus r =? status) rows)).
Proof. unfold countStatus, recordsOfTester. now rewrite filter_swap. Qed.

Section PivotFacts.
Variable sortedKeys : list string -> list string.
Hypothesis sortedKeys_perm : forall l, Permutation (sortedKeys l) l.

(** The lines of [data]: one per tester that has records, each made from
    that tester's records. *)
Lemma reportData_rows (rows : list TestRecord) (data : list Data.Row) :
  reportData sortedKeys rows = Ok data ->
  let testers := map Data.testerName data in
  NoDup testers
  /\ (forall k, In k testers <-> k <> "" /\ recordsOfTester k rows <> [])
  /\ data = map (fun k => dataRowOf (statusList rows) k (fullGroupOf k rows)) testers.
Proof.
  unfold reportData.
  destruct (groupFully rows) as [grouped|] eqn:G; cbn [bind]; [| discriminate].
  intros M.
  assert (Keys := fun k => groupFully_keys rows grouped k G).
  assert (E : data = map (fun k => dataRowOf (statusList rows) k (fullGroupOf k rows))
                         (sortedKeys (JsMap.keys grouped))).
  { apply (mapM_Ok_map _ _ _ _ M). intros k Hk.
    apply (Permutation_in _ (sortedKeys_perm _)), Keys in Hk. destruct Hk as (Hk & Hm).
    unfold dataRow. rewrite (groupFully_get rows grouped k G).
    apply truthy_true in Hk. rewrite Hk.
    destruct (recordsOfTester k rows); [now contradiction Hm | reflexivity]. }
  assert (T : map Data.testerName data = sortedKeys (JsMap.keys grouped)).
  { rewrite E, map_map. cbn [Data.testerName dataRowOf]. apply map_id. }
  cbn zeta. rewrite T. split; [| split].
  - apply (Permutation_NoDup (Permutation_sym (sortedKeys_perm _))).
    now apply (groupFully_NoDup rows).
  - intros k. rewrite <- Keys. split; apply Permutation_in;
      [apply sortedKeys_perm | apply Permutation_sym, sortedKeys_perm].
  - exact E.
Qed.

(** The entries the ticket counts were stated on are these lines without
    their status cells. *)
Lemma reportData_agrees (this : Reporter) (model : ReportModel) :
  generateHTMLReport sortedKeys this = Ok model ->
  exists data,
    reportData sortedKeys (allData this) = Ok data
    /\ modelData model = map eraseRow data.
Proof.
  unfold generateHTMLReport, reportData.
  rewrite (groupFully_erase (allData this)).
  destruct (groupFully (allData this)) as [grouped|] eqn:G; cbn [bind]; [| discriminate].
  unfold sortedTesters. rewrite keys_mapValues.
  generalize (sortedKeys (JsMap.keys grouped)). intros keys.
  assert (Each : forall k,
             testerEntry (mapValues eraseGroup grouped) k
             = match dataRow (statusList (allData this)) grouped k with
               | Ok row => Ok (eraseRow row)
               | TypeError => TypeError
               end).
  { intros k. unfold testerEntry, dataRow. rewrite get_mapValues.
    now destruct (JsMap.get grouped k). }
  assert (All : mapM (testerEntry (mapValues eraseGroup grouped)) keys
                = match mapM (dataRow (statusList (allData this)) grouped) keys with
                  | Ok data => Ok (map eraseRow data)
                  | TypeError => TypeError
                  end).
  { induction keys as [|k keys IH]; [reflexivity |]. cbn [mapM]. rewrite Each, IH.
    destruct (dataRow (statusList (allData this)) grouped k); cbn [bind]; [| reflexivity].
    now destruct (mapM (dataRow (statusList (allData this)) grouped) keys). }
  rewrite All.
  destruct (mapM (dataRow (statusList (allData this)) grouped) keys) as [data|];
    cbn [bind]; [| discriminate].
  intros [= <-]. now exists data.
Qed.

Lemma statusList_covers (rows : list TestRecord) (key : string) :
  (forall r, In r (recordsOfTester key rows) -> overallStatus r <> "") ->
  forall r, In r (recordsOfTester key rows) -> In (overallStatus r) (statusList rows).
Proof.
  intros Hne r Hr. apply statusList_In. split; [now apply Hne |].
  apply in_map. apply filter_In in Hr. tauto.
Qed.

Lemma pivot_line_cell
  (rows : list TestRecord) (data : list Data.Row) (line : Data.Row) :
  reportData sortedKeys rows = Ok data ->
  In line data ->
  forall i status,
    nth_error (statusList rows) i = Some status -> inherited status = false ->
    nth_error (Data.statusCounts line) i
    = Some (Num (countStatus (recordsOfTester (Data.testerName line) rows) status)).
Proof.
  intros H Hl i status Hi Hs. destruct (reportData_rows rows data H) as (_ & _ & E).
  rewrite E in Hl. apply in_map_iff in Hl. destruct Hl as (k & <- & _).
  cbn [Data.testerName Data.statusCounts dataRowOf fullGroupOf FullGroup.statusCounts].
  unfold pivotCells. rewrite nth_error_map, Hi. cbn [option_map].
  now rewrite pivot_cell_number.
Qed.

(** X9. A line of the pivot table: its total is the number of the tester's
    records; it has one cell per listed status; the cell under a status that
    is not named like an inherited member is the number of the tester's
    records with that status; and when none of the tester's records has an
    empty status or one named like an inherited member, the numbers in the
    cells add up to the total. *)
Theorem pivot_line_counts_records
  (rows : list TestRecord) (data : list Data.Row) (line : Data.Row) :
  reportData sortedKeys rows = Ok data ->
  In line data ->
  let mine := recordsOfTester (Data.testerName line) rows in
  Data.total line = List.length mine
  /\ List.length (Data.statusCounts line) = List.length (statusList rows)
  /\ (forall i status,
        nth_error (statusList rows) i = Some status -> inherited status = false ->
        nth_error (Data.statusCounts line) i = Some (Num (countStatus mine status)))
  /\ ((forall r, In r mine ->
                 overallStatus r <> "" /\ inherited (overallStatus r) = false) ->
      list_sum (map numberOf (Data.statusCounts line)) = Data.total line).
Proof.
  intros H Hl. destruct (reportData_rows rows data H) as (_ & _ & E).
  rewrite E in Hl. apply in_map_iff in Hl. destruct Hl as (k & <- & _).
  cbn [Data.testerName Data.total Data.statusCounts dataRowOf fullGroupOf
       FullGroup.rows FullGroup.statusCounts].
  unfold pivotCells. split; [reflexivity |]. split; [apply length_map |]. split.
  - intros i status Hi Hs. rewrite nth_error_map, Hi. cbn [option_map].
    now rewrite pivot_cell_number.
  - intros Hmine. rewrite map_map.
    rewrite <- (partition_count overallStatus (statusList rows) (recordsOfTester k rows)
                  (statusList_NoDup rows)).
    + f_equal. apply map_ext_in. intros s Hs.
      destruct (pivot_cell (recordsOfTester k rows) s) as [E1 | (I & Hin)]; [exact E1 |].
      apply in_map_iff in Hin. destruct Hin as (r & <- & Hr).
      destruct (Hmine r Hr) as (_ & N). congruence.
    + apply statusList_covers. intros r Hr. now apply Hmine.
Qed.

(** X10. The series of the stacked bar chart add up to the global counts:
    when every record has a tester, the cells under a status (not named like
    an inherited member), one per tester, add up to the number of records
    with that status. *)
Theorem bar_series_add_up_to_global_counts
  (rows : list TestRecord) (data : list Data.Row) (i : nat) (status : string) :
  reportData sortedKeys rows = Ok data ->
  (forall r, In r rows -> trim (tester r) <> "") ->
  nth_error (statusList rows) i = Some status ->
  inherited status = false ->
  nth_error (barSeries (statusList rows) data) i
  = Some (map (fun line => Num (countStatus (recordsOfTester (Data.testerName line) rows)
                                            status)) data)
  /\ list_sum (map numberOf (nth i (barSeries (statusList rows) data) []))
     = nth i (statusCounts rows) 0%nat
  /\ nth i (statusCounts rows) 0%nat = countStatus rows status.
Proof.
  intros H Htester Hi Hs.
  destruct (reportData_rows rows data H) as (Hnd & Hkeys & E).
  assert (Hlt : (i < List.length (statusList rows))%nat)
    by (apply nth_error_Some; congruence).
  assert (Series : nth_error (barSeries (statusList rows) data) i
                   = Some (map (fun line =>
                                  Num (countStatus
                                         (recordsOfTester (Data.testerName line) rows)
                                         status)) data)).
  { unfold barSeries. rewrite nth_error_map.
    rewrite (nth_error_nth' _ 0%nat) by now rewrite length_seq.
    rewrite seq_nth by exact Hlt. cbn [option_map plus]. f_equal.
    apply map_ext_in. intros line Hl.
    assert (Hc := pivot_line_cell rows data line H Hl i status Hi Hs).
    now rewrite (nth_error_nth _ _ _ Hc). }
  assert (Global : nth i (statusCounts rows) 0%nat = countStatus rows status).
  { unfold statusCounts. fold (countStatus rows).
    apply nth_error_nth. now rewrite nth_error_map, Hi. }
  split; [exact Series |]. split; [| exact Global].
  rewrite (nth_error_nth _ _ _ Series), Global, map_map. cbn [numberOf].
  rewrite <- (map_map Data.testerName
                (fun k => countStatus (recordsOfTester k rows) status)).
  rewrite (map_ext _ _ (fun k => countStatus_filter k status rows)).
  unfold countStatus at 1.
  apply (partition_count (fun r => trim (tester r)) _ _ Hnd).
  intros r Hr. apply filter_In in Hr. destruct Hr as (Hr & _).
  apply Hkeys. split; [now apply Htester | now apply recordsOfTester_own].
Qed.

(** X11. The lines of the pivot table stand for distinct testers, each named
    by a trimmed, non-empty name; their totals add up to the number of
    records that have a tester, so to the number of all records when none has
    a blank tester. *)
Theorem pivot_totals_add_up (rows : list TestRecord) (data : list Data.Row) :
  reportData sortedKeys rows = Ok data ->
  NoDup (map Data.testerName data)
  /\ (forall line, In line data ->
        Data.testerName line <> "" /\ trimmed (Data.testerName line))
  /\ list_sum (map Data.total data) = List.length (withTester rows)
  /\ ((forall r, In r rows -> trim (tester r) <> "") ->
      list_sum (map Data.total data) = List.length rows).
Proof.
  intros H. destruct (reportData_rows rows data H) as (Hnd & Hkeys & E).
  assert (Sum : list_sum (map Data.total data) = List.length (withTester rows)).
  { rewrite <- (partition_count (fun r => trim (tester r)) _ (withTester rows) Hnd).
    - rewrite E at 1. rewrite !map_map. f_equal. apply map_ext_in. intros line Hl.
      cbn [Data.total dataRowOf fullGroupOf FullGroup.rows].
      rewrite recordsOfTester_withTester; [reflexivity |].
      apply Hkeys. now apply in_map.
    - intros r Hr. apply filter_In in Hr. destruct Hr as (Hr & Ht).
      apply Hkeys. split; [now apply truthy_true | now apply recordsOfTester_own]. }
  split; [exact Hnd |]. split; [| split; [exact Sum |]].
  - intros line Hl. assert (Hk := in_map Data.testerName _ _ Hl).
    apply Hkeys in Hk. destruct Hk as (Hk & Hm). split; [exact Hk |].
    destruct (recordsOfTester (Data.testerName line) rows) as [|r l] eqn:Er;
      [now contradiction Hm |].
    assert (Hr : In r (recordsOfTester (Data.testerName line) rows))
      by (rewrite Er; now left).
    apply filter_In in Hr. destruct Hr as (_ & Hr). apply String.eqb_eq in Hr.
    unfold trimmed. rewrite <- Hr. apply trim_idem.
  - intros Htester. rewrite Sum. unfold withTester. f_equal.
    rewrite <- (filter_ext_in (fun _ => true)).
    + clear. induction rows as [|r rows IH]; [reflexivity |]. cbn. now rewrite IH.
    + intros r Hr. symmetry. now apply truthy_true, Htester.
Qed.

End PivotFacts.

(** ** The aggregate blocks *)

Lemma filter_either {A} (p q : A -> bool) (l : list A) :
  (forall x, In x l -> p x && q x = false) ->
  Permutation (filter p l ++ filter q l) (filter (fun x => p x || q x) l).
Proof.
  induction l as [|x l IH]; intros H; [apply perm_nil |].
  assert (IH' := IH (fun y Hy => H y (or_intror Hy))).
  assert (Hx := H x (or_introl eq_refl)). cbn [filter].
  destruct (p x), (q x); try discriminate; cbn [orb app].
  - now apply perm_skip.
  - apply Permutation_sym, Permutation_cons_app, Permutation_sym. exact IH'.
  - exact IH'.
Qed.

Lemma classes_perm {A} (f : A -> string) (K : list string) (l : list A) :
  NoDup K ->
  Permutation (flat_map (fun k => filter (fun x => f x =? k) l) K)
              (filter (fun x => JsSet.has K (f x)) l).
Proof.
  induction K as [|k K IH]; intros Hnd; cbn [flat_map].
  - induction l as [|x l IHl]; [apply perm_nil | exact IHl].
  - inversion Hnd as [|? ? Hnot Hnd']; subst.
    apply perm_trans with (filter (fun x => f x =? k) l
                           ++ filter (fun x => JsSet.has K (f x)) l).
    + apply Permutation_app_head. now apply IH.
    + rewrite (filter_ext (fun x => JsSet.has (k :: K) (f x))
                          (fun x => (f x =? k) || JsSet.has K (f x))).
      * apply filter_either. intros x _.
        destruct (String.eqb_spec (f x) k) as [-> | _]; [| reflexivity].
        cbn [andb]. apply not_true_is_false. intros Hin. apply Hnot. now apply has_In.
      * intros x. unfold JsSet.has. cbn [existsb]. reflexivity.
Qed.

Lemma class_keys {A} (f : A -> string) (k : string) (l : list A) :
  map f (filter (fun x => f x =? k) l)
  = repeat k (List.length (filter (fun x => f x =? k) l)).
Proof.
  induction l as [|x l IH]; [reflexivity |]. cbn [filter].
  destruct (String.eqb_spec (f x) k) as [E | _]; [| exact IH].
  cbn [map List.length repeat]. now rewrite IH, E.
Qed.

Lemma sortedRows_In (rows : list TestRecord) (r : TestRecord) :
  In r (sortedRows rows) <-> In r rows /\ canonical (overallStatus r) = true.
Proof.
  unfold sortedRows, canonical. rewrite in_flat_map, has_In. split.
  - intros (s & Hs & Hr). apply filter_In in Hr. destruct Hr as (Hr & E).
    apply String.eqb_eq in E. subst s. tauto.
  - intros (Hr & Hs). exists (overallStatus r). split; [exact Hs |].
    apply filter_In. split; [exact Hr | apply String.eqb_refl].
Qed.

Lemma sortedRows_statuses (rows : list TestRecord) :
  map overallStatus (sortedRows rows)
  = flat_map (fun s => repeat s (countStatus rows s)) statusOrder.
Proof.
  unfold sortedRows. generalize statusOrder. intros K.
  induction K as [|k K IH]; [reflexivity |]. cbn [flat_map].
  now rewrite map_app, IH, class_keys.
Qed.

Lemma sortedRows_length (rows : list TestRecord) :
  List.length (sortedRows rows) = list_sum (map (countStatus rows) statusOrder).
Proof.
  unfold sortedRows. generalize statusOrder. intros K.
  induction K as [|k K IH]; [reflexivity |]. cbn [flat_map map].
  now rewrite length_app, list_sum_cons, IH.
Qed.

Lemma canonical_own : forall s, In s statusOrder -> inherited s = false.
Proof.
  intros s H. unfold statusOrder in H. simpl in H.
  destruct H as [<- | [<- | [<- | [<- | [<- | []]]]]]; reflexivity.
Qed.

Lemma readProperty_countsOf (rows : list TestRecord) (s : string) :
  inherited s = false ->
  readProperty (countsOf rows) s
  = if (countStatus rows s =? 0)%nat then Undefined else Num (countStatus rows s).
Proof.
  intros I. unfold readProperty, countsOf. rewrite increment_fold_get by exact I.
  cbn [JsMap.get]. cbn zeta. rewrite filter_map_length, I. fold (countStatus rows s).
  now destruct (countStatus rows s).
Qed.

Lemma statusSummary_countsOf (rows : list TestRecord) :
  statusSummary (countsOf rows)
  = map (fun s => (s, Num (countStatus rows s)))
        (filter (fun s => negb (countStatus rows s =? 0)%nat) statusOrder).
Proof.
  unfold statusSummary.
  assert (Own := canonical_own). revert Own. generalize statusOrder. intros K Own.
  induction K as [|k K IH]; [reflexivity |]. cbn [filter].
  assert (IH' := IH (fun s Hs => Own s (or_intror Hs))).
  rewrite (readProperty_countsOf rows k) by (apply Own; now left).
  destruct (countStatus rows k) as [|n] eqn:E; cbn [Nat.eqb truthyValue negb map].
  - exact IH'.
  - rewrite IH', (readProperty_countsOf rows k) by (apply Own; now left).
    now rewrite E.
Qed.

Lemma summary_total (rows : list TestRecord) (K : list string) :
  list_sum (map (fun entry => numberOf (snd entry))
                (map (fun s => (s, Num (countStatus rows s)))
                     (filter (fun s => negb (countStatus rows s =? 0)%nat) K)))
  = list_sum (map (countStatus rows) K).
Proof.
  induction K as [|k K IH]; [reflexivity |]. cbn [filter map]. rewrite list_sum_cons.
  destruct (countStatus rows k) as [|n] eqn:E; cbn [Nat.eqb negb map].
  - now rewrite IH.
  - rewrite list_sum_cons, IH. cbn [snd numberOf]. now rewrite E.
Qed.

Lemma firstSeen_single (l : list string) :
  (List.length (firstSeen l) <= 1)%nat <-> (forall x y, In x l -> In y l -> x = y).
Proof.
  destruct l as [|a l]; [split; [intros _ x y [] | simpl; lia] |].
  cbn [firstSeen List.length]. split.
  - intros H.
    assert (E : filter (fun y => negb (y =? a)) (firstSeen l) = [])
      by (apply length_zero_iff_nil; lia).
    assert (All : forall x, In x l -> x = a).
    { intros x Hx. destruct (String.eqb_spec x a) as [-> | Hne]; [reflexivity |].
      assert (Hin : In x (filter (fun y => negb (y =? a)) (firstSeen l))).
      { apply filter_In. split; [now apply firstSeen_In |].
        apply negb_true_iff. now apply String.eqb_neq. }
      rewrite E in Hin. contradiction. }
    intros x y [<- | Hx] [<- | Hy]; auto.
    + symmetry. now apply All.
    + rewrite (All x Hx). symmetry. now apply All.
  - intros H.
    assert (E : filter (fun y => negb (y =? a)) (firstSeen l) = []).
    { destruct (filter (fun y => negb (y =? a)) (firstSeen l)) as [|x t] eqn:F;
        [reflexivity |].
      assert (Hin : In x (filter (fun y => negb (y =? a)) (firstSeen l)))
        by (rewrite F; now left).
      apply filter_In in Hin. destruct Hin as (Hin & Hne).
      apply (proj1 (firstSeen_In l x)) in Hin.
      apply negb_true_iff, String.eqb_neq in Hne.
      exfalso. apply Hne. apply H; [now right | now left]. }
    rewrite E. simpl. lia.
Qed.

Lemma borderColor_cases (n : nat) :
  (borderColor n = green <-> (n <= 1)%nat)
  /\ (borderColor n = amber <-> (2 <= n <= 3)%nat)
  /\ (borderColor n = red <-> (3 < n)%nat).
Proof.
  unfold borderColor, green, amber, red.
  destruct (Nat.ltb_spec 3 n); [| destruct (Nat.ltb_spec 1 n)];
    repeat split; intros; try lia; try discriminate; reflexivity.
Qed.

Section BlockFacts.
Variable sortedKeys : list string -> list string.
Hypothesis sortedKeys_perm : forall l, Permutation (sortedKeys l) l.

(** The blocks are made from the lines of [data], each from its tester's
    group. *)
Lemma aggregateBlocks_rows (rows : list TestRecord) (blocks : list Block.t) :
  aggregateBlocks sortedKeys rows = Ok blocks ->
  exists data,
    reportData sortedKeys rows = Ok data
    /\ blocks
       = map (fun line =>
                let mine := recordsOfTester (Data.testerName line) rows in
                {| Block.tester := Data.testerName line;
                   Block.summary := statusSummary (countsOf mine);
                   Block.ticketBorders :=
                     map (fun detail => (ticket detail, borderColor (count detail)))
                         (ticketDetailsOf (groupOf (Data.testerName line) rows));
                   Block.tableRows := sortedRows mine |}) data.
Proof.
  unfold aggregateBlocks.
  destruct (groupFully rows) as [grouped|] eqn:G; cbn [bind]; [| discriminate].
  destruct (mapM (dataRow (statusList rows) grouped) (sortedKeys (JsMap.keys grouped)))
    as [data|] eqn:M; cbn [bind]; [| discriminate].
  intros B. exists data.
  assert (R : reportData sortedKeys rows = Ok data)
    by (unfold reportData; rewrite G; exact M).
  split; [exact R |].
  destruct (reportData_rows sortedKeys sortedKeys_perm rows data R) as (_ & Hkeys & E).
  apply (mapM_Ok_map _ _ _ _ B). intros line Hl.
  assert (Hk := in_map Data.testerName _ _ Hl). apply Hkeys in Hk.
  destruct Hk as (Hk & Hm).
  assert (Hg : JsMap.get grouped (Data.testerName line)
               = Some (fullGroupOf (Data.testerName line) rows)).
  { rewrite (groupFully_get rows grouped _ G). apply truthy_true in Hk. rewrite Hk.
    destruct (recordsOfTester (Data.testerName line) rows);
      [now contradiction Hm | reflexivity]. }
  assert (Hd : Data.ticketDetails line
               = ticketDetailsOf (groupOf (Data.testerName line) rows)).
  { rewrite E in Hl. apply in_map_iff in Hl. destruct Hl as (k & <- & _). reflexivity. }
  unfold aggregateBlock. rewrite Hg, Hd. reflexivity.
Qed.

(** X12. The table of a tester's block lists that tester's records whose
    status is one of the five canonical ones, each once, grouped by status
    in the canonical order; a record with any other status is counted in
    the tester's total and left out of the table. *)
Theorem block_table_lists_canonical_rows
  (rows : list TestRecord) (blocks : list Block.t) (b : Block.t) :
  aggregateBlocks sortedKeys rows = Ok blocks ->
  In b blocks ->
  let mine := recordsOfTester (Block.tester b) rows in
  Permutation (Block.tableRows b)
              (filter (fun r => canonical (overallStatus r)) mine)
  /\ (forall r, In r (Block.tableRows b)
                <-> In r mine /\ canonical (overallStatus r) = true)
  /\ map overallStatus (Block.tableRows b)
     = flat_map (fun s => repeat s (countStatus mine s)) statusOrder
  /\ List.length (Block.tableRows b)
     + List.length (filter (fun r => negb (canonical (overallStatus r))) mine)
     = List.length mine.
Proof.
  intros H Hb. destruct (aggregateBlocks_rows rows blocks H) as (data & _ & E).
  rewrite E in Hb. apply in_map_iff in Hb. destruct Hb as (line & <- & _).
  cbn [Block.tester Block.tableRows]. cbn zeta.
  set (mine := recordsOfTester (Data.testerName line) rows).
  assert (P : Permutation (sortedRows mine)
                          (filter (fun r => canonical (overallStatus r)) mine))
    by (apply (classes_perm overallStatus statusOrder mine), statusOrder_NoDup).
  split; [exact P |]. split; [apply sortedRows_In |].
  split; [apply sortedRows_statuses |].
  rewrite (Permutation_length P).
  clear. induction mine as [|r mine IH]; [reflexivity |]. cbn [filter].
  destruct (canonical (overallStatus r)); cbn [negb List.length]; lia.
Qed.

(** X13. The summary at the head of a tester's block names, in the canonical
    order, the canonical statuses that tester has records with, each with the
    number of those records; the numbers add up to the number of rows of the
    block's table. *)
Theorem block_summary_counts_canonical_statuses
  (rows : list TestRecord) (blocks : list Block.t) (b : Block.t) :
  aggregateBlocks sortedKeys rows = Ok blocks ->
  In b blocks ->
  let mine := recordsOfTester (Block.tester b) rows in
  Block.summary b
  = map (fun s => (s, Num (countStatus mine s)))
        (filter (fun s => negb (countStatus mine s =? 0)%nat) statusOrder)
  /\ list_sum (map (fun entry => numberOf (snd entry)) (Block.summary b))
     = List.length (Block.tableRows b).
Proof.
  intros H Hb. destruct (aggregateBlocks_rows rows blocks H) as (data & _ & E).
  rewrite E in Hb. apply in_map_iff in Hb. destruct Hb as (line & <- & _).
  cbn [Block.tester Block.tableRows Block.summary]. cbn zeta.
  rewrite statusSummary_countsOf. split; [reflexivity |].
  now rewrite summary_total, sortedRows_length.
Qed.

(** X14. The tickets listed in a tester's block are that tester's tickets in
    the order first seen, and the border of a ticket tells how many distinct
    labels the tester's records for it carry: green when they all carry the
    same label, red when they carry more than three distinct ones, amber
    otherwise. *)
Theorem block_ticket_borders
  (rows : list TestRecord) (blocks : list Block.t) (b : Block.t) :
  aggregateBlocks sortedKeys rows = Ok blocks ->
  In b blocks ->
  let mine := recordsOfTester (Block.tester b) rows in
  map fst (Block.ticketBorders b) = firstSeen (map jiraTicket mine)
  /\ forall t colour,
       In (t, colour) (Block.ticketBorders b) ->
       let labels := map iterationOrOne (recordsOfTicket t mine) in
       labels <> []
       /\ (colour = green <-> forall x y, In x labels -> In y labels -> x = y)
       /\ (colour = red <-> (3 < List.length (firstSeen labels))%nat)
       /\ (colour = green \/ colour = amber \/ colour = red).
Proof.
  intros H Hb. destruct (aggregateBlocks_rows rows blocks H) as (data & _ & E).
  rewrite E in Hb. apply in_map_iff in Hb. destruct Hb as (line & <- & _).
  cbn [Block.tester Block.ticketBorders]. cbn zeta.
  destruct (groupOf_details (Data.testerName line) rows) as (Ek & Hcount & _).
  split; [now rewrite map_map, <- Ek |].
  intros t colour Hin. apply in_map_iff in Hin. destruct Hin as (d & [= <- <-] & Hd).
  destruct (Hcount d Hd) as (Hne & Ec).
  destruct (borderColor_cases (count d)) as (G & A & R).
  split; [intros E0; apply map_eq_nil in E0; contradiction |].
  split; [rewrite G, Ec; apply firstSeen_single |].
  split; [now rewrite R, Ec |].
  destruct (Nat.le_gt_cases (count d) 1) as [L | L]; [left; now apply G |].
  destruct (Nat.le_gt_cases (count d) 3) as [L' | L']; [right; left | right; right].
  - apply A. lia.
  - now apply R.
Qed.

End BlockFacts.

(** ** The report of the sample records *)

Example reportData_of_alice_and_bob :
  reportData Samples.sortByLowerCase Samples.aliceAndBob
  = Ok [ReportSamples.aliceLine; ReportSamples.bobLine]
  /\ barSeries (statusList Samples.aliceAndBob)
               [ReportSamples.aliceLine; ReportSamples.bobLine]
     = [[Num 2; Num 1]; [Num 1; Num 0]; [Num 1; Num 0]].
Proof. split; vm_compute; reflexivity. Qed.

Lemma aliceAndBob_have_testers :
  forall r, In r Samples.aliceAndBob -> trim (tester r) <> "".
Proof.
  intros r H. simpl in H.
  destruct H as [<- | [<- | [<- | [<- | [<- | []]]]]]; vm_compute; discriminate.
Qed.

Lemma pivot_line_counts_records_witness :
  Data.total ReportSamples.aliceLine
  = List.length (recordsOfTester "Alice" Samples.aliceAndBob)
  /\ List.length (Data.statusCounts ReportSamples.aliceLine)
     = List.length (statusList Samples.aliceAndBob).
Proof.
  refine ((fun H => conj (proj1 H) (proj1 (proj2 H)))
            (pivot_line_counts_records Samples.sortByLowerCase sortByLowerCase_perm
               Samples.aliceAndBob _ ReportSamples.aliceLine _ _)).
  - vm_compute. reflexivity.
  - left. reflexivity.
Defined.

Lemma bar_series_add_up_to_global_counts_witness :
  list_sum (map numberOf
                (nth 0 (barSeries (statusList Samples.aliceAndBob)
                                  [ReportSamples.aliceLine; ReportSamples.bobLine]) []))
  = nth 0 (statusCounts Samples.aliceAndBob) 0%nat.
Proof.
  refine (proj1 (proj2 (bar_series_add_up_to_global_counts
                          Samples.sortByLowerCase sortByLowerCase_perm
                          Samples.aliceAndBob
                          [ReportSamples.aliceLine; ReportSamples.bobLine]
                          0%nat "Passed" _ aliceAndBob_have_testers _ _))).
  - vm_compute. reflexivity.
  - vm_compute. reflexivity.
  - reflexivity.
Defined.

Lemma pivot_totals_add_up_witness :
  list_sum (map Data.total [ReportSamples.aliceLine; ReportSamples.bobLine])
  = List.length (withTester Samples.aliceAndBob).
Proof.
  refine (proj1 (proj2 (proj2 (pivot_totals_add_up
                                 Samples.sortByLowerCase sortByLowerCase_perm
                                 Samples.aliceAndBob
                                 [ReportSamples.aliceLine; ReportSamples.bobLine] _)))).
  vm_compute. reflexivity.
Defined.

Example blocks_of_alice_and_bob :
  exists bobBlock,
    aggregateBlocks Samples.sortByLowerCase Samples.aliceAndBob
    = Ok [ReportSamples.aliceBlock; bobBlock].
Proof. eexists. vm_compute. reflexivity. Qed.

Lemma block_table_lists_canonical_rows_witness :
  List.length (Block.tableRows ReportSamples.aliceBlock)
  + List.length (filter (fun r => negb (canonical (overallStatus r)))
                        (recordsOfTester "Alice" Samples.aliceAndBob))
  = List.length (recordsOfTester "Alice" Samples.aliceAndBob).
Proof.
  refine (proj2 (proj2 (proj2 (block_table_lists_canonical_rows
                                 Samples.sortByLowerCase sortByLowerCase_perm
                                 Samples.aliceAndBob _ ReportSamples.aliceBlock _ _)))).
  - vm_compute. reflexivity.
  - left. reflexivity.
Defined.

Lemma block_summary_counts_canonical_statuses_witness :
  list_sum (map (fun entry => numberOf (snd entry))
                (Block.summary ReportSamples.aliceBlock))
  = List.length (Block.tableRows ReportSamples.aliceBlock).
Proof.
  refine (proj2 (block_summary_counts_canonical_statuses
                   Samples.sortByLowerCase sortByLowerCase_perm
                   Samples.aliceAndBob _ ReportSamples.aliceBlock _ _)).
  - vm_compute. reflexivity.
  - left. reflexivity.
Defined.

Lemma block_ticket_borders_witness :
  map fst (Block.ticketBorders ReportSamples.aliceBlock)
  = firstSeen (map jiraTicket (recordsOfTester "Alice" Samples.aliceAndBob)).
Proof.
  refine (proj1 (block_ticket_borders
                   Samples.sortByLowerCase sortByLowerCase_perm
                   Samples.aliceAndBob _ ReportSamples.aliceBlock _ _)).
  - vm_compute. reflexivity.
  - left. reflexivity.
Defined.

(** * Further properties of the index sheet *)

Lemma column_last_match
  (proj : Index.Columns -> Z) (label : string) :
  (forall cols c i,
     proj (Index.columnStep cols c i)
     = if includes (toLowerCase c) label then i else proj cols) ->
  forall header i cols,
    ((forall c, In c header -> includes (toLowerCase c) label = false)
     /\ proj (Index.columnsFrom header i cols) = proj cols)
    \/ exists before c after,
         header = before ++ c :: after
         /\ includes (toLowerCase c) label = true
         /\ (forall c', In c' after -> includes (toLowerCase c') label = false)
         /\ proj (Index.columnsFrom header i cols) = (i + Z.of_nat (List.length before))%Z.
Proof.
  intros Step header. induction header as [|c header IH]; intros i cols.
  - left. split; [intros c [] | reflexivity].
  - cbn [Index.columnsFrom].
    destruct (IH (i + 1)%Z (Index.columnStep cols c i))
      as [(Hnone & E) | (before & c0 & after & -> & Hc0 & Hafter & E)].
    + rewrite Step in E. destruct (includes (toLowerCase c) label) eqn:Hc.
      * right. exists [], c, header. cbn [app List.length].
        split; [reflexivity |]. split; [exact Hc |]. split; [exact Hnone |].
        rewrite E. lia.
      * left. split; [| exact E]. intros c' [<- | Hin]; auto.
    + right. exists (c :: before), c0, after. cbn [app List.length].
      split; [reflexivity |]. split; [exact Hc0 |]. split; [exact Hafter |].
      rewrite E. lia.
Qed.

Lemma columns_last_match
  (proj : Index.Columns -> Z) (label : string) (header : Row) :
  (forall cols c i,
     proj (Index.columnStep cols c i)
     = if includes (toLowerCase c) label then i else proj cols) ->
  lastMatch label header (proj Index.fallback) (proj (Index.columns header)).
Proof.
  intros Step. unfold lastMatch, Index.columns.
  destruct (column_last_match proj label Step header 0%Z Index.fallback)
    as [H | (before & c & after & H1 & H2 & H3 & H4)]; [now left | right].
  exists before, c, after. repeat split; auto.
Qed.

(** X15. Each of the five columns of the index table is the last header cell
    that contains its label ("test scenario", "test execution", "test story",
    "description", "status", in any case), and its positional default (0, 1,
    3, 2, 4) when no header cell contains the label. *)
Theorem index_columns_take_last_match (header : Row) :
  let cols := Index.columns header in
  lastMatch "test scenario" header 0 (Index.testScenarioIdx cols)
  /\ lastMatch "test execution" header 1 (Index.testExecutionIdx cols)
  /\ lastMatch "test story" header 3 (Index.testStoryIdx cols)
  /\ lastMatch "description" header 2 (Index.descIdx cols)
  /\ lastMatch "status" header 4 (Index.statusIdx cols).
Proof.
  cbn zeta. repeat split.
  - apply (columns_last_match Index.testScenarioIdx). reflexivity.
  - apply (columns_last_match Index.testExecutionIdx). reflexivity.
  - apply (columns_last_match Index.testStoryIdx). reflexivity.
  - apply (columns_last_match Index.descIdx). reflexivity.
  - apply (columns_last_match Index.statusIdx). reflexivity.
Qed.

Example index_columns_of_repeated_labels :
  Index.columns ["Status"; "Test Story"; "Story status"; "Notes"]
  = Index.mkColumns 0 1 1 2 2.
Proof. reflexivity. Qed.

Lemma tallyTotal_set_new (m : JsMap.t Index.Tally) (k : string) (v : Index.Tally) :
  JsMap.get m k = None ->
  tallyTotal (JsMap.set m k v) = tallyTotal m + tallyValue v.
Proof.
  unfold tallyTotal. induction m as [|[k' v'] m IH]; cbn [JsMap.get JsMap.set map].
  - intros _. rewrite list_sum_cons. cbn. lia.
  - destruct (k' =? k); [discriminate |]. intros H. cbn [map].
    rewrite !list_sum_cons, (IH H). cbn [snd]. lia.
Qed.

Lemma tallyTotal_set_old (m : JsMap.t Index.Tally) (k : string) (old v : Index.Tally) :
  JsMap.get m k = Some old ->
  tallyTotal (JsMap.set m k v) + tallyValue old = tallyTotal m + tallyValue v.
Proof.
  unfold tallyTotal. induction m as [|[k' v'] m IH]; cbn [JsMap.get JsMap.set map];
    [discriminate |].
  destruct (k' =? k).
  - intros [= ->]. cbn [map]. rewrite !list_sum_cons. cbn [snd]. lia.
  - intros H. cbn [map]. rewrite !list_sum_cons. cbn [snd].
    assert (IH' := IH H). lia.
Qed.

Lemma countsOnly_get (m : JsMap.t Index.Tally) (k : string) (v : Index.Tally) :
  countsOnly m -> JsMap.get m k = Some v -> exists n, v = Index.Number n /\ (1 <= n)%nat.
Proof.
  intros Hm G. apply get_In in G. unfold countsOnly in Hm.
  rewrite Forall_forall in Hm. exact (Hm _ G).
Qed.

Lemma increment_counts (m : JsMap.t Index.Tally) (s : string) :
  countsOnly m -> inherited s = false ->
  countsOnly (Index.increment m s)
  /\ tallyTotal (Index.increment m s) = S (tallyTotal m).
Proof.
  intros Hm Hs. unfold Index.increment.
  destruct (JsMap.get m s) as [v|] eqn:G.
  - destruct (countsOnly_get m s v Hm G) as (n & -> & Hn). split.
    + apply Forall_set; [exact Hm |]. exists (n + 1)%nat. cbn. split; [reflexivity | lia].
    + assert (T := tallyTotal_set_old m s (Index.Number n) (Index.Number (n + 1)) G).
      cbn [tallyValue] in T. lia.
  - rewrite Hs. split.
    + apply Forall_set; [exact Hm |]. exists 1%nat. cbn. split; [reflexivity | lia].
    + rewrite (tallyTotal_set_new m s _ G). cbn. lia.
Qed.

Lemma tally_counts (statusIdx : Z) (body : Grid) (m : JsMap.t Index.Tally) :
  countsOnly m ->
  (forall row, In row body -> inherited (cell row statusIdx) = false) ->
  countsOnly (fold_left (Index.tallyStep statusIdx) body m)
  /\ tallyTotal (fold_left (Index.tallyStep statusIdx) body m)
     = tallyTotal m
       + List.length (filter (fun row => truthy (trim (cell row statusIdx))) body).
Proof.
  revert m. induction body as [|row body IH]; intros m Hm Hown; cbn [fold_left filter].
  - split; [exact Hm | cbn; lia].
  - assert (Hrow := Hown row (or_introl eq_refl)).
    assert (Hbody : forall r, In r body -> inherited (cell r statusIdx) = false)
      by (intros r Hr; apply Hown; now right).
    unfold Index.tallyStep at 2 4.
    destruct (truthy (trim (cell row statusIdx))).
    + destruct (increment_counts m (cell row statusIdx) Hm Hrow) as (Hm' & T).
      destruct (IH _ Hm' Hbody) as (C & E). split; [exact C |].
      rewrite E, T. cbn [List.length]. lia.
    + now apply IH.
Qed.

(** X16. When no status of the index table is named like an inherited member,
    the tally of the chart holds counts only, each at least 1, and they add
    up to the number of listed stories whose status is not blank. *)
Theorem index_tally_adds_up (rows : Grid) (v : Index.View) :
  Index.view (Some rows) = Some v ->
  (forall e, In e (Index.entries v) -> inherited (Index.status e) = false) ->
  countsOnly (Index.tally v)
  /\ tallyTotal (Index.tally v)
     = List.length (filter (fun e => truthy (trim (Index.status e))) (Index.entries v)).
Proof.
  unfold Index.view.
  destruct (1 <? Z.of_nat (List.length rows))%Z; [| discriminate].
  intros [= <-]. cbn [Index.entries Index.tally]. intros Hown.
  set (cols := Index.columns match rows with h :: _ => h | [] => [] end) in *.
  destruct (tally_counts (Index.statusIdx cols) (Index.bodyRows rows) [])
    as (C & T).
  - constructor.
  - intros row Hr. apply (Hown (Index.entry cols row)). now apply in_map.
  - split; [exact C |]. unfold Index.statusCountsMap. rewrite T.
    change (tallyTotal []) with 0%nat. rewrite Nat.add_0_l.
    clear. induction (Index.bodyRows rows) as [|row body IH]; [reflexivity |].
    cbn [map filter Index.status Index.entry].
    destruct (truthy (trim (cell row (Index.statusIdx cols)))); cbn [List.length];
      now rewrite IH.
Qed.

Lemma index_tally_adds_up_witness :
  exists v,
    Index.view (Some [["Test Story"; "Description"; "Status"];
                      ["S-1"; "desc"; "Passed"]; ["S-2"; "more"; " "];
                      ["S-3"; "last"; "Passed"]]) = Some v
    /\ tallyTotal (Index.tally v)
       = List.length (filter (fun e => truthy (trim (Index.status e))) (Index.entries v)).
Proof.
  eexists. split; [reflexivity |].
  refine (proj2 (index_tally_adds_up
                   [["Test Story"; "Description"; "Status"];
                    ["S-1"; "desc"; "Passed"]; ["S-2"; "more"; " "];
                    ["S-3"; "last"; "Passed"]] _ eq_refl _)).
  intros e H. simpl in H. destruct H as [<- | [<- | [<- | []]]]; reflexivity.
Defined.

(** * The links of the index table *)

Lemma dropPrefix_Some (p s r : string) :
  dropPrefix p s = Some r <-> s = (p ++ r)%string.
Proof.
  revert s. induction p as [|a p IH]; intros s; cbn.
  - split; [intros [= ->] | intros ->]; reflexivity.
  - destruct s as [|b s]; [split; discriminate |].
    destruct (Ascii.eqb_spec a b) as [<- | Hne].
    + rewrite IH. split; [intros -> | intros [= ->]]; reflexivity.
    + split; [discriminate | intros [= E _]; now symmetry in E].
Qed.

Lemma takeUrlChars_spec (s body after : string) :
  takeUrlChars s = (body, after) ->
  s = (body ++ after)%string /\ allUrlChars body = true /\ urlEndsBefore after.
Proof.
  revert body after. induction s as [|c s IH]; intros body after; cbn.
  - intros [= <- <-]. repeat split. intros c r. discriminate.
  - destruct (isUrlChar c) eqn:Hc.
    + destruct (takeUrlChars s) as [b r]. intros [= <- <-].
      destruct (IH b r eq_refl) as (-> & Hb & Hr).
      cbn. rewrite Hc, Hb. repeat split. exact Hr.
    + intros [= <- <-]. repeat split. intros c' r [= <- <-]. exact Hc.
Qed.

Lemma takeUrlChars_app (body r : string) :
  body <> "" -> allUrlChars body = true -> fst (takeUrlChars (body ++ r)) <> "".
Proof.
  destruct body as [|c body]; [congruence |]. intros _. cbn.
  destruct (isUrlChar c); [| discriminate]. intros _.
  destruct (takeUrlChars (body ++ r)). cbn. discriminate.
Qed.

Lemma urlBodyAfter_spec (before rest url after : string) :
  urlBodyAfter before rest = Some (url, after) ->
  exists body,
    rest = ("://" ++ body ++ after)%string
    /\ url = (before ++ "://" ++ body)%string
    /\ body <> "" /\ allUrlChars body = true /\ urlEndsBefore after.
Proof.
  unfold urlBodyAfter. destruct (dropPrefix "://" rest) as [r|] eqn:D; [| discriminate].
  apply dropPrefix_Some in D. destruct (takeUrlChars r) as [body a] eqn:T.
  apply takeUrlChars_spec in T. destruct T as (-> & Hb & Ha).
  destruct body as [|c body]; [discriminate |]. intros [= <- <-].
  exists (String c body). repeat split; auto. discriminate.
Qed.

Lemma urlBodyAfter_complete (before body r : string) :
  body <> "" -> allUrlChars body = true ->
  urlBodyAfter before ("://" ++ body ++ r) <> None.
Proof.
  intros Hne Hb. unfold urlBodyAfter.
  assert (D : dropPrefix "://" ("://" ++ body ++ r) = Some (body ++ r)%string)
    by (apply dropPrefix_Some; reflexivity).
  rewrite D. assert (T := takeUrlChars_app body r Hne Hb).
  destruct (takeUrlChars (body ++ r)) as [[|c b] a]; cbn in T; [congruence | discriminate].
Qed.

Lemma urlAt_spec (s url after : string) :
  urlAt s = Some (url, after) ->
  s = (url ++ after)%string /\ isUrl url /\ urlEndsBefore after.
Proof.
  unfold urlAt. destruct (dropPrefix "http" s) as [rest|] eqn:D; [| discriminate].
  apply dropPrefix_Some in D. subst s.
  assert (Plain : urlBodyAfter "http" rest = Some (url, after) ->
                  ("http" ++ rest)%string = (url ++ after)%string
                  /\ isUrl url /\ urlEndsBefore after).
  { intros U. apply urlBodyAfter_spec in U.
    destruct U as (body & -> & -> & Hne & Hb & Ha). split.
    - now rewrite !string_app_assoc.
    - split; [| exact Ha]. exists "http", body. auto. }
  assert (Secure : forall rest', rest = String "s" rest' ->
                   urlBodyAfter "https" rest' = Some (url, after) ->
                   ("http" ++ rest)%string = (url ++ after)%string
                   /\ isUrl url /\ urlEndsBefore after).
  { intros rest' -> U. apply urlBodyAfter_spec in U.
    destruct U as (body & -> & -> & Hne & Hb & Ha). split.
    - now rewrite !string_app_assoc.
    - split; [| exact Ha]. exists "https", body. auto. }
  destruct rest as [|c rest']; [exact Plain |].
  destruct (Ascii.eqb_spec c "s") as [-> | Hc].
  - destruct (urlBodyAfter "https" rest') as [[u a]|] eqn:U.
    + intros [= <- <-]. now apply (Secure rest').
    + exact Plain.
  - destruct c as [[] [] [] [] [] [] [] []]; try exact Plain. congruence.
Qed.

Lemma urlAt_complete (s : string) : urlAt s = None -> ~ urlStarts s.
Proof.
  intros N (u & r & -> & scheme & body & -> & Hs & Hne & Hb).
  revert N. unfold urlAt. destruct Hs as [-> | ->].
  - assert (D : dropPrefix "http" (("http" ++ "://" ++ body) ++ r)
                = Some ("://" ++ body ++ r)%string).
    { apply dropPrefix_Some. now rewrite !string_app_assoc. }
    rewrite D. cbn [append]. apply (urlBodyAfter_complete "http" body r Hne Hb).
  - assert (D : dropPrefix "http" (("https" ++ "://" ++ body) ++ r)
                = Some ("s" ++ "://" ++ body ++ r)%string).
    { apply dropPrefix_Some. now rewrite !string_app_assoc. }
    rewrite D. cbn [append].
    assert (C := urlBodyAfter_complete "https" body r Hne Hb). cbn [append] in C.
    destruct (urlBodyAfter "https" _); [discriminate | congruence].
Qed.

Lemma findUrl_spec (s before url after : string) :
  findUrl s = Some (before, url, after) ->
  s = (before ++ url ++ after)%string
  /\ isUrl url /\ urlEndsBefore after
  /\ (forall b1 b2, before = (b1 ++ b2)%string -> b2 <> "" ->
      ~ urlStarts (b2 ++ url ++ after)).
Proof.
  revert before. induction s as [|c s IH]; intros before.
  - cbn. discriminate.
  - cbn [findUrl]. destruct (urlAt (String c s)) as [[u a]|] eqn:U.
    + intros [= <- <- <-]. apply urlAt_spec in U. destruct U as (E & Hu & Ha).
      repeat split; auto. intros [|x b1] [|y b2]; cbn; congruence.
    + destruct (findUrl s) as [[[b u] a]|]; [| discriminate].
      intros [= <- <- <-]. destruct (IH b eq_refl) as (-> & Hu & Ha & Hleft).
      repeat split; auto. intros [|x b1] b2; cbn.
      * intros <- _. cbn. now apply urlAt_complete.
      * intros [= _ ->]. exact (Hleft b1 b2 eq_refl).
Qed.

Lemma findUrl_none (s : string) :
  findUrl s = None -> forall b s', s = (b ++ s')%string -> ~ urlStarts s'.
Proof.
  induction s as [|c s IH]; cbn [findUrl].
  - destruct (urlAt "") eqn:U; [destruct p; discriminate |]. intros _ b s' E.
    destruct b; [| discriminate]. cbn in E. subst s'. now apply urlAt_complete.
  - destruct (urlAt (String c s)) as [[u a]|] eqn:U; [discriminate |].
    destruct (findUrl s) as [[[b u] a]|]; [discriminate |]. intros _ [|x b] s'; cbn.
    + intros <-. now apply urlAt_complete.
    + intros [= _ E]. now apply (IH eq_refl b).
Qed.

Lemma removeParens_clean (s : string) : hasParen (removeParens s) = false.
Proof.
  induction s as [|c s IH]; cbn; [reflexivity |].
  destruct (Ascii.eqb c "(" || Ascii.eqb c ")")%char eqn:Hc; [exact IH |].
  cbn. now rewrite Hc, IH.
Qed.

(** X17. The first cell of a line of the index table. It is the scenario as
    it stands when the scenario is empty, when it contains "http" but no
    address the pattern matches, or when it contains no "http" and does not
    begin with "NR-". It is a link to the leftmost address of the scenario,
    taken as far as it goes, when there is one. Otherwise a scenario that
    begins with "NR-" is linked to the Jira base address followed by the
    scenario. *)
Theorem scenario_cell_cases (ts : string) :
  (testScenarioCell ts = ts
   /\ (ts = ""
       \/ (includes ts "http" = true
           /\ forall b s, ts = (b ++ s)%string -> ~ urlStarts s)
       \/ (includes ts "http" = false /\ String.prefix "NR-" ts = false)))
  \/ (exists before url after,
        ts = (before ++ url ++ after)%string
        /\ isUrl url
        /\ urlEndsBefore after
        /\ (forall b1 b2, before = (b1 ++ b2)%string -> b2 <> "" ->
            ~ urlStarts (b2 ++ url ++ after))
        /\ testScenarioCell ts = anchor url (linkText ts)
        /\ removeUrl ts = (before ++ after)%string)
  \/ (includes ts "http" = false /\ String.prefix "NR-" ts = true
      /\ testScenarioCell ts = anchor (jiraBaseUrl ++ ts) ts).
Proof.
  unfold testScenarioCell, removeUrl.
  destruct ts as [|c ts]; [left; split; [reflexivity | now left] |].
  change (truthy (String c ts)) with true. cbn [andb].
  destruct (includes (String c ts) "http") eqn:Hi.
  - destruct (findUrl (String c ts)) as [[[b u] a]|] eqn:F.
    + right. left. exists b, u, a.
      destruct (findUrl_spec _ _ _ _ F) as (E & Hu & Ha & Hleft).
      repeat split; auto.
    + left. split; [reflexivity |]. right. left. split; [reflexivity |].
      now apply findUrl_none.
  - destruct (String.prefix "NR-" (String c ts)) eqn:Hp.
    + right. right. repeat split.
    + left. split; [reflexivity |]. right. right. split; reflexivity.
Qed.

(** X18. The text of a link made from an address is never empty and holds
    no parenthesis: it is what is left of the scenario around the address,
    trimmed and without its parentheses, and the word "Link" when nothing is
    left. *)
Theorem link_text_is_never_empty (ts : string) :
  linkText ts <> ""
  /\ hasParen (linkText ts) = false
  /\ (linkText ts = "Link"
      <-> removeParens (trim (removeUrl ts)) = ""
          \/ removeParens (trim (removeUrl ts)) = "Link").
Proof.
  unfold linkText.
  destruct (removeParens (trim (removeUrl ts))) as [|c t] eqn:E.
  - cbn. repeat split; try discriminate; auto.
  - change (truthy (String c t)) with true. cbv iota.
    assert (P := removeParens_clean (trim (removeUrl ts))). rewrite E in P.
    repeat split; try discriminate; auto.
    intros [H | H]; [discriminate | exact H].
Qed.

Example scenario_cell_of_a_markdown_link :
  testScenarioCell "Login (https://example.com/a b) flow"
  = anchor "https://example.com/a" "Login  b flow".
Proof. reflexivity. Qed.

Example scenario_cell_of_a_ticket_with_http :
  testScenarioCell "NR-1 http" = "NR-1 http".
Proof. reflexivity. Qed.

(** * The two reporter classes *)

Lemma earlier_groups (rows : list TestRecord) (m : JsMap.t FullGroup.t) :
  foldM Earlier.groupStep rows (mapValues earlierGroup m)
  = mapResult (mapValues earlierGroup) (foldM fullGroupStep rows m).
Proof.
  revert m. induction rows as [|row rows IH]; intros m; cbn [foldM]; [reflexivity |].
  unfold Earlier.groupStep at 1, Earlier.keyOf, fullGroupStep at 1. rewrite get_mapValues.
  destruct (truthy (trim (tester row))); cbn [negb].
  - destruct (JsMap.get m (trim (tester row))) as [g|]; cbn [option_map bind].
    + rewrite <- IH, <- set_mapValues. reflexivity.
    + destruct (inherited (trim (tester row))); cbn [bind]; [reflexivity |].
      rewrite <- IH, <- set_mapValues. reflexivity.
  - cbn [bind]. apply IH.
Qed.

Lemma earlier_lines (statusList : list string) (m : JsMap.t FullGroup.t)
  (names : list string) :
  mapM (Earlier.dataRow statusList (mapValues earlierGroup m)) names
  = mapResult (map earlierLine) (mapM (dataRow statusList m) names).
Proof.
  induction names as [|name names IH]; cbn [mapM]; [reflexivity |].
  unfold Earlier.dataRow at 1, dataRow at 1. rewrite get_mapValues.
  destruct (JsMap.get m name) as [g|]; cbn [option_map bind]; [| reflexivity].
  rewrite IH. destruct (mapM (dataRow statusList m) names); reflexivity.
Qed.

Lemma earlier_columnsFrom (header : Row) (i : Z) (cols : Index.Columns) :
  Earlier.columnsFrom header i (earlierColumns cols)
  = earlierColumns (Index.columnsFrom header i cols).
Proof.
  revert i cols. induction header as [|c header IH]; intros i cols; [reflexivity |].
  cbn [Earlier.columnsFrom Index.columnsFrom]. rewrite <- IH. reflexivity.
Qed.

(** X19. The earlier reporter class of the file prepares the same report.
    Whatever order the host gives to the tester names, its lines of the
    pivot table are those of the later class without the two ticket fields,
    and it fails on the same records; the three columns it reads from the
    header of the index sheet are the ones the later class finds for "test
    story", "description" and "status". *)
Theorem earlier_class_agrees
  (sortedKeys : list string -> list string) (allData : list TestRecord) (header : Row) :
  Earlier.reportData sortedKeys allData
  = mapResult (map earlierLine) (reportData sortedKeys allData)
  /\ Earlier.columns header = earlierColumns (Index.columns header).
Proof.
  split.
  - unfold Earlier.reportData, reportData, groupFully.
    assert (G := earlier_groups allData []). cbn [mapValues map] in G. rewrite G.
    destruct (foldM fullGroupStep allData []) as [g|]; cbn [mapResult bind]; [| reflexivity].
    rewrite keys_mapValues. apply earlier_lines.
  - apply (earlier_columnsFrom header 0%Z Index.fallback).
Qed.

(** * The entry points *)





(** * Binary64 arithmetic and the percentages *)

Section Rounding.
Local Open Scope Z_scope.

Lemma digits2_bounds (p : positive) :
  2 ^ (Zpos (digits2_pos p) - 1) <= Zpos p < 2 ^ Zpos (digits2_pos p).
Proof.
  induction p as [p IH | p IH |]; cbn [digits2_pos].
  - rewrite Pos2Z.inj_succ, Pos2Z.inj_xI.
    replace (Z.succ (Zpos (digits2_pos p)) - 1) with (Z.succ (Zpos (digits2_pos p) - 1)) by lia.
    rewrite !Z.pow_succ_r by lia.
    set (a := 2 ^ (Zpos (digits2_pos p) - 1)) in *.
    set (b := 2 ^ Zpos (digits2_pos p)) in *. clearbody a b. lia.
  - rewrite Pos2Z.inj_succ, (Pos2Z.inj_xO p).
    replace (Z.succ (Zpos (digits2_pos p)) - 1) with (Z.succ (Zpos (digits2_pos p) - 1)) by lia.
    rewrite !Z.pow_succ_r by lia.
    set (a := 2 ^ (Zpos (digits2_pos p) - 1)) in *.
    set (b := 2 ^ Zpos (digits2_pos p)) in *. clearbody a b. lia.
  - cbn. lia.
Qed.

Lemma digits2_unique (p : positive) (d : Z) :
  2 ^ (d - 1) <= Zpos p < 2 ^ d -> Zpos (digits2_pos p) = d.
Proof.
  intros [Hlo Hhi]. destruct (digits2_bounds p) as [Blo Bhi].
  assert (0 <= d).
  { destruct (Z.neg_nonneg_cases d) as [Hd | Hd]; [| exact Hd].
    rewrite (Z.pow_neg_r 2 d Hd) in Hhi. lia. }
  assert (L1 : d - 1 < Zpos (digits2_pos p)).
  { apply (Z.pow_lt_mono_r_iff 2); lia. }
  assert (L2 : Zpos (digits2_pos p) - 1 < d).
  { apply (Z.pow_lt_mono_r_iff 2); lia. }
  lia.
Qed.

Lemma shr_1_nonneg (m : Z) (r s : bool) :
  0 <= m ->
  shr_1 (Build_shr_record m r s) = Build_shr_record (m / 2) (Z.odd m) (r || s).
Proof.
  intros Hm. rewrite <- Z.div2_div.
  destruct m as [|[p|p|]|]; try reflexivity. lia.
Qed.

Lemma shr_1_represents (W N : Z) (mrs : shr_record) :
  represents W N mrs -> represents (2 * W) N (shr_1 mrs).
Proof.
  destruct mrs as [m r s]. unfold represents. cbn [shr_m shr_r shr_s].
  intros (HW & HN & Hm & Hr & Hs).
  assert (Hq : 0 <= N / W) by (apply Z.div_pos; lia).
  rewrite shr_1_nonneg by lia. cbn [shr_m shr_r shr_s].
  assert (Hrho := Z.mod_pos_bound N W HW).
  assert (Hdiv : N / (2 * W) = N / W / 2).
  { rewrite Z.mul_comm. symmetry. apply Z.div_div; lia. }
  assert (Hmod : N mod (2 * W) = N mod W + W * ((N / W) mod 2)).
  { rewrite (Z.mul_comm 2 W). apply Z.rem_mul_r; lia. }
  assert (Hbit := Z.mod_pos_bound (N / W) 2 ltac:(lia)).
  assert (Hodd : Z.odd (N / W) = ((N / W) mod 2 =? 1)).
  { rewrite Zmod_odd. destruct (Z.odd (N / W)); reflexivity. }
  assert (Hb : (N / W) mod 2 = 0 \/ (N / W) mod 2 = 1) by lia.
  repeat split; try lia.
  - rewrite Hm. symmetry. exact Hdiv.
  - rewrite Hm, Hodd, Hmod.
    destruct Hb as [Hb | Hb]; rewrite Hb; cbn [Z.eqb Pos.eqb]; symmetry;
      [apply Z.leb_gt | apply Z.leb_le]; lia.
  - rewrite Hr, Hs, Hmod.
    destruct Hb as [Hb | Hb]; rewrite Hb;
      rewrite ?Z.mul_0_r, ?Z.mul_1_r, ?Z.add_0_r;
      destruct (Z.leb_spec W (2 * (N mod W)));
      destruct (Z.eqb_spec (N mod W) 0);
      destruct (Z.eqb_spec (2 * (N mod W)) W);
      try destruct (Z.eqb_spec (N mod W + W) 0);
      try destruct (Z.eqb_spec (2 * (N mod W + W)) (2 * W));
      try destruct (Z.eqb_spec (2 * (N mod W)) (2 * W));
      cbn; try reflexivity; lia.
Qed.

Lemma iter_pos_represents (N : Z) (p : positive) :
  forall (W : Z) (mrs : shr_record),
    represents W N mrs -> represents (2 ^ Zpos p * W) N (SpecFloat.iter_pos shr_1 p mrs).
Proof.
  induction p as [p IH | p IH |]; intros W mrs H; cbn [SpecFloat.iter_pos].
  - apply shr_1_represents in H. apply IH in H. apply IH in H.
    replace (2 ^ Zpos p~1 * W) with (2 ^ Zpos p * (2 ^ Zpos p * (2 * W))); [exact H |].
    replace (Zpos p~1) with (Zpos p + Zpos p + 1) by lia.
    rewrite !Z.pow_add_r by lia. rewrite Z.pow_1_r. ring.
  - apply IH in H. apply IH in H.
    replace (2 ^ Zpos p~0 * W) with (2 ^ Zpos p * (2 ^ Zpos p * W)); [exact H |].
    replace (Zpos p~0) with (Zpos p + Zpos p) by lia.
    rewrite Z.pow_add_r by lia. ring.
  - change (2 ^ 1) with 2. now apply shr_1_represents.
Qed.

Lemma round_nearest_even_represents (W N : Z) (mrs : shr_record) :
  represents W N mrs ->
  let m' := round_nearest_even (shr_m mrs) (loc_of_shr_record mrs) in
  shr_m mrs <= m' <= shr_m mrs + 1
  /\ 2 * Z.abs (m' * W - N) <= W
  /\ (N mod W = 0 -> m' = shr_m mrs).
Proof.
  destruct mrs as [m r s]. unfold represents. cbn [shr_m shr_r shr_s].
  intros (HW & HN & Hm & Hr & Hs).
  assert (Hrho := Z.mod_pos_bound N W HW).
  assert (Hdm := Z.div_mod N W ltac:(lia)). rewrite <- Hm in Hdm.
  set (rho := N mod W) in *. clearbody rho.
  assert (Hm1 : (m + 1) * W = W * m + W) by ring.
  assert (Hm0 : m * W = W * m) by ring.
  destruct (Z.leb_spec W (2 * rho)); destruct (Z.eqb_spec rho 0);
    destruct (Z.eqb_spec (2 * rho) W); cbn in Hr, Hs; subst r s;
    cbn [loc_of_shr_record round_nearest_even]; try lia;
    try (destruct (Z.even m)); rewrite ?Hm1, ?Hm0; lia.
Qed.

Lemma shr_fexp_normal (W N mx ex : Z) (lx : location) :
  represents W N (shr_record_of_loc mx lx) ->
  53 <= Zdigits2 mx ->
  -1074 <= ex + (Zdigits2 mx - 53) ->
  exists mrs,
    shr_fexp prec emax mx ex lx = (mrs, ex + (Zdigits2 mx - 53))
    /\ represents (2 ^ (Zdigits2 mx - 53) * W) N mrs.
Proof.
  intros H Hd He. unfold shr_fexp, fexp, SpecFloat.emin, prec, emax.
  rewrite Z.max_l by lia.
  replace (Zdigits2 mx + ex - 53 - ex) with (Zdigits2 mx - 53) by lia.
  destruct (Zdigits2 mx - 53) as [|k|k] eqn:Ek; try lia; cbn [shr].
  - exists (shr_record_of_loc mx lx). split; [f_equal; lia |].
    change (2 ^ 0) with 1. now rewrite Z.mul_1_l.
  - exists (SpecFloat.iter_pos shr_1 k (shr_record_of_loc mx lx)).
    split; [reflexivity |]. now apply iter_pos_represents.
Qed.

Lemma shr_m_of_loc (m : Z) (l : location) : shr_m (shr_record_of_loc m l) = m.
Proof. destruct l as [|[]]; reflexivity. Qed.

Lemma shr_fexp_carry (e : Z) :
  -1074 <= e + 1 ->
  shr_fexp prec emax (2 ^ 53) e loc_Exact
  = (Build_shr_record (2 ^ 52) false false, e + 1).
Proof.
  intros He. unfold shr_fexp, fexp, SpecFloat.emin, prec, emax.
  change (Zdigits2 (2 ^ 53)) with 54. rewrite Z.max_l by lia.
  replace (54 + e - 53 - e) with 1 by lia. reflexivity.
Qed.

(** Rounding a mantissa of at least 53 bits, away from the ends of the
    exponent range: the result has 53 bits and lies within half a unit in
    the last place of the number [N / W * 2 ^ ex] the mantissa and its
    location stand for. *)
Lemma binary_round_aux_normal (sx : bool) (W N : Z) (mx : positive) (ex : Z)
  (lx : location) :
  represents W N (shr_record_of_loc (Zpos mx) lx) ->
  53 <= Zpos (digits2_pos mx) ->
  -1074 <= ex + (Zpos (digits2_pos mx) - 53) ->
  ex + (Zpos (digits2_pos mx) - 53) + 1 <= 971 ->
  exists (m : positive) (e : Z),
    binary_round_aux prec emax sx (Zpos mx) ex lx = S754_finite sx m e
    /\ Zpos (digits2_pos m) = 53
    /\ ex + (Zpos (digits2_pos mx) - 53) <= e <= ex + (Zpos (digits2_pos mx) - 53) + 1
    /\ 2 * Z.abs (Zpos m * 2 ^ (e - ex) * W - N) <= 2 ^ (e - ex) * W
    /\ (N mod (2 ^ (Zpos (digits2_pos mx) - 53) * W) = 0 ->
        Zpos m * 2 ^ (e - ex) * W = N).
Proof.
  intros H Hd Hlo Hhi.
  destruct (shr_fexp_normal W N (Zpos mx) ex lx H Hd Hlo) as (mrs & E & R).
  cbn [Zdigits2] in E, R.
  remember (Zpos (digits2_pos mx) - 53) as k eqn:Ek.
  assert (Hk : 0 <= k) by lia.
  unfold binary_round_aux. rewrite E.
  assert (Hround := round_nearest_even_represents _ _ _ R).
  cbv zeta in Hround.
  set (mr := round_nearest_even (shr_m mrs) (loc_of_shr_record mrs)) in *.
  destruct Hround as (Hmr & Herr & Hexact).
  assert (HW : 0 < W) by apply H.
  assert (Hpow : 0 < 2 ^ k) by (apply Z.pow_pos_nonneg; lia).
  (* the quotient has 53 bits *)
  assert (Hm1 : 2 ^ 52 <= shr_m mrs < 2 ^ 53).
  { destruct R as (_ & HN & Hq & _). rewrite Hq.
    destruct H as (_ & _ & Hq0 & _). rewrite shr_m_of_loc in Hq0.
    rewrite (Z.mul_comm (2 ^ k) W), <- Z.div_div by lia. rewrite <- Hq0.
    destruct (digits2_bounds mx) as [Blo Bhi].
    replace (Zpos (digits2_pos mx) - 1) with (52 + k) in Blo by lia.
    replace (Zpos (digits2_pos mx)) with (53 + k) in Bhi by lia.
    rewrite Z.pow_add_r in Blo, Bhi by lia.
    split.
    - apply Z.div_le_lower_bound; lia.
    - apply Z.div_lt_upper_bound; lia. }
  destruct (Z.eq_dec mr (2 ^ 53)) as [Htop | Htop].
  - (* the rounding carried into a 54th bit *)
    rewrite Htop, shr_fexp_carry by lia. cbn [shr_m].
    change (2 ^ 52) with (Zpos 4503599627370496). cbv iota.
    replace (ex + k + 1 <=? emax - prec) with true
      by (symmetry; apply Z.leb_le; unfold emax, prec; lia).
    exists 4503599627370496%positive, (ex + k + 1). split; [reflexivity |].
    split; [reflexivity |]. split; [lia |].
    replace (ex + k + 1 - ex) with (k + 1) by lia.
    rewrite Z.pow_add_r, Z.pow_1_r by lia.
    replace (Zpos 4503599627370496 * (2 ^ k * 2) * W) with (mr * (2 ^ k * W))
      by (rewrite Htop; change (Zpos 4503599627370496) with (2 ^ 52); ring).
    split; [lia |]. intros Hz. apply Hexact in Hz. lia.
  - assert (Hmr53 : 2 ^ 52 <= mr < 2 ^ 53) by lia.
    destruct mr as [|pm|pm] eqn:Emr; try lia.
    assert (Hdig : Zpos (digits2_pos pm) = 53) by (apply digits2_unique; lia).
    unfold shr_fexp, fexp, SpecFloat.emin, prec, emax. cbn [Zdigits2].
    rewrite Hdig. rewrite Z.max_l by lia.
    replace (53 + (ex + k) - 53 - (ex + k)) with 0 by lia.
    cbn [shr shr_record_of_loc shr_m].
    replace (ex + k <=? 1024 - 53) with true by (symmetry; apply Z.leb_le; lia).
    exists pm, (ex + k). split; [reflexivity |]. split; [exact Hdig |].
    split; [lia |]. replace (ex + k - ex) with k by lia.
    replace (Zpos pm * 2 ^ k * W) with (Zpos pm * (2 ^ k * W)) by ring.
    split; [lia |]. intros Hz. rewrite (Hexact Hz).
    destruct R as (_ & _ & Hq & _). rewrite Hq.
    assert (Hdm := Z.div_mod N (2 ^ k * W) ltac:(lia)). lia.
Qed.

Lemma exact_represents (N : Z) :
  0 <= N -> represents 1 N (shr_record_of_loc N loc_Exact).
Proof.
  intros HN. unfold represents. cbn [shr_record_of_loc shr_m shr_r shr_s].
  rewrite Z.div_1_r, Z.mod_1_r. repeat split; try lia.
Qed.

Lemma new_location_represents (D N : Z) :
  0 < D -> 0 <= N ->
  represents D N (shr_record_of_loc (N / D) (new_location D (N mod D))).
Proof.
  intros HD HN. assert (Hrho := Z.mod_pos_bound N D HD).
  set (rho := N mod D) in *.
  assert (R : forall l,
             shr_r (shr_record_of_loc (N / D) l) = (D <=? 2 * rho)
             /\ shr_s (shr_record_of_loc (N / D) l)
                = negb ((rho =? 0) || (2 * rho =? D)) ->
             represents D N (shr_record_of_loc (N / D) l)).
  { intros l [Hr Hs]. unfold represents. fold rho.
    rewrite shr_m_of_loc. repeat split; auto. }
  apply R. clearbody rho. unfold new_location.
  destruct (Z.even D) eqn:Ev.
  - unfold new_location_even. destruct (Z.eqb_spec rho 0) as [-> | Hne].
    + cbn [shr_record_of_loc shr_r shr_s orb negb]. split; [| reflexivity].
      symmetry. apply Z.leb_gt. lia.
    + destruct (Z.compare_spec (2 * rho) D) as [E | L | G];
        cbn [shr_record_of_loc shr_r shr_s orb]; split; symmetry.
      * apply Z.leb_le. lia.
      * apply Z.eqb_eq in E. rewrite E. reflexivity.
      * apply Z.leb_gt. lia.
      * destruct (Z.eqb_spec (2 * rho) D); [lia | reflexivity].
      * apply Z.leb_le. lia.
      * destruct (Z.eqb_spec (2 * rho) D); [lia | reflexivity].
  - assert (Hodd : 2 * rho <> D).
    { intros E. rewrite <- E, Z.even_mul in Ev. discriminate. }
    unfold new_location_odd. destruct (Z.eqb_spec rho 0) as [-> | Hne].
    + cbn [shr_record_of_loc shr_r shr_s orb negb]. split; [| reflexivity].
      symmetry. apply Z.leb_gt. lia.
    + destruct (Z.eqb_spec (2 * rho) D) as [E | _]; [contradiction |].
      destruct (Z.compare_spec (2 * rho + 1) D) as [E | L | G];
        cbn [shr_record_of_loc shr_r shr_s orb negb]; split; try reflexivity;
        symmetry; first [apply Z.leb_gt; lia | apply Z.leb_le; lia].
Qed.

Lemma iter_xO (p k : positive) : Zpos (Pos.iter xO p k) = Zpos p * 2 ^ Zpos k.
Proof.
  induction k as [|k IH] using Pos.peano_ind.
  - cbn. lia.
  - rewrite Pos.iter_succ, Pos2Z.inj_xO, IH, Pos2Z.inj_succ, Z.pow_succ_r by lia.
    ring.
Qed.

(** An integer below [2^53] is a number as it stands. *)
Lemma binary_normalize_integer (c : Z) :
  0 < c < 2 ^ 53 ->
  exists (m : positive) (e : Z),
    normal (binary_normalize prec emax c 0 false) m e
    /\ -52 <= e <= 0 /\ Zpos m = c * 2 ^ (- e).
Proof.
  intros Hc. destruct c as [|pc|pc]; try lia.
  cbn [binary_normalize]. unfold binary_round.
  destruct (digits2_bounds pc) as [Blo Bhi].
  assert (Hd : 1 <= Zpos (digits2_pos pc) <= 53).
  { split; [lia |].
    destruct (Z.le_gt_cases (Zpos (digits2_pos pc)) 53) as [H | H]; [exact H |].
    assert (2 ^ 53 <= 2 ^ (Zpos (digits2_pos pc) - 1))
      by (apply Z.pow_le_mono_r; lia). lia. }
  unfold fexp, SpecFloat.emin, prec, emax. rewrite Z.add_0_r.
  rewrite Z.max_l by lia. unfold shl_align. rewrite Z.sub_0_r.
  remember (Zpos (digits2_pos pc)) as d eqn:Ed.
  assert (Hshift : exists mz ez,
             match d - 53 with
             | Z.neg k => (Pos.iter xO pc k, d - 53)
             | _ => (pc, 0)
             end = (mz, ez)
             /\ Zpos (digits2_pos mz) = 53 /\ -52 <= ez <= 0
             /\ Zpos mz = Zpos pc * 2 ^ (- ez)).
  { destruct (d - 53) as [|k|k] eqn:Ek; try lia.
    - exists pc, 0. repeat split; try lia.
    - exists (Pos.iter xO pc k), (Z.neg k). rewrite iter_xO.
      assert (Hpk : Zpos k = 53 - d) by lia.
      repeat split; try lia.
      + apply digits2_unique. rewrite iter_xO, Hpk.
        assert (E1 : 2 ^ (53 - 1) = 2 ^ (d - 1) * 2 ^ (53 - d))
          by (rewrite <- Z.pow_add_r by lia; f_equal; lia).
        assert (E2 : 2 ^ 53 = 2 ^ d * 2 ^ (53 - d))
          by (rewrite <- Z.pow_add_r by lia; f_equal; lia).
        rewrite E1, E2.
        assert (0 < 2 ^ (53 - d)) by (apply Z.pow_pos_nonneg; lia).
        split; [apply Z.mul_le_mono_nonneg_r | apply Z.mul_lt_mono_pos_r]; lia. }
  destruct Hshift as (mz & ez & -> & Hdz & Hez & Hmz).
  destruct (binary_round_aux_normal false 1 (Zpos mz) mz ez loc_Exact)
    as (m & e & E & Hdm & He & _ & Hexact).
  - apply exact_represents. lia.
  - lia.
  - lia.
  - lia.
  - rewrite Hdz in He, Hexact. change (2 ^ (53 - 53)) with 1 in Hexact.
    rewrite Z.mod_1_r in Hexact. specialize (Hexact eq_refl).
    rewrite Z.mul_1_r in Hexact.
    exists m, e. split; [split; assumption |].
    destruct (digits2_bounds m) as [Mlo Mhi]. rewrite Hdm in Mlo, Mhi.
    destruct (digits2_bounds mz) as [Zlo Zhi]. rewrite Hdz in Zlo, Zhi.
    assert (e = ez).
    { destruct (Z.eq_dec e ez) as [Heq | Hne]; [exact Heq |].
      replace (e - ez) with 1 in Hexact by lia. rewrite Z.pow_1_r in Hexact. lia. }
    subst e. rewrite Z.sub_diag, Z.pow_0_r, Z.mul_1_r in Hexact.
    split; [lia |]. rewrite Hexact. exact Hmz.
Qed.

(** Division of two numbers with full mantissas. *)
Lemma SFdiv_normal (x y : spec_float) (mx my : positive) (ex ey : Z) :
  normal x mx ex -> normal y my ey ->
  -500 <= ex <= 500 -> -500 <= ey <= 500 ->
  exists (m : positive) (e : Z),
    normal (SFdiv prec emax x y) m e
    /\ ex - ey - 53 <= e <= ex - ey - 51
    /\ 2 * Z.abs (Zpos m * 2 ^ (e - (ex - ey - 53)) * Zpos my - Zpos mx * 2 ^ 53)
       <= 2 ^ (e - (ex - ey - 53)) * Zpos my.
Proof.
  intros [-> Hdx] [-> Hdy] Hex Hey. cbn [SFdiv xorb].
  unfold SFdiv_core_binary. cbn [Zdigits2]. rewrite Hdx, Hdy.
  unfold fexp, SpecFloat.emin, prec, emax.
  replace (53 + ex - (53 + ey)) with (ex - ey) by lia.
  rewrite Z.max_l by lia. rewrite Z.min_l by lia.
  replace (ex - ey - (ex - ey - 53)) with 53 by lia.
  rewrite Z.shiftl_mul_pow2 by lia.
  set (N := Zpos mx * 2 ^ 53).
  assert (Hq : Z.div_eucl N (Zpos my) = (N / Zpos my, N mod Zpos my)).
  { unfold Z.div, Z.modulo. destruct (Z.div_eucl N (Zpos my)). reflexivity. }
  rewrite Hq.
  destruct (digits2_bounds mx) as [Xlo Xhi]. rewrite Hdx in Xlo, Xhi.
  destruct (digits2_bounds my) as [Ylo Yhi]. rewrite Hdy in Ylo, Yhi.
  assert (HN : 0 <= N) by (unfold N; lia).
  assert (Hquot : 2 ^ 52 <= N / Zpos my < 2 ^ 54).
  { split.
    - apply Z.div_le_lower_bound; [lia |]. unfold N.
      change (2 ^ 53) with (2 * 2 ^ 52) in *. nia.
    - apply Z.div_lt_upper_bound; [lia |]. unfold N.
      change (2 ^ 54) with (2 * 2 ^ 53) in *. change (2 ^ 52) with 4503599627370496 in *.
      change (2 ^ 53) with 9007199254740992 in *. nia. }
  destruct (N / Zpos my) as [|q|q] eqn:Eq; try lia.
  assert (Hdq : 53 <= Zpos (digits2_pos q) <= 54).
  { destruct (digits2_bounds q) as [Qlo Qhi]. split.
    - destruct (Z.le_gt_cases 53 (Zpos (digits2_pos q))) as [H | H]; [exact H |].
      assert (2 ^ Zpos (digits2_pos q) <= 2 ^ 52) by (apply Z.pow_le_mono_r; lia). lia.
    - destruct (Z.le_gt_cases (Zpos (digits2_pos q)) 54) as [H | H]; [exact H |].
      assert (2 ^ 54 <= 2 ^ (Zpos (digits2_pos q) - 1)) by (apply Z.pow_le_mono_r; lia). lia. }
  destruct (binary_round_aux_normal false (Zpos my) N q (ex - ey - 53)
              (new_location (Zpos my) (N mod Zpos my)))
    as (m & e & E & Hdm & He & Herr & _).
  - rewrite <- Eq. apply new_location_represents; lia.
  - lia.
  - lia.
  - lia.
  - exists m, e. split; [split; assumption |]. split; [lia | exact Herr].
Qed.

(** Multiplication of two numbers with full mantissas. *)
Lemma SFmul_normal (x y : spec_float) (mx my : positive) (ex ey : Z) :
  normal x mx ex -> normal y my ey ->
  -500 <= ex <= 400 -> -500 <= ey <= 400 ->
  exists (m : positive) (e : Z),
    normal (SFmul prec emax x y) m e
    /\ ex + ey + 52 <= e <= ex + ey + 54
    /\ 2 * Z.abs (Zpos m * 2 ^ (e - (ex + ey)) - Zpos mx * Zpos my)
       <= 2 ^ (e - (ex + ey)).
Proof.
  intros [-> Hdx] [-> Hdy] Hex Hey. cbn [SFmul xorb].
  destruct (digits2_bounds mx) as [Xlo Xhi]. rewrite Hdx in Xlo, Xhi.
  destruct (digits2_bounds my) as [Ylo Yhi]. rewrite Hdy in Ylo, Yhi.
  assert (Hprod : 2 ^ 104 <= Zpos (mx * my) < 2 ^ 106).
  { rewrite Pos2Z.inj_mul.
    change (2 ^ 104) with (2 ^ 52 * 2 ^ 52). change (2 ^ 106) with (2 ^ 53 * 2 ^ 53).
    change (2 ^ (53 - 1)) with (2 ^ 52) in *.
    set (a := 2 ^ 52) in *. set (b := 2 ^ 53) in *.
    assert (0 < a) by reflexivity. assert (0 < b) by reflexivity.
    clearbody a b. nia. }
  assert (Hdp : 105 <= Zpos (digits2_pos (mx * my)) <= 106).
  { destruct (digits2_bounds (mx * my)) as [Plo Phi]. split.
    - destruct (Z.le_gt_cases 105 (Zpos (digits2_pos (mx * my)))) as [H | H]; [exact H |].
      assert (2 ^ Zpos (digits2_pos (mx * my)) <= 2 ^ 104) by (apply Z.pow_le_mono_r; lia). lia.
    - destruct (Z.le_gt_cases (Zpos (digits2_pos (mx * my))) 106) as [H | H]; [exact H |].
      assert (2 ^ 106 <= 2 ^ (Zpos (digits2_pos (mx * my)) - 1)) by (apply Z.pow_le_mono_r; lia). lia. }
  destruct (binary_round_aux_normal false 1 (Zpos (mx * my)) (mx * my) (ex + ey) loc_Exact)
    as (m & e & E & Hdm & He & Herr & _).
  - apply exact_represents. lia.
  - lia.
  - lia.
  - lia.
  - exists m, e. split; [split; assumption |]. split; [lia |].
    rewrite !Z.mul_1_r in Herr. rewrite Pos2Z.inj_mul in Herr. exact Herr.
Qed.

End Rounding.

Section Percentages.
Local Open Scope R_scope.

Lemma Rabs_le_inv (x y : R) : Rabs x <= y -> - y <= x <= y.
Proof. unfold Rabs. destruct (Rcase_abs x); lra. Qed.

Lemma IZR_pow2 (k : Z) : (0 <= k)%Z -> IZR (2 ^ k) = powerRZ 2 k.
Proof.
  intros Hk. rewrite <- (Z2Nat.id k Hk).
  rewrite <- pow_IZR, pow_powerRZ. reflexivity.
Qed.

Lemma pow2_pos (k : Z) : 0 < powerRZ 2 k.
Proof. apply powerRZ_lt. lra. Qed.

Lemma pow2_add (a b : Z) : powerRZ 2 (a + b) = powerRZ 2 a * powerRZ 2 b.
Proof. apply powerRZ_add. lra. Qed.

Lemma normal_value (f : spec_float) (m : positive) (e : Z) :
  normal f m e ->
  B2R f = IZR (Zpos m) * powerRZ 2 e
  /\ 4503599627370496 <= IZR (Zpos m) < 9007199254740992.
Proof.
  intros [-> Hd]. cbn [B2R]. split; [ring |].
  destruct (digits2_bounds m) as [Lo Hi]. rewrite Hd in Lo, Hi.
  change (2 ^ (53 - 1))%Z with 4503599627370496%Z in Lo.
  change (2 ^ 53)%Z with 9007199254740992%Z in Hi.
  split; [apply IZR_le | apply IZR_lt]; assumption.
Qed.

Lemma normal_pos (f : spec_float) (m : positive) (e : Z) :
  normal f m e -> 0 < B2R f.
Proof.
  intros H. destruct (normal_value f m e H) as (-> & Hm & _).
  apply Rmult_lt_0_compat; [lra | apply pow2_pos].
Qed.

(** The quotient is off by at most its 2^-53rd part. *)
Lemma SFdiv_error (x y : spec_float) (mx my : positive) (ex ey : Z) :
  normal x mx ex -> normal y my ey ->
  (-500 <= ex <= 500)%Z -> (-500 <= ey <= 500)%Z ->
  exists (m : positive) (e : Z),
    normal (SFdiv prec emax x y) m e
    /\ (ex - ey - 53 <= e <= ex - ey - 51)%Z
    /\ Rabs (B2R (SFdiv prec emax x y) * B2R y - B2R x)
       <= B2R (SFdiv prec emax x y) * B2R y / 9007199254740992.
Proof.
  intros Hx Hy Hex Hey.
  destruct (SFdiv_normal x y mx my ex ey Hx Hy Hex Hey) as (m & e & Hz & He & Herr).
  exists m, e. split; [exact Hz |]. split; [exact He |].
  destruct (normal_value _ _ _ Hx) as (-> & Mx).
  destruct (normal_value _ _ _ Hy) as (-> & My).
  destruct (normal_value _ _ _ Hz) as (-> & Mz).
  apply IZR_le in Herr.
  rewrite mult_IZR, abs_IZR, minus_IZR, !mult_IZR, !IZR_pow2 in Herr by lia.
  set (j := (e - (ex - ey - 53))%Z) in *.
  replace (powerRZ 2 e) with (powerRZ 2 j * powerRZ 2 (ex - ey - 53))
    by (rewrite <- pow2_add; f_equal; unfold j; lia).
  replace (powerRZ 2 ex) with (powerRZ 2 53 * powerRZ 2 (ex - ey - 53) * powerRZ 2 ey)
    by (rewrite <- !pow2_add; f_equal; lia).
  assert (Hb := pow2_pos (ex - ey - 53)). assert (Hg := pow2_pos ey).
  assert (HJ := pow2_pos j).
  set (b := powerRZ 2 (ex - ey - 53)) in *. set (g := powerRZ 2 ey) in *.
  set (J := powerRZ 2 j) in *. set (P := powerRZ 2 53) in *.
  set (M := IZR (Zpos m)) in *. set (MX := IZR (Zpos mx)) in *.
  set (MY := IZR (Zpos my)) in *.
  change (IZR 2) with 2 in Herr.
  replace (M * (J * b) * (MY * g) - MX * (P * b * g))
    with (b * g * (M * J * MY - MX * P)) by ring.
  assert (Hbg : 0 < b * g) by (apply Rmult_lt_0_compat; assumption).
  rewrite Rabs_mult, (Rabs_pos_eq (b * g)) by lra.
  apply Rle_trans with (b * g * (J * MY / 2)).
  - apply Rmult_le_compat_l; lra.
  - replace (b * g * (J * MY / 2)) with (b * g * (J * MY) * (1 / 2)) by field.
    replace (M * (J * b) * (MY * g) / 9007199254740992)
      with (b * g * (J * MY) * (M / 9007199254740992)) by field.
    apply Rmult_le_compat_l; [| lra].
    apply Rmult_le_pos; [lra |]. apply Rmult_le_pos; lra.
Qed.

(** The product is off by at most its 2^-53rd part. *)
Lemma SFmul_error (x y : spec_float) (mx my : positive) (ex ey : Z) :
  normal x mx ex -> normal y my ey ->
  (-500 <= ex <= 400)%Z -> (-500 <= ey <= 400)%Z ->
  exists (m : positive) (e : Z),
    normal (SFmul prec emax x y) m e
    /\ (ex + ey + 52 <= e <= ex + ey + 54)%Z
    /\ Rabs (B2R (SFmul prec emax x y) - B2R x * B2R y)
       <= B2R (SFmul prec emax x y) / 9007199254740992.
Proof.
  intros Hx Hy Hex Hey.
  destruct (SFmul_normal x y mx my ex ey Hx Hy Hex Hey) as (m & e & Hz & He & Herr).
  exists m, e. split; [exact Hz |]. split; [exact He |].
  destruct (normal_value _ _ _ Hx) as (-> & Mx).
  destruct (normal_value _ _ _ Hy) as (-> & My).
  destruct (normal_value _ _ _ Hz) as (-> & Mz).
  apply IZR_le in Herr.
  rewrite mult_IZR, abs_IZR, minus_IZR, !mult_IZR, !IZR_pow2 in Herr by lia.
  set (j := (e - (ex + ey))%Z) in *.
  replace (powerRZ 2 e) with (powerRZ 2 j * (powerRZ 2 ex * powerRZ 2 ey))
    by (rewrite <- !pow2_add; f_equal; unfold j; lia).
  assert (Hb := pow2_pos ex). assert (Hg := pow2_pos ey).
  assert (HJ := pow2_pos j).
  set (b := powerRZ 2 ex) in *. set (g := powerRZ 2 ey) in *.
  set (J := powerRZ 2 j) in *.
  set (M := IZR (Zpos m)) in *. set (MX := IZR (Zpos mx)) in *.
  set (MY := IZR (Zpos my)) in *.
  change (IZR 2) with 2 in Herr.
  replace (M * (J * (b * g)) - MX * b * (MY * g))
    with (b * g * (M * J - MX * MY)) by ring.
  assert (Hbg : 0 < b * g) by (apply Rmult_lt_0_compat; assumption).
  rewrite Rabs_mult, (Rabs_pos_eq (b * g)) by lra.
  apply Rle_trans with (b * g * (J / 2)).
  - apply Rmult_le_compat_l; lra.
  - replace (b * g * (J / 2)) with (b * g * J * (1 / 2)) by field.
    replace (M * (J * (b * g)) / 9007199254740992)
      with (b * g * J * (M / 9007199254740992)) by field.
    apply Rmult_le_compat_l; [| lra].
    apply Rmult_le_pos; lra.
Qed.

(** [tenths] is a nearest integer to ten times the value. *)
Lemma tenths_nearest (m : positive) (e : Z) :
  Rabs (IZR (tenths m e) - 10 * (IZR (Zpos m) * powerRZ 2 e)) <= 1 / 2.
Proof.
  unfold tenths. cbv zeta.
  set (num := (Zpos m * 2 ^ Z.max e 0)%Z). set (den := (2 ^ Z.max (- e) 0)%Z).
  assert (Hden : (0 < den)%Z) by (apply Z.pow_pos_nonneg; lia).
  set (n := ((20 * num + den) / (2 * den))%Z).
  assert (Hlo : (2 * den * n <= 20 * num + den)%Z)
    by (apply Z.mul_div_le; lia).
  assert (Hhi : (20 * num + den < 2 * den * Z.succ n)%Z)
    by (apply Z.mul_succ_div_gt; lia).
  assert (Hval : IZR (Zpos m) * powerRZ 2 e * IZR den = IZR num).
  { unfold num, den. rewrite mult_IZR, !IZR_pow2 by lia.
    rewrite Rmult_assoc, <- pow2_add. do 2 f_equal. lia. }
  apply IZR_le in Hlo. apply IZR_lt in Hhi. apply IZR_lt in Hden.
  repeat (first [rewrite mult_IZR in Hlo | rewrite plus_IZR in Hlo]).
  repeat (first [rewrite mult_IZR in Hhi | rewrite plus_IZR in Hhi
                | rewrite succ_IZR in Hhi]).
  set (p := IZR (Zpos m) * powerRZ 2 e) in *.
  set (D := IZR den) in *. set (X := IZR num) in *. set (Nn := IZR n) in *.
  apply Rabs_le. split.
  - apply Rmult_le_reg_r with (2 * D); [lra |].
    replace ((Nn - 10 * p) * (2 * D)) with (2 * D * Nn - 20 * (p * D)) by ring.
    rewrite Hval. lra.
  - apply Rmult_le_reg_r with (2 * D); [lra |].
    replace ((Nn - 10 * p) * (2 * D)) with (2 * D * Nn - 20 * (p * D)) by ring.
    rewrite Hval. lra.
Qed.

Lemma value_fraction (m : positive) (e : Z) :
  IZR (Zpos m) * powerRZ 2 e * IZR (2 ^ Z.max (- e) 0)
  = IZR (Zpos m * 2 ^ Z.max e 0).
Proof.
  rewrite mult_IZR, !IZR_pow2 by lia.
  rewrite Rmult_assoc, <- pow2_add. do 2 f_equal. lia.
Qed.

Lemma Prim2SF_numberOfNat (c : nat) :
  (0 < Z.of_nat c < 2 ^ 53)%Z ->
  exists (m : positive) (e : Z),
    normal (Prim2SF (numberOfNat c)) m e
    /\ (-52 <= e <= 0)%Z
    /\ B2R (Prim2SF (numberOfNat c)) = IZR (Z.of_nat c).
Proof.
  intros Hc. unfold numberOfNat. rewrite of_uint63_spec, Uint63.of_Z_spec.
  rewrite Z.mod_small
    by (change Uint63Axioms.wB with (2 ^ 63)%Z; change (2 ^ 53)%Z with 9007199254740992%Z in Hc;
        change (2 ^ 63)%Z with 9223372036854775808%Z; lia).
  destruct (binary_normalize_integer (Z.of_nat c) Hc) as (m & e & Hn & He & Hm).
  exists m, e. split; [exact Hn |]. split; [exact He |].
  destruct (normal_value _ _ _ Hn) as (-> & _).
  rewrite Hm, mult_IZR, IZR_pow2 by lia.
  rewrite Rmult_assoc, <- pow2_add. replace (- e + e)%Z with 0%Z by lia.
  cbn [powerRZ]. ring.
Qed.

Lemma Prim2SF_zero : Prim2SF (numberOfNat 0) = S754_zero false.
Proof. unfold numberOfNat. rewrite of_uint63_spec. reflexivity. Qed.

Lemma hundred_normal : normal (Prim2SF 100%float) 7036874417766400 (-46).
Proof. split; vm_compute; reflexivity. Qed.

Lemma hundred_value : B2R (Prim2SF 100%float) = 100.
Proof.
  destruct (normal_value _ _ _ hundred_normal) as (-> & _).
  change 7036874417766400%Z with (100 * 2 ^ 46)%Z.
  rewrite mult_IZR, IZR_pow2 by lia.
  rewrite Rmult_assoc, <- pow2_add. change (46 + -46)%Z with 0%Z.
  cbn [powerRZ]. ring.
Qed.

(** The percentage of a positive count: what [toFixed(1)] renders is an
    integer number of tenths nearest to the exact percentage. *)
Lemma percentValue_nearest (c t : nat) :
  (1 <= c <= t)%nat -> (Z.of_nat t < 2 ^ 32)%Z ->
  exists (m : positive) (e : Z),
    Prim2SF (percentValue c t) = S754_finite false m e
    /\ below1e21 m e = true
    /\ nearestTenths c t (tenths m e).
Proof.
  intros Hct Ht.
  assert (Hc53 : (0 < Z.of_nat c < 2 ^ 53)%Z).
  { change (2 ^ 53)%Z with 9007199254740992%Z.
    change (2 ^ 32)%Z with 4294967296%Z in Ht. lia. }
  assert (Ht53 : (0 < Z.of_nat t < 2 ^ 53)%Z).
  { change (2 ^ 53)%Z with 9007199254740992%Z.
    change (2 ^ 32)%Z with 4294967296%Z in Ht. lia. }
  destruct (Prim2SF_numberOfNat c Hc53) as (mc & ec & Nc & Hec & Vc).
  destruct (Prim2SF_numberOfNat t Ht53) as (mt & et & Nt & Het & Vt).
  unfold percentValue. rewrite mul_spec, div_spec. unfold SF64mul, SF64div.
  destruct (SFdiv_error _ _ mc mt ec et Nc Nt ltac:(lia) ltac:(lia))
    as (my & ey & Ny & Hey & Ediv).
  destruct (SFmul_error _ _ my 7036874417766400 ey (-46) Ny hundred_normal
              ltac:(lia) ltac:(lia))
    as (mp & ep & Np & Hep & Emul).
  rewrite Vc, Vt in Ediv. rewrite hundred_value in Emul.
  set (y := B2R (SFdiv prec emax (Prim2SF (numberOfNat c)) (Prim2SF (numberOfNat t)))) in *.
  assert (Hy := normal_pos _ _ _ Ny). fold y in Hy.
  destruct (normal_value _ _ _ Np) as (Vp & _).
  assert (Hp := normal_pos _ _ _ Np).
  destruct Np as [Ep Hdp]. rewrite Ep in *.
  exists mp, ep. split; [reflexivity |].
  assert (Hn := tenths_nearest mp ep). rewrite <- Vp in Hn.
  set (p := B2R (S754_finite false mp ep)) in *.
  set (n := tenths mp ep) in *.
  set (T := IZR (Z.of_nat t)) in *. set (C := IZR (Z.of_nat c)) in *.
  assert (HT : 1 <= T <= 4294967296).
  { unfold T. split; [apply IZR_le; lia |].
    apply IZR_le. change (2 ^ 32)%Z with 4294967296%Z in Ht. lia. }
  assert (HC : 1 <= C <= T).
  { unfold C, T. split; apply IZR_le; lia. }
  apply Rabs_le_inv in Ediv. apply Rabs_le_inv in Emul. apply Rabs_le_inv in Hn.
  assert (A2 : - (p * T / 9007199254740992) <= p * T - 100 * (y * T)
               <= p * T / 9007199254740992) by (split; nra).
  assert (A3 : - (T / 2) <= IZR n * T - 10 * (p * T) <= T / 2) by (split; nra).
  assert (HpT : 0 < p * T) by (apply Rmult_lt_0_compat; lra).
  assert (HyT : 0 < y * T) by (apply Rmult_lt_0_compat; lra).
  set (P := p * T) in *. set (Y := y * T) in *. set (NT := IZR n * T) in *.
  assert (Hfinal : - (T / 2 + 1 / 2) < NT - 1000 * C < T / 2 + 1 / 2).
  { clearbody P Y NT. clear Hn Emul. split; lra. }
  assert (Hsmall : P <= 101 * T).
  { clearbody P Y NT. clear Hn Emul. lra. }
  split; [| split].
  - (* below 10^21 *)
    unfold below1e21. apply Z.ltb_lt. apply lt_IZR.
    rewrite <- value_fraction. fold (B2R (S754_finite false mp ep)).
    replace (B2R (S754_finite false mp ep)) with p
      by (unfold p; cbn [B2R]; ring).
    rewrite mult_IZR.
    assert (Hden : 0 < IZR (2 ^ Z.max (- ep) 0)).
    { apply IZR_lt. apply Z.pow_pos_nonneg; lia. }
    assert (Hp101 : p <= 101).
    { apply Rmult_le_reg_r with T; [lra |]. exact Hsmall. }
    apply Rlt_le_trans with (102 * IZR (2 ^ Z.max (- ep) 0)).
    + apply Rmult_lt_compat_r; lra.
    + apply Rmult_le_compat_r; [lra |]. apply IZR_le. cbn. lia.
  - apply Z.div_pos; [| apply Z.mul_pos_pos; [lia | apply Z.pow_pos_nonneg; lia]].
    assert (0 < 2 ^ Z.max (- ep) 0)%Z by (apply Z.pow_pos_nonneg; lia).
    assert (0 <= 2 ^ Z.max ep 0)%Z by (apply Z.pow_nonneg; lia).
    nia.
  - fold n. unfold NT, T, C in Hfinal. destruct Hfinal as [F1 F2].
    assert (G1 : (- (Z.of_nat t + 1) < 2 * (n * Z.of_nat t - 1000 * Z.of_nat c))%Z).
    { apply lt_IZR. rewrite opp_IZR, plus_IZR, mult_IZR, minus_IZR, !mult_IZR. lra. }
    assert (G2 : (2 * (n * Z.of_nat t - 1000 * Z.of_nat c) < Z.of_nat t + 1)%Z).
    { apply lt_IZR. rewrite plus_IZR, mult_IZR, minus_IZR, !mult_IZR. lra. }
    lia.
Qed.

End Percentages.

Lemma percentText_nearest (c t : nat) :
  (c <= t)%nat -> (0 < t)%nat -> (Z.of_nat t < 2 ^ 32)%Z ->
  exists n : Z, percentText c t = Some (fixed1 n) /\ nearestTenths c t n.
Proof.
  intros Hct Ht Hbound. unfold percentText.
  replace (0 <? t)%nat with true by (symmetry; apply Nat.ltb_lt; exact Ht).
  destruct c as [|c].
  - exists 0%Z. split.
    + unfold toFixed1, percentValue. rewrite mul_spec, div_spec, Prim2SF_zero.
      assert (Ht53 : (0 < Z.of_nat t < 2 ^ 53)%Z).
      { change (2 ^ 53)%Z with 9007199254740992%Z.
        change (2 ^ 32)%Z with 4294967296%Z in Hbound. lia. }
      destruct (Prim2SF_numberOfNat t Ht53) as (mt & et & [-> _] & _).
      reflexivity.
    + unfold nearestTenths. lia.
  - destruct (percentValue_nearest (S c) t ltac:(lia) Hbound) as (m & e & E & B & N).
    exists (tenths m e). split; [| exact N].
    unfold toFixed1. rewrite E, B. reflexivity.
Qed.

Lemma percentTexts_nearest (t : nat) (l : list nat) :
  (forall c, In c l -> (c <= t)%nat) -> (0 < t)%nat -> (Z.of_nat t < 2 ^ 32)%Z ->
  exists ns : list Z,
    map (fun c => percentText c t) l = map (fun n => Some (fixed1 n)) ns
    /\ Forall2 (fun c n => nearestTenths c t n) l ns.
Proof.
  intros Hl Ht Hbound. induction l as [|c l IH].
  - exists []. split; [reflexivity | constructor].
  - destruct IH as (ns & E & F); [intros x Hx; apply Hl; now right |].
    destruct (percentText_nearest c t (Hl c (or_introl eq_refl)) Ht Hbound)
      as (n & En & Hn).
    exists (n :: ns). cbn [map]. rewrite E, En. split; [reflexivity |].
    now constructor.
Qed.

Lemma In_le_list_sum (c : nat) (l : list nat) : In c l -> (c <= list_sum l)%nat.
Proof.
  induction l as [|x l IH]; [intros [] |]. cbn [list_sum fold_right].
  intros [<- | H]; [lia |]. apply IH in H. unfold list_sum in H. lia.
Qed.

Lemma tenths_add_up (t : nat) (l : list nat) (ns : list Z) :
  Forall2 (fun c n => nearestTenths c t n) l ns ->
  (2 * Z.abs (sumZ ns * Z.of_nat t - 1000 * Z.of_nat (list_sum l))
   <= Z.of_nat (List.length l) * Z.of_nat t)%Z.
Proof.
  induction 1 as [|c n l ns [_ Hn] _ IH].
  - cbn. lia.
  - cbn [sumZ fold_right list_sum List.length]. fold (sumZ ns). fold (list_sum l).
    rewrite Nat2Z.inj_add, Nat2Z.inj_succ.
    rewrite Z.mul_add_distr_r, Z.mul_succ_l. lia.
Qed.

(** The percentages of a list of counts. *)
Lemma percentCells_nearest (counts : list nat) :
  (0 < list_sum counts)%nat -> (Z.of_nat (list_sum counts) < 2 ^ 32)%Z ->
  exists ns : list Z,
    percentCells counts = map (fun n => Some (fixed1 n)) ns
    /\ Forall2 (fun c n => nearestTenths c (list_sum counts) n) counts ns
    /\ (2 * Z.abs (sumZ ns - 1000) <= Z.of_nat (List.length counts))%Z.
Proof.
  intros Hpos Hbound.
  destruct (percentTexts_nearest (list_sum counts) counts
              (fun c H => In_le_list_sum c counts H) Hpos Hbound) as (ns & E & F).
  exists ns. split; [exact E |]. split; [exact F |].
  assert (H := tenths_add_up _ _ _ F).
  set (t := Z.of_nat (list_sum counts)) in *.
  assert (Ht : (0 < t)%Z) by (unfold t; lia).
  replace (sumZ ns * t - 1000 * t)%Z with ((sumZ ns - 1000) * t)%Z in H by ring.
  rewrite Z.abs_mul, (Z.abs_eq t) in H by lia.
  apply (Z.mul_le_mono_pos_r _ _ t Ht). lia.
Qed.

Lemma percentCells_zero (counts : list nat) :
  list_sum counts = 0%nat ->
  Forall (fun cell => cell = Some "0") (percentCells counts).
Proof.
  intros H. unfold percentCells. rewrite H. apply Forall_forall.
  intros cell Hin. apply in_map_iff in Hin. destruct Hin as (c & <- & _). reflexivity.
Qed.

Example percentCells_examples :
  percentCells [1; 2]%nat = [Some "33.3"; Some "66.7"]%string
  /\ percentCells [1; 15]%nat = [Some "6.3"; Some "93.8"]%string
  /\ percentCells [1; 6; 0]%nat = [Some "14.3"; Some "85.7"; Some "0.0"]%string
  /\ percentCells [0; 0]%nat = [Some "0"; Some "0"]%string
  /\ percentCells [5]%nat = [Some "100.0"]%string.
Proof. vm_compute. repeat split. Qed.

(** C9. The percent column of the summary table. Under the invariant that
    every record has a status, and for a number of records an array can
    hold, the cell of each status is the text of a number of tenths nearest
    to the exact percentage, 100 times the count over the number of records,
    written with one digit after the point; the percentages shown differ
    from 100 in total by at most 0.05 per listed status. When the counts add
    up to zero every cell is ["0"]. *)
Theorem status_percentages (rows : list TestRecord) :
  (forall r, In r rows -> overallStatus r <> "") ->
  (Z.of_nat (List.length rows) < 2 ^ 32)%Z ->
  let counts := statusCounts rows in
  let total := List.length rows in
  (forall zeros,
      list_sum zeros = 0%nat ->
      Forall (fun cell => cell = Some "0") (percentCells zeros))
  /\ (rows <> [] ->
      exists tenthsList : list Z,
        percentCells counts = map (fun n => Some (fixed1 n)) tenthsList
        /\ Forall2 (fun count n => nearestTenths count total n) counts tenthsList
        /\ (2 * Z.abs (sumZ tenthsList - 1000) <= Z.of_nat (List.length counts))%Z).
Proof.
  intros Hne Hbound. cbv zeta. split; [exact percentCells_zero |].
  intros Hrows. assert (Hsum := counts_add_up rows Hne).
  destruct (percentCells_nearest (statusCounts rows)) as (ns & E & F & S).
  - rewrite Hsum. destruct rows; [contradiction | cbn; lia].
  - rewrite Hsum. exact Hbound.
  - exists ns. rewrite Hsum in F. auto.
Qed.

Lemma status_percentages_witness :
  percentCells (statusCounts Samples.aliceAndBob) = [Some "60.0"; Some "20.0"; Some "20.0"]
  /\ exists tenthsList : list Z,
       percentCells (statusCounts Samples.aliceAndBob)
       = map (fun n => Some (fixed1 n)) tenthsList
       /\ Forall2 (fun count n => nearestTenths count 5 n)
                  (statusCounts Samples.aliceAndBob) tenthsList
       /\ (2 * Z.abs (sumZ tenthsList - 1000)
           <= Z.of_nat (List.length (statusCounts Samples.aliceAndBob)))%Z.
Proof.
  split; [vm_compute; reflexivity |].
  refine (proj2 (status_percentages Samples.aliceAndBob _ _) _).
  - intros r H. simpl in H.
    destruct H as [<- | [<- | [<- | [<- | [<- | []]]]]]; discriminate.
  - reflexivity.
  - discriminate.
Defined.
